(** * unet3d/generator_siam.py: a shallow embedding and its properties

    The module feeds paired ("twin") 3-D volumes to a training loop.  The
    embedding follows the Python source function by function.  Python
    exceptions are values of [exn]; every effectful function runs in a
    state-and-exception monad whose state holds what the function can
    observe or change: the console, the module-level random generator, the
    pickle files of the split, and the accumulator lists of the generator. *)

From Stdlib Require Import ZArith List Lia QArith.
From Stdlib Require Import Strings.Ascii Strings.String Strings.Byte.
From Stdlib Require Floats.SpecFloat.
From stdpp Require Import gmap strings list pretty.
Import SpecFloat.

Local Open Scope string_scope.
Local Open Scope Z_scope.
Local Open Scope list_scope.

(** ** Exceptions and results *)

Inductive exn : Type :=
| RuntimeError                      (* a bare [raise] with no active exception *)
| ValueError (msg : string)
| IndexError
| TypeError
| ZeroDivisionError
| NameError (name : string)
| UnboundLocalError (name : string)
| AttributeError (msg : string)
| UnicodeDecodeError
| FileNotFoundError
| StopIteration.

Inductive result (A : Type) : Type :=
| Ok (a : A)
| Raise (e : exn).
Arguments Ok {A} a.
Arguments Raise {A} e.

(** ** The state-and-exception monad *)

Definition M (S A : Type) : Type := S → S * result A.

#[global] Instance M_ret {S} : MRet (M S) := λ A a s, (s, Ok a).
#[global] Instance M_bind {S} : MBind (M S) := λ A B f m s,
  match m s with
  | (s', Ok a) => f a s'
  | (s', Raise e) => (s', Raise e)
  end.

Definition raise {S A} (e : exn) : M S A := λ s, (s, Raise e).

Definition lift_result {S A} (r : result A) : M S A := λ s, (s, r).

(** Runs a computation on a component of a larger state. *)
Definition zoom {S T A} (get : T → S) (set : S → T → T) (m : M S A) : M T A :=
  λ t, let '(s', r) := m (get t) in (set s' t, r).

(** ** The process state outside the generator *)

Record sys : Type := mk_sys {
  stdout : list string;            (* lines printed so far, oldest first *)
  rand : nat → nat;                (* what the random generator returns next *)
  files : gmap string (list Z)     (* pickle files: path to stored list *)
}.

Definition print (line : string) : M sys unit :=
  λ s, (mk_sys (stdout s ++ [line]) (rand s) (files s), Ok tt).

(** [random._randbelow(n)]: consumes one value of the generator. *)
Definition randbelow (n : nat) : M sys nat :=
  λ s, (mk_sys (stdout s) (λ k, rand s (S k)) (files s),
        Ok (Nat.modulo (rand s O) n)).

(** Modelled from the spec: [os.path.exists] on a pickle path, and
    [pickle_dump] / [pickle_load] of [unet3d.utils], which are not part of
    the sources: dump stores a list under a path, load returns what was
    stored there. *)
Definition path_exists (path : string) : M sys bool :=
  λ s, (s, Ok (bool_decide (is_Some (files s !! path)))).

Definition pickle_dump (item : list Z) (path : string) : M sys unit :=
  λ s, (mk_sys (stdout s) (rand s) (<[path := item]> (files s)), Ok tt).

Definition pickle_load (path : string) : M sys (list Z) :=
  λ s, match files s !! path with
       | Some item => (s, Ok item)
       | None => (s, Raise FileNotFoundError)
       end.

(** ** Python integers and lists *)

(** [a // b] *)
Definition floordiv (a b : Z) : result Z :=
  if b =? 0 then Raise ZeroDivisionError else Ok (a / b).

(** [np.remainder(a, b)] on integers: the sign follows the divisor, and a
    zero divisor gives 0 (with a warning). *)
Definition np_remainder (a b : Z) : Z :=
  if b =? 0 then 0 else a mod b.

(** [list(range(start, stop))] *)
Definition range (start stop : Z) : list Z := seqZ start (stop - start).

(** [l * n] *)
Fixpoint list_mul {A} (l : list A) (n : nat) : list A :=
  match n with
  | O => []
  | S n' => l ++ list_mul l n'
  end.

(** [l[i]] for an integer [i], negative indices counting from the end. *)
Definition getitem {A} (l : list A) (i : Z) : result A :=
  let n := Z.of_nat (length l) in
  let j := if i <? 0 then i + n else i in
  if (j <? 0) || (n <=? j) then Raise IndexError
  else match l !! Z.to_nat j with
       | Some a => Ok a
       | None => Raise IndexError
       end.

(** [l.pop()]: the last element and the list without it. *)
Definition pop {A} (l : list A) : result (A * list A) :=
  match last l with
  | Some a => Ok (a, removelast l)
  | None => Raise IndexError
  end.

(** [x[i], x[j] = x[j], x[i]] *)
Definition swap {A} (x : list A) (i j : nat) : result (list A) :=
  match x !! j, x !! i with
  | Some xj, Some xi => Ok (<[j := xi]> (<[i := xj]> x))
  | _, _ => Raise IndexError
  end.

(** [random.shuffle(x)]:
      for i in reversed(range(1, len(x))):
          j = randbelow(i + 1)
          x[i], x[j] = x[j], x[i]
    [shuffle_loop i x] runs the iterations for i, i-1, ..., 1. *)
Fixpoint shuffle_loop {A} (i : nat) (x : list A) : M sys (list A) :=
  match i with
  | O => mret x
  | S i' =>
      j ← randbelow (S i);
      x' ← lift_result (swap x i j);
      shuffle_loop i' x'
  end.

Definition shuffle {A} (x : list A) : M sys (list A) :=
  shuffle_loop (Nat.pred (length x)) x.

(** ** get_number_of_steps *)

Definition get_number_of_steps (n_samples batch_size : Z) : result Z :=
  if n_samples <=? batch_size then Ok n_samples
  else if np_remainder n_samples batch_size =? 0 then
    floordiv n_samples batch_size
  else
    match floordiv n_samples batch_size with
    | Ok q => Ok (q + 1)
    | Raise e => Raise e
    end.

(** ** get_validation_split *)

Definition get_validation_split {D} (data_file : D)
    (training_file validation_file : string)
    (data_split : Q) (overwrite : bool) : M sys (list Z * list Z) :=
  present ← path_exists training_file;
  if overwrite || negb present then
    _ ← print "Creating validation split...";
    let test_listA := range 10 30 in
    let train_listA1 := range 0 10 in
    let train_listA2 := range 30 42 in
    let test_listB := range 52 72 in
    let train_listB1 := range 42 52 in
    let train_listB2 := range 72 239 in
    let test_listC := range 249 269 in
    let train_listC1 := range 239 249 in
    let train_listC2 := range 269 299 in
    lastB2 ← lift_result (getitem train_listB2 (-1));
    let training_list :=
      train_listA1 ++ train_listA2 ++ train_listB1 ++ train_listB2
        ++ [lastB2] ++ list_mul train_listC1 5 ++ list_mul train_listC2 5 in
    let validation_list := test_listA ++ test_listB ++ test_listC in
    training_list ← shuffle training_list;
    _ ← pickle_dump training_list training_file;
    _ ← pickle_dump validation_list validation_file;
    mret (training_list, validation_list)
  else
    _ ← print "Loading previous validation split...";
    training_list ← pickle_load training_file;
    validation_list ← pickle_load validation_file;
    mret (training_list, validation_list).

(** ** Text: bytes, decoding and splitting *)

(** A decoded [str] is its sequence of code points. *)
Definition str : Type := list N.

Definition ord (c : Ascii.ascii) : N := Ascii.N_of_ascii c.
Arguments ord c%_char.

Definition str_of (s : string) : str := map ord (list_ascii_of_string s).

Definition is_continuation (b : N) : bool := ((128 <=? b) && (b <=? 191))%N.

Definition result_map {A B} (f : A → B) (r : result A) : result B :=
  match r with
  | Ok a => Ok (f a)
  | Raise e => Raise e
  end.

(** [bytes.decode()]: strict UTF-8.  Overlong forms, surrogates and code
    points above U+10FFFF are rejected, as are truncated sequences. *)
Fixpoint utf8_decode (bs : list N) : result str :=
  match bs with
  | [] => Ok []
  | b0 :: rest =>
      if (b0 <? 128)%N then result_map (cons b0) (utf8_decode rest)
      else if ((194 <=? b0) && (b0 <=? 223))%N then
        match rest with
        | b1 :: rest1 =>
            if is_continuation b1 then
              result_map (cons ((b0 - 192) * 64 + (b1 - 128))%N)
                         (utf8_decode rest1)
            else Raise UnicodeDecodeError
        | _ => Raise UnicodeDecodeError
        end
      else if ((224 <=? b0) && (b0 <=? 239))%N then
        match rest with
        | b1 :: b2 :: rest2 =>
            let lo := (if b0 =? 224 then 160 else 128)%N in
            let hi := (if b0 =? 237 then 159 else 191)%N in
            if ((lo <=? b1) && (b1 <=? hi))%N && is_continuation b2 then
              result_map
                (cons ((b0 - 224) * 4096 + (b1 - 128) * 64 + (b2 - 128))%N)
                (utf8_decode rest2)
            else Raise UnicodeDecodeError
        | _ => Raise UnicodeDecodeError
        end
      else if ((240 <=? b0) && (b0 <=? 244))%N then
        match rest with
        | b1 :: b2 :: b3 :: rest3 =>
            let lo := (if b0 =? 240 then 144 else 128)%N in
            let hi := (if b0 =? 244 then 143 else 191)%N in
            if ((lo <=? b1) && (b1 <=? hi))%N && is_continuation b2
               && is_continuation b3 then
              result_map
                (cons ((b0 - 240) * 262144 + (b1 - 128) * 4096
                       + (b2 - 128) * 64 + (b3 - 128))%N)
                (utf8_decode rest3)
            else Raise UnicodeDecodeError
        | _ => Raise UnicodeDecodeError
        end
      else Raise UnicodeDecodeError
  end.

Definition bytes_decode (ids : list byte) : result str :=
  utf8_decode (map Byte.to_N ids).

(** [s.split(sep)] for a one-character separator: the pieces between the
    separators, empty pieces included; never an empty list. *)
Fixpoint split (s : str) (sep : N) : list str :=
  match s with
  | [] => [[]]
  | c :: s' =>
      if (c =? sep)%N then [] :: split s' sep
      else match split s' sep with
           | piece :: pieces => (c :: piece) :: pieces
           | [] => [[c]]
           end
  end.

(** ** Arrays *)

(** An [ndarray]: its shape and its elements in row-major order. *)
Record ndarray (T : Type) : Type := mk_ndarray {
  shape : list nat;
  elems : list T
}.
Arguments mk_ndarray {T} shape elems.
Arguments shape {T} _.
Arguments elems {T} _.

(** [a[np.newaxis]] *)
Definition newaxis {T} (a : ndarray T) : ndarray T :=
  mk_ndarray (1%nat :: shape a) (elems a).

(** [np.any(a != 0)] *)
Definition any_nonzero (a : ndarray Z) : bool :=
  existsb (λ v, negb (v =? 0)) (elems a).

(** The arithmetic of the image arrays.  The source leaves the element type
    to the data file; the embedding takes its operations as an interface. *)
Class Arith (voxel : Type) : Type := {
  vsub : voxel → voxel → voxel;
  vdiv : voxel → voxel → voxel;
  vminimum : voxel → voxel → voxel;
  vmaximum : voxel → voxel → voxel;
  veqb : voxel → voxel → bool
}.

Definition zero_size (op : string) : exn :=
  ValueError ("zero-size array to reduction operation " +:+ op
              +:+ " which has no identity").

(** ** Indices, patch shapes and data files *)

(** What the generator hands to [add_data]: a subject index, or a subject
    index with a patch offset. *)
Inductive index : Type :=
| Plain (i : Z)
| Pair (i : Z) (patch_index : list Z).

(** The values [patch_shape] takes: [None], [False] (the default of
    [add_data]) or a tuple. *)
Inductive patch_shape_arg : Type :=
| PatchNone
| PatchFalse
| PatchShape (dims : list nat).

(** [if patch_shape:] *)
Definition truthy (patch_shape : patch_shape_arg) : bool :=
  match patch_shape with
  | PatchShape (_ :: _) => true
  | _ => false
  end.

(** [patch_shape is not None] *)
Definition is_not_None (patch_shape : patch_shape_arg) : bool :=
  match patch_shape with
  | PatchNone => false
  | _ => true
  end.

(** An open data file, by what indexing its four tables returns. *)
Record data_file (voxel affine : Type) : Type := mk_data_file {
  root_data : index → result (ndarray voxel);       (* root.data[index] *)
  root_truth : index → Z → result (ndarray Z);      (* root.truth[index, c] *)
  root_affine : index → result affine;              (* root.affine[index] *)
  root_subject_ids : index → result (list byte)     (* root.subject_ids[index] *)
}.
Arguments mk_data_file {voxel affine}.
Arguments root_data {voxel affine} _ _.
Arguments root_truth {voxel affine} _ _ _.
Arguments root_affine {voxel affine} _ _.
Arguments root_subject_ids {voxel affine} _ _.

(** [index, patch_index = index] *)
Definition unpack_index (i : index) : result (index * list Z) :=
  match i with
  | Pair i patch_index => Ok (Plain i, patch_index)
  | Plain _ => Raise TypeError
  end.

(** [index[0]] *)
Definition index_0 (i : index) : result index :=
  match i with
  | Pair i _ => Ok (Plain i)
  | Plain _ => Raise TypeError
  end.

(** Reading a local variable that no assignment has reached. *)
Definition unbound_local {S A} (name : string) : M S A :=
  raise (UnboundLocalError name).

(** [a, b = t] for a 3-tuple [t]. *)
Definition unpack_2_of_3 {S A B C} (t : A * B * C) : M S (A * B) :=
  raise (ValueError "too many values to unpack (expected 2)").

(** ** The helpers imported from [unet3d.utils.patches] and [unet3d.augment]

    Their sources are not part of this module; the embedding takes them as
    an interface. *)
Class Externals (voxel affine : Type) : Type := {
  get_patch_from_3d_data :
    ∀ T, ndarray T → patch_shape_arg → list Z → result (ndarray T);
  augment_data :
    ndarray voxel → ndarray voxel → ndarray Z → ndarray Z → affine → affine →
    bool → option Q →
    M sys (ndarray voxel * ndarray Z * ndarray voxel * ndarray Z);
  random_permutation_x_y :
    ndarray voxel → ndarray Z → M sys (ndarray voxel * ndarray Z)
}.

(** ** The accumulators and the state of a generator *)

(** [x_list = [[], []]] *)
Record x_lists (voxel : Type) : Type := mk_x {
  x_0 : list (ndarray voxel);
  x_1 : list (ndarray voxel)
}.
Arguments mk_x {voxel} x_0 x_1.
Arguments x_0 {voxel} _.
Arguments x_1 {voxel} _.

(** [y_list = [[], [], []]] *)
Record y_lists : Type := mk_y {
  y_0 : list Z;
  y_1 : list (ndarray Z);
  y_2 : list (ndarray Z)
}.

(** The list objects [x_list] and [y_list] are mutated in place by
    [add_data]; they live in the state, next to the process state. *)
Record heap (voxel : Type) : Type := mk_heap {
  process : sys;
  x_list : x_lists voxel;
  y_list : y_lists
}.
Arguments mk_heap {voxel} process x_list y_list.
Arguments process {voxel} _.
Arguments x_list {voxel} _.
Arguments y_list {voxel} _.

Definition in_sys {voxel A} (m : M sys A) : M (heap voxel) A :=
  zoom process (λ s h, mk_heap s (x_list h) (y_list h)) m.

Section Loader.
Context {voxel affine : Type} `{!Arith voxel} `{!Externals voxel affine}.

(** [a.min()], [a.max()] *)
Definition amin (a : ndarray voxel) : result voxel :=
  match elems a with
  | [] => Raise (zero_size "minimum")
  | v :: vs => Ok (fold_left vminimum vs v)
  end.

Definition amax (a : ndarray voxel) : result voxel :=
  match elems a with
  | [] => Raise (zero_size "maximum")
  | v :: vs => Ok (fold_left vmaximum vs v)
  end.

(** [a - b] for arrays of one shape, [a - m] and [a / d] for scalars. *)
Definition arr_sub (a b : ndarray voxel) : ndarray voxel :=
  mk_ndarray (shape a) (zip_with vsub (elems a) (elems b)).

Definition arr_sub_scalar (a : ndarray voxel) (m : voxel) : ndarray voxel :=
  mk_ndarray (shape a) (map (λ v, vsub v m) (elems a)).

Definition arr_div_scalar (a : ndarray voxel) (d : voxel) : ndarray voxel :=
  mk_ndarray (shape a) (map (λ v, vdiv v d) (elems a)).

(** The [else] branch of [get_data_from_file]: the whole volume of one
    subject and the label derived from its identifier. *)
Definition get_whole_data_from_file (data_file : data_file voxel affine)
    (index : index) : M sys (ndarray voxel * ndarray Z * Z) :=
  x ← lift_result (root_data data_file index);
  y ← lift_result (root_truth data_file index 0);
  ids ← lift_result (root_subject_ids data_file index);
  ids ← lift_result (bytes_decode ids);
  piece ← lift_result (getitem (split ids (ord "-")) (-1));
  ids_AC ← lift_result (getitem piece 0);
  label ← (if (ids_AC =? ord "C")%N then mret 1
           else if ((ids_AC =? ord "A") || (ids_AC =? ord "B"))%N then mret 0
           else _ ← print "not A or B, C !!!"; raise RuntimeError);
  mret (x, y, label).

(** [get_data_from_file].  Its recursive call passes [patch_shape=None]
    and so runs the [else] branch; the two-name unpacking of the
    three-tuple it returns raises. *)
Definition get_data_from_file (data_file : data_file voxel affine)
    (index : index) (patch_shape : patch_shape_arg)
    : M sys (ndarray voxel * ndarray Z * Z) :=
  if truthy patch_shape then
    '(index, patch_index) ← lift_result (unpack_index index);
    whole ← get_whole_data_from_file data_file index;
    '(data, truth) ← unpack_2_of_3 whole;
    x ← lift_result (get_patch_from_3d_data _ data patch_shape patch_index);
    y ← lift_result (get_patch_from_3d_data _ truth patch_shape patch_index);
    label ← unbound_local "label";
    mret (x, y, label)
  else
    get_whole_data_from_file data_file index.

(** [x_list[0].append(a)] and the like *)
Definition append_x_0 (a : ndarray voxel) : M (heap voxel) unit :=
  λ h, (mk_heap (process h) (mk_x (x_0 (x_list h) ++ [a]) (x_1 (x_list h)))
                (y_list h), Ok tt).

Definition append_x_1 (a : ndarray voxel) : M (heap voxel) unit :=
  λ h, (mk_heap (process h) (mk_x (x_0 (x_list h)) (x_1 (x_list h) ++ [a]))
                (y_list h), Ok tt).

Definition append_y_0 (label : Z) : M (heap voxel) unit :=
  λ h, (mk_heap (process h) (x_list h)
                (mk_y (y_0 (y_list h) ++ [label]) (y_1 (y_list h))
                      (y_2 (y_list h))), Ok tt).

Definition append_y_1 (a : ndarray Z) : M (heap voxel) unit :=
  λ h, (mk_heap (process h) (x_list h)
                (mk_y (y_0 (y_list h)) (y_1 (y_list h) ++ [a])
                      (y_2 (y_list h))), Ok tt).

Definition append_y_2 (a : ndarray Z) : M (heap voxel) unit :=
  λ h, (mk_heap (process h) (x_list h)
                (mk_y (y_0 (y_list h)) (y_1 (y_list h))
                      (y_2 (y_list h) ++ [a])), Ok tt).

(** The min-max rescaling of one image volume in [add_data]. *)
Definition normalise (data : ndarray voxel) : result (ndarray voxel) :=
  match amin data with
  | Raise e => Raise e
  | Ok lo =>
      match amax data with
      | Raise e => Raise e
      | Ok hi =>
          if veqb lo hi then Ok (arr_sub data data)
          else Ok (arr_div_scalar (arr_sub_scalar data lo) (vsub hi lo))
      end
  end.

Definition cube_message : string :=
  "To utilize permutations, data array must be in 3D cube shape with all "
  +:+ "dimensions having the same length.".

(** [add_data].  The names [data] and [truth] of the permutation branch
    are locals of the function that nothing has assigned when the branch
    reads them. *)
Definition add_data (data_file0 data_file1 : data_file voxel affine)
    (index : index) (augment augment_flip : bool)
    (augment_distortion_factor : option Q) (patch_shape : patch_shape_arg)
    (skip_blank permute : bool) : M (heap voxel) unit :=
  '(data0, truth0, label0) ←
    in_sys (get_data_from_file data_file0 index patch_shape);
  '(data1, truth1, label1) ←
    in_sys (get_data_from_file data_file1 index patch_shape);
  _ ← (if negb (label0 =? label1) then
         _ ← in_sys (print "label0 and label1 not equal !!!");
         _ ← in_sys (print (pretty label0));
         _ ← in_sys (print (pretty label1));
         raise RuntimeError
       else mret tt);
  '(data0, truth0, data1, truth1) ←
    (if augment then
       '(affine0, affine1) ←
         (if is_not_None patch_shape then
            i0 ← lift_result (index_0 index);
            affine0 ← lift_result (root_affine data_file0 i0);
            i1 ← lift_result (index_0 index);
            affine1 ← lift_result (root_affine data_file1 i1);
            mret (affine0, affine1)
          else
            affine0 ← lift_result (root_affine data_file0 index);
            affine1 ← lift_result (root_affine data_file1 index);
            mret (affine0, affine1));
       in_sys (augment_data data0 data1 truth0 truth1 affine0 affine1
                            augment_flip augment_distortion_factor)
     else mret (data0, truth0, data1, truth1));
  '(truth0, truth1) ←
    (if permute then
       data ← unbound_local "data";
       d3 ← lift_result (getitem (shape data) (-3));
       d2 ← lift_result (getitem (shape data) (-2));
       d1 ← lift_result (getitem (shape data) (-1));
       _ ← (if negb (d3 =? d2)%nat || negb (d2 =? d1)%nat
            then raise (ValueError cube_message) else mret tt);
       truth ← unbound_local "truth";
       _ ← in_sys (random_permutation_x_y data (newaxis truth));
       mret (truth0, truth1)
     else mret (newaxis truth0, newaxis truth1));
  if negb skip_blank || (any_nonzero truth0 || any_nonzero truth1) then
    data0_0 ← lift_result (normalise data0);
    data1_0 ← lift_result (normalise data1);
    _ ← append_x_0 data0_0;
    _ ← append_x_1 data1_0;
    _ ← append_y_0 label0;
    _ ← append_y_1 truth0;
    append_y_2 truth1
  else mret tt.

End Loader.

(** ** Batch assembly *)

(** [np.asarray(l)] for a list of arrays: the arrays stacked along a new
    leading axis.  Arrays of different shapes do not stack. *)
Definition asarray {T} (l : list (ndarray T)) : result (ndarray T) :=
  match l with
  | [] => Ok (mk_ndarray [0%nat] [])
  | a :: _ =>
      if forallb (λ b, bool_decide (shape b = shape a)) l then
        Ok (mk_ndarray (length l :: shape a) (concat (map elems l)))
      else
        Raise (ValueError "inhomogeneous shape")
  end.

(** [np.asarray(l)] for a list of integers. *)
Definition asarray_ints (l : list Z) : ndarray Z :=
  mk_ndarray [length l] l.

(** What the name [y] of [convert_data] is bound to: the list of three
    arrays, or one array. *)
Inductive pyobj : Type :=
| PyList (items : list (ndarray Z))
| PyArray (a : ndarray Z).

(** [a[a > 0] = 1] *)
Definition binarise (a : ndarray Z) : ndarray Z :=
  mk_ndarray (shape a) (map (λ v, if 0 <? v then 1 else v) (elems a)).

Definition product (dims : list nat) : nat := fold_right Nat.mul 1%nat dims.

(** [np.zeros(new_shape, np.int8)] *)
Definition zeros (new_shape : list nat) : ndarray Z :=
  mk_ndarray new_shape (replicate (product new_shape) 0).

(** [y[:, label_index][data[:, 0] == target] = 1] on arrays of shapes
    (n, n_labels, ...) and (n, c, ...), where [size] is the number of
    elements of one channel of one sample. *)
Definition set_channel_where (y data : ndarray Z) (n_labels c size : nat)
    (label_index : nat) (target : Z) : ndarray Z :=
  mk_ndarray (shape y)
    (imap (λ p v,
       let sample := (p / (n_labels * size))%nat in
       let within := (p mod (n_labels * size))%nat in
       let channel := (within / size)%nat in
       let j := (within mod size)%nat in
       if (channel =? label_index)%nat then
         match elems data !! (sample * (c * size) + j)%nat with
         | Some d => if d =? target then 1 else v
         | None => v
         end
       else v) (elems y)).

(** The value a channel stands for: [labels[label_index]] when a list of
    labels is given, [label_index + 1] otherwise. *)
Definition target_label (labels : option (list Z)) (label_index : nat)
    : result Z :=
  match labels with
  | Some labels => getitem labels (Z.of_nat label_index)
  | None => Ok (Z.of_nat label_index + 1)
  end.

(** The loop of [get_multi_class_labels] over [range(n_labels)], from
    [label_index] on. *)
Fixpoint label_loop (todo : nat) (label_index : nat) (labels : option (list Z))
    (n_labels c size : nat) (data y : ndarray Z) : result (ndarray Z) :=
  match todo with
  | O => Ok y
  | S todo' =>
      match target_label labels label_index with
      | Raise e => Raise e
      | Ok target =>
          label_loop todo' (S label_index) labels n_labels c size data
            (set_channel_where y data n_labels c size label_index target)
      end
  end.

(** [get_multi_class_labels].  Its argument must be an array: a list has
    no [shape]. *)
Definition get_multi_class_labels (data : pyobj) (n_labels : Z)
    (labels : option (list Z)) : result (ndarray Z) :=
  match data with
  | PyList _ => Raise (AttributeError "'list' object has no attribute 'shape'")
  | PyArray data =>
      match getitem (shape data) 0 with
      | Raise e => Raise e
      | Ok n =>
          if n_labels <? 0 then
            Raise (ValueError "negative dimensions are not allowed")
          else
            let spatial := drop 2 (shape data) in
            let new_shape := n :: Z.to_nat n_labels :: spatial in
            let y := zeros new_shape in
            if (0 <? n_labels) then
              (* data[:, 0] needs a second axis with an entry 0 *)
              match shape data with
              | _ :: S c' :: _ =>
                  label_loop (Z.to_nat n_labels) 0 labels (Z.to_nat n_labels)
                             (S c') (product spatial) data y
              | _ => Raise IndexError
              end
            else Ok y
      end
  end.

Section Generator.
Context {voxel affine : Type} `{!Arith voxel} `{!Externals voxel affine}.

(** A batch: the list [x] of two arrays, and [y]. *)
Definition batch : Type := list (ndarray voxel) * pyobj.

Definition convert_data (x_list : x_lists voxel) (y_list : y_lists)
    (n_labels : Z) (labels : option (list Z)) : result batch :=
  match asarray (x_0 x_list) with Raise e => Raise e | Ok x0 =>
  match asarray (x_1 x_list) with Raise e => Raise e | Ok x1 =>
  let y0 := asarray_ints (y_0 y_list) in
  match asarray (y_1 y_list) with Raise e => Raise e | Ok y1 =>
  match asarray (y_2 y_list) with Raise e => Raise e | Ok y2 =>
  let x := [x0; x1] in
  if n_labels =? 1 then
    Ok (x, PyList [y0; binarise y1; binarise y2])
  else if 1 <? n_labels then
    match get_multi_class_labels (PyList [y0; y1; y2]) n_labels labels with
    | Raise e => Raise e
    | Ok y => Ok (x, PyArray y)
    end
  else Ok (x, PyList [y0; y1; y2])
  end end end end.

(** The arguments of [data_generator]. *)
Record generator_args : Type := mk_args {
  data_file0 : data_file voxel affine;
  data_file1 : data_file voxel affine;
  orig_index_list : list index;
  batch_size : Z;
  n_labels : Z;
  labels : option (list Z);
  augment : bool;
  augment_flip : bool;
  augment_distortion_factor : option Q;
  patch_shape : patch_shape_arg;
  patch_overlap : Z;
  patch_start_offset : option (list Z);
  shuffle_index_list : bool;
  skip_blank : bool;
  permute : bool
}.

(** Where a generator object stands. *)
Inductive position : Type :=
| NotStarted
| Suspended        (* at the [yield] *)
| Closed.          (* after an exception left the body *)

(** A generator object with the state its body reads and writes: its
    local [index_list], the accumulators and the process state. *)
Record generator : Type := mk_gen {
  position_of : position;
  index_list : list index;
  heap_of : heap voxel
}.

(** The points of the body where an iteration of a loop begins. *)
Inductive point : Type :=
| OuterLoop        (* [while True:] *)
| InnerLoop        (* [while len(index_list) > 0:] *)
| AfterYield.      (* the statement after [yield] *)

Definition reset_lists (h : heap voxel) : heap voxel :=
  mk_heap (process h) (mk_x [] []) (mk_y [] [] []).

(** Runs the body from a point until the next [yield] or exception; each
    loop iteration takes one unit of [fuel], and [None] means the fuel ran
    out before either. *)
Fixpoint run (a : generator_args) (fuel : nat) (pt : point)
    (index_list : list index) (h : heap voxel)
    : option (generator * result batch) :=
  match fuel with
  | O => None
  | S fuel' =>
      match pt with
      | OuterLoop =>
          let h := reset_lists h in
          if truthy (patch_shape a) then
            (* [data_file] is not a name of this function or module *)
            Some (mk_gen Closed index_list h, Raise (NameError "data_file"))
          else
            let index_list := orig_index_list a in       (* copy.copy *)
            if shuffle_index_list a then
              match in_sys (shuffle index_list) h with
              | (h, Ok index_list) => run a fuel' InnerLoop index_list h
              | (h, Raise e) => Some (mk_gen Closed index_list h, Raise e)
              end
            else run a fuel' InnerLoop index_list h
      | InnerLoop =>
          if (0 <? length index_list)%nat then
            match pop index_list with
            | Raise e => Some (mk_gen Closed index_list h, Raise e)
            | Ok (index, index_list) =>
                match add_data (data_file0 a) (data_file1 a) index
                        (augment a) (augment_flip a)
                        (augment_distortion_factor a) (patch_shape a)
                        (skip_blank a) (permute a) h with
                | (h, Raise e) => Some (mk_gen Closed index_list h, Raise e)
                | (h, Ok _) =>
                    let filled := Z.of_nat (length (y_0 (y_list h))) in
                    if (filled =? batch_size a)
                       || ((length index_list =? 0)%nat && (0 <? filled))
                    then
                      match convert_data (x_list h) (y_list h)
                              (n_labels a) (labels a) with
                      | Ok b => Some (mk_gen Suspended index_list h, Ok b)
                      | Raise e =>
                          Some (mk_gen Closed index_list h, Raise e)
                      end
                    else run a fuel' InnerLoop index_list h
                end
            end
          else run a fuel' OuterLoop index_list h
      | AfterYield =>
          run a fuel' InnerLoop index_list (reset_lists h)
      end
  end.

(** [data_generator(...)]: the generator object, nothing run yet. *)
Definition data_generator (a : generator_args) (s : sys) : generator :=
  mk_gen NotStarted (orig_index_list a) (mk_heap s (mk_x [] []) (mk_y [] [] [])).

(** [next(g)] *)
Definition next (a : generator_args) (fuel : nat) (g : generator)
    : option (generator * result batch) :=
  match position_of g with
  | NotStarted => run a fuel OuterLoop (index_list g) (heap_of g)
  | Suspended => run a fuel AfterYield (index_list g) (heap_of g)
  | Closed => Some (g, Raise StopIteration)
  end.

(** [n] successive calls of [next], with what each returned. *)
Fixpoint pull (a : generator_args) (fuel : nat) (n : nat) (g : generator)
    : option (list (result batch) * generator) :=
  match n with
  | O => Some ([], g)
  | S n' =>
      match next a fuel g with
      | None => None
      | Some (g', r) =>
          match pull a fuel n' g' with
          | None => None
          | Some (rs, g'') => Some (r :: rs, g'')
          end
      end
  end.

(** The length of the leading axis of each array of a batch: the two of
    [x], then those of [y]. *)
Definition leading_dims (b : batch) : list (option nat) :=
  map (λ a, head (shape a)) b.1
  ++ match b.2 with
     | PyList items => map (λ a, head (shape a)) items
     | PyArray a => [head (shape a)]
     end.

(** The accumulators hold [k] samples whose arrays have the given
    shapes. *)
Definition filled (k : nat) (sd0 sd1 st0 st1 : list nat) (h : heap voxel)
    : Prop :=
  length (y_0 (y_list h)) = k
  ∧ length (x_0 (x_list h)) = k ∧ Forall (λ d, shape d = sd0) (x_0 (x_list h))
  ∧ length (x_1 (x_list h)) = k ∧ Forall (λ d, shape d = sd1) (x_1 (x_list h))
  ∧ length (y_1 (y_list h)) = k
  ∧ Forall (λ t, shape t = 1%nat :: st0) (y_1 (y_list h))
  ∧ length (y_2 (y_list h)) = k
  ∧ Forall (λ t, shape t = 1%nat :: st1) (y_2 (y_list h)).

(** Both files hold a sample at [index], with one label and volumes of
    the given shapes, and the blank filter lets it through. *)
Definition survives (a : generator_args) (sd0 sd1 st0 st1 : list nat)
    (index : index) : Prop :=
  ∃ data0 truth0 data1 truth1 label s,
    get_data_from_file (data_file0 a) index (patch_shape a) s
      = (s, Ok (data0, truth0, label))
    ∧ get_data_from_file (data_file1 a) index (patch_shape a) s
      = (s, Ok (data1, truth1, label))
    ∧ elems data0 ≠ [] ∧ elems data1 ≠ []
    ∧ shape data0 = sd0 ∧ shape data1 = sd1
    ∧ shape truth0 = st0 ∧ shape truth1 = st1
    ∧ (skip_blank a = false
       ∨ ∃ v, (v ∈ elems truth0 ∨ v ∈ elems truth1) ∧ v ≠ 0).

End Generator.

(** ** Concrete instances, for running the embedding *)

(** Exact rational voxels. *)
Definition Arith_Q : Arith Q := {|
  vsub a b := Qred (a - b);
  vdiv a b := Qred (a / b);
  vminimum a b := if Qle_bool a b then a else b;
  vmaximum a b := if Qle_bool a b then b else a;
  veqb a b := Qeq_bool a b
|}.

(** Helpers that leave the arrays as they are. *)
Definition Externals_id : Externals Q unit := {|
  get_patch_from_3d_data T data _ _ := Ok data;
  augment_data data0 data1 truth0 truth1 _ _ _ _ :=
    mret (data0, truth0, data1, truth1);
  random_permutation_x_y data truth := mret (data, truth)
|}.

(** A data file with one row per subject: image, label map, identifier. *)
Definition table_file (rows : list (ndarray Q * ndarray Z * string))
    : data_file Q unit := {|
  root_data i :=
    match i with
    | Plain i => result_map (λ r, r.1.1) (getitem rows i)
    | Pair _ _ => Raise IndexError
    end;
  root_truth i c :=
    match i with
    | Plain i =>
        if c =? 0 then result_map (λ r, r.1.2) (getitem rows i)
        else Raise IndexError
    | Pair _ _ => Raise IndexError
    end;
  root_affine i :=
    match i with
    | Plain i => result_map (λ _, tt) (getitem rows i)
    | Pair _ _ => Raise IndexError
    end;
  root_subject_ids i :=
    match i with
    | Plain i => result_map (λ r, list_byte_of_string r.2) (getitem rows i)
    | Pair _ _ => Raise IndexError
    end
|}.

Definition cube (vs : list Q) : ndarray Q := mk_ndarray [2; 2; 2]%nat vs.
Definition cubeZ (vs : list Z) : ndarray Z := mk_ndarray [2; 2; 2]%nat vs.

Definition ramp : ndarray Q := cube [2; 3; 4; 5; 6; 7; 8; 10]%Q.
Definition lesion : ndarray Z := cubeZ [0; 0; 1; 0; 0; 2; 0; 0].
Definition blank : ndarray Z := cubeZ [0; 0; 0; 0; 0; 0; 0; 0].

(** Seven subjects of cohorts A, B and C, each with a lesion. *)
Definition seven_subjects : data_file Q unit :=
  table_file [
    (ramp, lesion, "s-0-A1"); (ramp, lesion, "s-1-A2");
    (ramp, lesion, "s-2-B1"); (ramp, lesion, "s-3-B2");
    (ramp, lesion, "s-4-C1"); (ramp, lesion, "s-5-C2");
    (ramp, lesion, "s-6-C3") ].

(** The same subjects with the cohort of the first one changed. *)
Definition seven_subjects_relabelled : data_file Q unit :=
  table_file [
    (ramp, lesion, "s-0-C1"); (ramp, lesion, "s-1-A2");
    (ramp, lesion, "s-2-B1"); (ramp, lesion, "s-3-B2");
    (ramp, lesion, "s-4-C1"); (ramp, lesion, "s-5-C2");
    (ramp, lesion, "s-6-C3") ].

(** Two subjects whose label maps are empty. *)
Definition blank_subjects : data_file Q unit :=
  table_file [ (ramp, blank, "t-0-A1"); (ramp, blank, "t-1-C1") ].

Definition quiet : sys := mk_sys [] (λ k, (7 * k + 3)%nat) ∅.

Definition empty_heap : heap Q := mk_heap quiet (mk_x [] []) (mk_y [] [] []).

Definition seven_args (n_labels : Z) : generator_args (voxel := Q) (affine := unit) :=
  mk_args seven_subjects seven_subjects
    (map Plain [0; 1; 2; 3; 4; 5; 6]) 3 n_labels None
    false true (Some (1 # 4)%Q) PatchNone 0 None false true false.

(** Subjects named as in the examples of the documentation, then one
    without a separator and one whose last piece is empty. *)
Definition named_subjects : data_file Q unit :=
  table_file [
    (ramp, lesion, "foo-bar-C1"); (ramp, lesion, "foo-bar-A2");
    (ramp, lesion, "foo-bar-B9"); (ramp, lesion, "foo-bar-Z1");
    (ramp, lesion, "C7"); (ramp, lesion, "foo-") ].

(** A subject whose image is a 2 x 2 x 3 block, not a cube. *)
Definition block_subject : data_file Q unit :=
  table_file [
    (mk_ndarray [2; 2; 3]%nat [1; 2; 3; 4; 5; 6; 7; 8; 9; 10; 11; 12]%Q,
     mk_ndarray [2; 2; 3]%nat [0; 0; 0; 0; 1; 0; 0; 0; 0; 0; 0; 0],
     "u-0-A1") ].

(** ** split_list *)

(** What [print] shows of a list of integers. *)
Definition repr_list (l : list Z) : string :=
  "[" +:+ String.concat ", " (map pretty l) +:+ "]".

(** The position a slice bound [n] stands for in [l]: negative bounds count
    from the end, and both kinds are clipped to the list. *)
Definition slice_bound {A} (l : list A) (n : Z) : nat :=
  let len := Z.of_nat (length l) in
  Z.to_nat (if n <? 0 then Z.max 0 (n + len) else Z.min n len).

(** [l[:n]] and [l[n:]] *)
Definition slice_to {A} (l : list A) (n : Z) : list A :=
  take (slice_bound l n) l.

Definition slice_from {A} (l : list A) (n : Z) : list A :=
  drop (slice_bound l n) l.

(** [shuffle(input_list)] on a list object that the caller still holds:
    the object is the second component of the state. *)
Definition shuffle_in_place : M (sys * list Z) unit :=
  λ st, match shuffle st.2 st.1 with
        | (s', Ok l') => ((s', l'), Ok tt)
        | (s', Raise e) => ((s', st.2), Raise e)
        end.

Definition read_list : M (sys * list Z) (list Z) :=
  λ st, (st, Ok st.2).

Definition print_line (line : string) : M (sys * list Z) unit :=
  zoom fst (λ s st, (s, st.2)) (print line).

Section SplitList.
Context {F : Type}.
(** [int(len(input_list) * split)] for a floating-point [split]: the
    arithmetic of floats is left to this parameter. *)
Variable int_of_product : nat → F → result Z.

Definition split_list (split : F) (shuffle_list : bool)
    : M (sys * list Z) (list Z * list Z) :=
  _ ← (if shuffle_list then shuffle_in_place else mret tt);
  input_list ← read_list;
  n_training ← lift_result (int_of_product (length input_list) split);
  let training := slice_to input_list n_training in
  let testing := slice_from input_list n_training in
  _ ← print_line (repr_list training);
  _ ← (raise RuntimeError : M (sys * list Z) unit);
  mret (training, testing).

End SplitList.

(** ** create_patch_index_list and get_number_of_patches *)

(** The helpers of [unet3d.utils.patches] that build the patch grid; their
    sources are not part of this module. *)
Class PatchExternals : Type := {
  compute_patch_indices :
    list nat → patch_shape_arg → Z → option (list Z) → result (list (list Z));
  get_random_nd_index : list Z → M sys (list Z)
}.

(** [shape[-3:]] *)
Definition last_three (dims : list nat) : list nat :=
  drop (length dims - 3) dims.

(** An open data file with the shape of its [data] table. *)
Record open_file (voxel affine : Type) : Type := mk_open_file {
  tables : data_file voxel affine;
  root_data_shape : list nat
}.
Arguments mk_open_file {voxel affine} tables root_data_shape.
Arguments tables {voxel affine} _.
Arguments root_data_shape {voxel affine} _.

Section Patches.
Context `{!PatchExternals}.

(** The body of the loop of [create_patch_index_list] for one index: the
    patch offsets of that subject. *)
Definition patches_of (image_shape : list nat) (patch_shape : patch_shape_arg)
    (patch_overlap : Z) (patch_start_offset : option (list Z))
    : M sys (list (list Z)) :=
  match patch_start_offset with
  | Some offset =>
      drawn ← get_random_nd_index offset;
      let random_start_offset := map Z.opp drawn in        (* np.negative *)
      lift_result (compute_patch_indices image_shape patch_shape patch_overlap
                                         (Some random_start_offset))
  | None =>
      lift_result (compute_patch_indices image_shape patch_shape patch_overlap
                                         None)
  end.

(** The loop of [create_patch_index_list], with [patch_index] as built so
    far; [itertools.product([index], patches)] pairs the index with each
    offset in turn. *)
Fixpoint patch_index_loop (index_list : list Z) (image_shape : list nat)
    (patch_shape : patch_shape_arg) (patch_overlap : Z)
    (patch_start_offset : option (list Z)) (patch_index : list index)
    : M sys (list index) :=
  match index_list with
  | [] => mret patch_index
  | index :: rest =>
      patches ← patches_of image_shape patch_shape patch_overlap
                           patch_start_offset;
      patch_index_loop rest image_shape patch_shape patch_overlap
                       patch_start_offset
                       (patch_index ++ map (Pair index) patches)
  end.

Definition create_patch_index_list (index_list : list Z)
    (image_shape : list nat) (patch_shape : patch_shape_arg)
    (patch_overlap : Z) (patch_start_offset : option (list Z))
    : M sys (list index) :=
  patch_index_loop index_list image_shape patch_shape patch_overlap
                   patch_start_offset [].

(** The call [add_data(x_list, y_list, data_file, index, skip_blank=...,
    patch_shape=...)] of [get_number_of_patches]: four positional arguments
    for the five parameters of [add_data] that have no default, so binding
    the arguments fails before the body runs.  What it would return is the
    [x_list] it was given. *)
Definition add_data_without_index {voxel} : M sys (list (ndarray voxel)) :=
  raise TypeError.

(** The counting loop of [get_number_of_patches]. *)
Fixpoint count_loop {voxel} (index_list : list index) (count : Z) : M sys Z :=
  match index_list with
  | [] => mret count
  | index :: rest =>
      x_list ← add_data_without_index (voxel := voxel);
      count_loop (voxel := voxel) rest
        (if (0 <? length x_list)%nat then count + 1 else count)
  end.

Definition get_number_of_patches {voxel affine}
    (data_file : open_file voxel affine) (index_list : list Z)
    (patch_shape : patch_shape_arg) (patch_overlap : Z)
    (patch_start_offset : option (list Z)) (skip_blank : bool) : M sys Z :=
  if truthy patch_shape then
    index_list ← create_patch_index_list index_list
                   (last_three (root_data_shape data_file)) patch_shape
                   patch_overlap patch_start_offset;
    count_loop (voxel := voxel) index_list 0
  else mret (Z.of_nat (length index_list)).

(** ** get_training_and_validation_generators *)

(** [print(text, n)]: the two arguments with a space between them. *)
Definition print_count (text : string) (n : Z) : M sys unit :=
  print (text +:+ " " +:+ pretty n).

(** The two generators are returned before anything of them runs: each is
    given by the arguments [data_generator] was called with. *)
Definition get_training_and_validation_generators {voxel affine}
    (data_file0 data_file1 : open_file voxel affine)
    (batch_size n_labels : Z)
    (training_keys_file validation_keys_file : string)
    (data_split : Q) (overwrite : bool) (labels : option (list Z))
    (augment augment_flip : bool) (augment_distortion_factor : option Q)
    (patch_shape : patch_shape_arg) (validation_patch_overlap : Z)
    (training_patch_start_offset : option (list Z))
    (validation_batch_size : option Z) (skip_blank permute : bool)
    : M sys (generator_args (voxel := voxel) (affine := affine)
             * generator_args (voxel := voxel) (affine := affine) * Z * Z) :=
  let validation_batch_size :=
    match validation_batch_size with
    | Some size => if size =? 0 then batch_size else size
    | None => batch_size
    end in
  '(training_list, validation_list) ←
    get_validation_split data_file0 training_keys_file validation_keys_file
                         data_split overwrite;
  let training_generator :=
    mk_args (tables data_file0) (tables data_file1) (map Plain training_list)
            batch_size n_labels labels augment augment_flip
            augment_distortion_factor patch_shape 0
            training_patch_start_offset true skip_blank permute in
  let validation_generator :=
    mk_args (tables data_file0) (tables data_file1) (map Plain validation_list)
            validation_batch_size n_labels labels false true (Some (1 # 4)%Q)
            patch_shape validation_patch_overlap None false skip_blank false in
  n_training ← get_number_of_patches data_file0 training_list patch_shape 0
                                     training_patch_start_offset skip_blank;
  num_training_steps ← lift_result (get_number_of_steps n_training batch_size);
  _ ← print_count "Number of training steps: " num_training_steps;
  n_validation ← get_number_of_patches data_file0 validation_list patch_shape
                                       validation_patch_overlap None skip_blank;
  num_validation_steps ←
    lift_result (get_number_of_steps n_validation validation_batch_size);
  _ ← print_count "Number of validation steps: " num_validation_steps;
  mret (training_generator, validation_generator,
        num_training_steps, num_validation_steps).

End Patches.

(** ** Further predicates and instances for the statements *)

(** The sizes of the batches of one epoch over [n] samples. *)
Definition epoch_sizes (n size : nat) : list nat :=
  replicate (n / size) size
  ++ (if (n mod size =? 0)%nat then [] else [(n mod size)%nat]).

Section Dropped.
Context {voxel affine : Type} `{!Externals voxel affine}.

(** Both files hold a sample at [index] with one label, and its two label
    maps are zero everywhere. *)
Definition blank_at (a : generator_args (voxel := voxel) (affine := affine))
    (index : index) : Prop :=
  ∃ data0 truth0 data1 truth1 label s,
    get_data_from_file (data_file0 a) index (patch_shape a) s
      = (s, Ok (data0, truth0, label))
    ∧ get_data_from_file (data_file1 a) index (patch_shape a) s
      = (s, Ok (data1, truth1, label))
    ∧ (∀ v, v ∈ elems truth0 ∨ v ∈ elems truth1 → v = 0).

End Dropped.

(** Truncation of an exact product, standing in for [int(n * split)]. *)
Definition int_of_product_Q (n : nat) (split : Q) : result Z :=
  Ok (Z.quot (Z.of_nat n * Qnum split) (Z.pos (Qden split))).

(** A grid of four offsets, shifted by the start offset when one is given;
    random offsets are drawn axis by axis. *)
Fixpoint draw_offsets (bounds : list Z) : M sys (list Z) :=
  match bounds with
  | [] => mret []
  | bound :: rest =>
      j ← randbelow (Z.to_nat bound);
      more ← draw_offsets rest;
      mret (Z.of_nat j :: more)
  end.

Definition Patches_grid : PatchExternals := {|
  compute_patch_indices _ _ _ start :=
    let shift := match start with
                 | Some offsets => offsets
                 | None => [0; 0; 0]
                 end in
    Ok (map (λ p, zip_with Z.add p shift)
            [[0; 0; 0]; [0; 0; 1]; [0; 1; 0]; [0; 1; 1]]);
  get_random_nd_index := draw_offsets
|}.

(** A helper that finds no patch at all. *)
Definition Patches_none : PatchExternals := {|
  compute_patch_indices _ _ _ _ := Ok [];
  get_random_nd_index := draw_offsets
|}.

Definition seven_open : open_file Q unit :=
  mk_open_file seven_subjects [7; 2; 2; 2]%nat.

Definition blank_args : generator_args (voxel := Q) (affine := unit) :=
  mk_args blank_subjects blank_subjects (map Plain [0; 1]) 3 1 None
    false true (Some (1 # 4)%Q) PatchNone 0 None false true false.

(** The subject an index refers to. *)
Definition subject_of (i : index) : Z :=
  match i with
  | Plain i => i
  | Pair i _ => i
  end.

(** A computation that leaves both accumulators as they were. *)
Definition keeps_lists {voxel A} (m : M (heap voxel) A) : Prop :=
  ∀ h h' r, m h = (h', r) →
    x_list h' = x_list h ∧ y_list h' = y_list h.

(** A computation that leaves both accumulators as they were, or returns
    after adding one entry to each of the five lists, [label] to the list
    of labels. *)
Definition appends_or_keeps {voxel} (label : Z) (m : M (heap voxel) unit)
    : Prop :=
  ∀ h h' r, m h = (h', r) →
    (x_list h' = x_list h ∧ y_list h' = y_list h)
    ∨ (r = Ok tt
       ∧ ∃ data0 data1 truth0 truth1,
           x_list h' = mk_x (x_0 (x_list h) ++ [data0])
                            (x_1 (x_list h) ++ [data1])
           ∧ y_list h' = mk_y (y_0 (y_list h) ++ [label])
                              (y_1 (y_list h) ++ [truth0])
                              (y_2 (y_list h) ++ [truth1])).

(** ** Binary32 voxels *)

(** The arithmetic is that of the Standard Library's [SpecFloat] at
    precision 24 and [emax] 128: [SFsub], [SFdiv], [SFleb], [SFeqb].
    [rne], [units] and [nearest32] describe what it computes, for the
    proofs. *)

(** Rounding [m / 2 ^ n] to the nearest integer, ties to even. *)
Definition rne (m n : Z) : Z :=
  let q := m / 2 ^ n in
  let r := m mod 2 ^ n in
  let h := 2 ^ (n - 1) in
  if r <? h then q
  else if h <? r then q + 1
  else if Z.even q then q else q + 1.

(** The value of a finite binary32 number, in units of [2 ^ -149]. *)
Definition units (x : spec_float) : Z :=
  match x with
  | S754_finite s m e => cond_Zopp s (Z.pos m * 2 ^ (e + 149))
  | _ => 0
  end.

(** Neither an infinity nor a NaN. *)
Definition finite32 (x : spec_float) : bool :=
  match x with
  | S754_zero _ | S754_finite _ _ _ => true
  | _ => false
  end.

(** A zero or a finite number in canonical form. *)
Definition proper32 (x : spec_float) : bool :=
  valid_binary 24 128 x && finite32 x.

(** The binary32 number nearest to [N] units, for [N > 0]. *)
Definition nearest32 (N : Z) : spec_float :=
  if N <? 2 ^ 24 then S754_finite false (Z.to_pos N) (-149)
  else
    let k := Zdigits2 N - 24 in
    let q := rne N k in
    let m := if q =? 2 ^ 24 then 2 ^ 23 else q in
    let e := if q =? 2 ^ 24 then k - 148 else k - 149 in
    if e <=? 104 then S754_finite false (Z.to_pos m) e
    else S754_infinity false.

(** The value of the nearest number, and when it is finite. *)
Definition nearest_units (N : Z) : Z :=
  if N <? 2 ^ 24 then N
  else let k := Zdigits2 N - 24 in rne N k * 2 ^ k.

Definition nearest_exponent (N : Z) : Z :=
  if N <? 2 ^ 24 then -149
  else let k := Zdigits2 N - 24 in
       if rne N k =? 2 ^ 24 then k - 148 else k - 149.

(** [+0] and 1 in binary32. *)
Definition zero32 : spec_float := S754_zero false.
Definition one32 : spec_float := S754_finite false 8388608 (-23).

(** [np.isnan] *)
Definition is_nan (x : spec_float) : bool :=
  match x with S754_nan => true | _ => false end.

(** IEEE binary32 voxels: subtraction and division round to nearest, ties
    to even; [min] and [max] reduce with numpy's [minimum] and [maximum],
    which keep the first operand when it compares below (above) or equal
    or is a NaN; [==] is the IEEE equality. *)
Definition Arith_binary32 : Arith spec_float := {|
  vsub := SFsub 24 128;
  vdiv := SFdiv 24 128;
  vminimum a b := if SFleb a b || is_nan a then a else b;
  vmaximum a b := if SFleb b a || is_nan a then a else b;
  veqb := SFeqb
|}.

(** [np.float32(z)] for an integer [z]. *)
Definition float32_of_Z (z : Z) : spec_float :=
  binary_normalize 24 128 z 0 false.

(** The largest finite binary32 number. *)
Definition max32 : spec_float := S754_finite false 16777215 104.

(** The volume with values from 2 to 10, in binary32. *)
Definition ramp32 : ndarray spec_float :=
  mk_ndarray [2; 2; 2]%nat (map float32_of_Z [2; 3; 4; 5; 6; 7; 8; 10]).

(** A volume that spans the whole finite range, and a constant infinite one. *)
Definition wide32 : ndarray spec_float :=
  mk_ndarray [1; 1; 3]%nat [SFopp max32; zero32; max32].
Definition infinite32 : ndarray spec_float :=
  mk_ndarray [1; 1; 2]%nat [S754_infinity false; S754_infinity false].

(** ** A subject with an empty image *)

(** An image array of shape (0, 2, 2): it has no voxel. *)
Definition hollow : ndarray Q := mk_ndarray [0; 2; 2]%nat [].

Definition hollow_subjects : data_file Q unit :=
  table_file [ (hollow, lesion, "h-0-C1") ].

(** * Properties *)

(** ** Lists: swapping and shuffling *)

Lemma swap_Permutation {A} (x : list A) (i j : nat) (xi xj : A) :
  x !! i = Some xi → x !! j = Some xj →
  <[j := xi]> (<[i := xj]> x) ≡ₚ x.
Proof.
  intros Hi Hj.
  destruct (decide (i = j)) as [->|Hne].
  - assert (xi = xj) as -> by congruence.
    rewrite list_insert_insert_eq. by rewrite list_insert_id.
  - pose proof (lookup_lt_Some _ _ _ Hi) as Hli.
    pose proof (lookup_lt_Some _ _ _ Hj) as Hlj.
    set (y := <[i := xj]> x).
    assert (Hyi : y !! i = Some xj) by (by apply list_lookup_insert_eq).
    assert (Hyj : y !! j = Some xj).
    { unfold y. by rewrite list_lookup_insert_ne. }
    assert (Hdel : delete j y ≡ₚ delete i x).
    { apply (Permutation_cons_inv (a := xj)).
      rewrite <- (delete_Permutation y j xj Hyj).
      rewrite (delete_Permutation y i xj Hyi).
      f_equiv. unfold y.
      rewrite !delete_take_drop, take_insert_ge, drop_insert_lt by lia.
      done. }
    assert (Hz : <[j := xi]> y !! j = Some xi).
    { apply list_lookup_insert_eq. unfold y. by rewrite length_insert. }
    rewrite (delete_Permutation _ j xi Hz).
    rewrite (delete_Permutation x i xi Hi).
    f_equiv. rewrite <- Hdel.
    rewrite !delete_take_drop, take_insert_ge, drop_insert_lt by lia.
    done.
Qed.

Lemma swap_Ok {A} (x : list A) (i j : nat) :
  (i < length x)%nat → (j < length x)%nat →
  ∃ x', swap x i j = Ok x' ∧ x' ≡ₚ x ∧ length x' = length x.
Proof.
  intros Hi Hj.
  destruct (lookup_lt_is_Some_2 x i Hi) as [xi Hxi].
  destruct (lookup_lt_is_Some_2 x j Hj) as [xj Hxj].
  exists (<[j := xi]> (<[i := xj]> x)). unfold swap. rewrite Hxi, Hxj.
  split; [done|]. split.
  - by apply swap_Permutation.
  - by rewrite !length_insert.
Qed.

(** The shuffle always returns, with a rearrangement of its argument; it
    neither prints nor touches the files. *)
Lemma shuffle_loop_spec {A} (i : nat) :
  ∀ (x : list A) (s : sys), (i < length x ∨ i = 0)%nat →
  ∃ x' s', shuffle_loop i x s = (s', Ok x') ∧ x' ≡ₚ x
           ∧ stdout s' = stdout s ∧ files s' = files s.
Proof.
  induction i as [|i IH]; intros x s Hi.
  - exists x, s. done.
  - assert (Hlen : (S i < length x)%nat) by lia.
    set (j := Nat.modulo (rand s O) (S (S i))).
    assert (Hj : (j < length x)%nat).
    { pose proof (Nat.mod_upper_bound (rand s O) (S (S i))). lia. }
    destruct (swap_Ok x (S i) j Hlen Hj) as (x1 & Hswap & Hperm & Hl).
    destruct (IH x1 (mk_sys (stdout s) (λ k, rand s (S k)) (files s)))
      as (x' & s' & Hrun & Hperm' & Hout & Hfiles); [lia|].
    exists x', s'. split; [|split; [by rewrite Hperm'|done]].
    cbn [shuffle_loop]. unfold mbind, M_bind, randbelow, lift_result.
    fold j. rewrite Hswap. exact Hrun.
Qed.

Lemma shuffle_spec {A} (x : list A) (s : sys) :
  ∃ x' s', shuffle x s = (s', Ok x') ∧ x' ≡ₚ x
           ∧ stdout s' = stdout s ∧ files s' = files s.
Proof.
  apply shuffle_loop_spec. destruct x; simpl; lia.
Qed.

(** ** The step calculator *)

(** C2: for a non-negative sample count and a positive batch size,
    [get_number_of_steps] returns the sample count itself when it does not
    exceed the batch size; otherwise the quotient when the batch size
    divides the count, and the quotient plus one when it does not.  In
    particular 10 samples in batches of 3 take 4 steps and 9 take 3. *)
Theorem get_number_of_steps_spec (n_samples batch_size : Z) :
  0 ≤ n_samples → 0 < batch_size →
  (n_samples ≤ batch_size →
     get_number_of_steps n_samples batch_size = Ok n_samples)
  ∧ (batch_size < n_samples → (batch_size | n_samples) →
     get_number_of_steps n_samples batch_size = Ok (n_samples / batch_size))
  ∧ (batch_size < n_samples → ¬ (batch_size | n_samples) →
     get_number_of_steps n_samples batch_size
       = Ok (n_samples / batch_size + 1))
  ∧ get_number_of_steps 10 3 = Ok 4
  ∧ get_number_of_steps 9 3 = Ok 3.
Proof.
  intros Hn Hb. unfold get_number_of_steps, np_remainder, floordiv.
  assert (Hb0 : (batch_size =? 0) = false) by (apply Z.eqb_neq; lia).
  rewrite Hb0. repeat split.
  - intros Hle. apply Z.leb_le in Hle. by rewrite Hle.
  - intros Hlt Hdiv. apply Z.leb_gt in Hlt. rewrite Hlt.
    apply Z.mod_divide in Hdiv; [|lia]. apply Z.eqb_eq in Hdiv.
    by rewrite Hdiv.
  - intros Hlt Hndiv. apply Z.leb_gt in Hlt. rewrite Hlt.
    destruct (n_samples mod batch_size =? 0) eqn:Hmod; [|done].
    apply Z.eqb_eq in Hmod. exfalso. apply Hndiv.
    apply Z.mod_divide; [lia|done].
Qed.

Lemma get_number_of_steps_spec_witness :
  0 ≤ 7 ∧ 0 < 2 ∧ get_number_of_steps 7 2 = Ok (7 / 2 + 1).
Proof.
  split; [lia|]. split; [lia|].
  destruct (get_number_of_steps_spec 7 2 ltac:(lia) ltac:(lia))
    as (_ & _ & Hceil & _).
  apply Hceil; [lia|]. intros [k Hk]. lia.
Defined.

(** In the remaining case the result is the ceiling of the quotient. *)
Lemma get_number_of_steps_ceiling (n_samples batch_size steps : Z) :
  0 < batch_size → batch_size < n_samples →
  get_number_of_steps n_samples batch_size = Ok steps →
  batch_size * (steps - 1) < n_samples ≤ batch_size * steps.
Proof.
  intros Hb Hlt. unfold get_number_of_steps, np_remainder, floordiv.
  assert (Hb0 : (batch_size =? 0) = false) by (apply Z.eqb_neq; lia).
  apply Z.leb_gt in Hlt as Hlt'. rewrite Hlt', Hb0.
  pose proof (Z.div_mod n_samples batch_size ltac:(lia)) as Hdm.
  pose proof (Z.mod_pos_bound n_samples batch_size Hb) as Hbound.
  destruct (n_samples mod batch_size =? 0) eqn:Hmod; intros [= <-].
  - apply Z.eqb_eq in Hmod. nia.
  - apply Z.eqb_neq in Hmod. nia.
Qed.

(** ** The validation split *)

(** C1: when the split is created (overwrite set, or no training file
    yet), [get_validation_split] returns the validation list
    [10..29] + [52..71] + [249..268] in that order, and a training list
    that is a rearrangement of [0..9] + [30..41] + [42..51] + [72..238]
    + [238] + five copies of [239..248] + five copies of [269..298]; the
    value of [data_split] makes no difference. *)
Theorem get_validation_split_creates {D} (data_file : D)
    (training_file validation_file : string) (data_split : Q)
    (overwrite : bool) (s : sys) :
  overwrite = true ∨ files s !! training_file = None →
  ∃ training_list s',
    get_validation_split data_file training_file validation_file
                         data_split overwrite s
      = (s', Ok (training_list, seqZ 10 20 ++ seqZ 52 20 ++ seqZ 249 20))
    ∧ training_list ≡ₚ
        seqZ 0 10 ++ seqZ 30 12 ++ seqZ 42 10 ++ seqZ 72 167 ++ [238]
          ++ mjoin (replicate 5 (seqZ 239 10))
          ++ mjoin (replicate 5 (seqZ 269 30))
    ∧ ∀ data_split',
        get_validation_split data_file training_file validation_file
                             data_split' overwrite s
        = get_validation_split data_file training_file validation_file
                               data_split overwrite s.
Proof.
  intros Hcreate.
  assert (Hcond : overwrite
                  || negb (bool_decide (is_Some (files s !! training_file)))
                  = true).
  { destruct Hcreate as [->|Hnone]; [done|].
    rewrite Hnone. rewrite bool_decide_eq_false_2; [by destruct overwrite|].
    by intros [? ?]. }
  unfold get_validation_split.
  cbv beta iota zeta delta [mbind M_bind path_exists].
  rewrite Hcond.
  assert (Hlast : getitem (range 72 239) (-1) = Ok 238) by (by vm_compute).
  cbv beta iota zeta delta [print lift_result]. rewrite Hlast.
  match goal with
  | |- context [shuffle ?l ?s0] =>
      destruct (shuffle_spec l s0) as (training & s1 & Hrun & Hperm & _ & _);
      rewrite Hrun
  end.
  eexists training, _. split; [|split].
  - cbv beta iota zeta delta [pickle_dump mret M_ret]. reflexivity.
  - rewrite Hperm. by vm_compute.
  - reflexivity.
Qed.

Lemma get_validation_split_creates_witness :
  files quiet !! "training.pkl" = None
  ∧ ∃ training_list s',
      get_validation_split tt "training.pkl" "validation.pkl" (4 # 5)%Q
                           false quiet
        = (s', Ok (training_list, seqZ 10 20 ++ seqZ 52 20 ++ seqZ 249 20))
      ∧ length training_list = 400%nat.
Proof.
  split; [reflexivity|].
  destruct (get_validation_split_creates tt "training.pkl" "validation.pkl"
              (4 # 5)%Q false quiet (or_intror eq_refl))
    as (training_list & s' & Hrun & Hperm & _).
  exists training_list, s'. split; [exact Hrun|].
  rewrite (Permutation_length Hperm). reflexivity.
Defined.

(** ** Indexing and splitting *)

Lemma getitem_last {A} (l : list A) :
  getitem l (-1) = match last l with
                   | Some a => Ok a
                   | None => Raise IndexError
                   end.
Proof.
  unfold getitem. rewrite last_lookup.
  destruct l as [|a l]; [done|].
  change (-1 <? 0) with true. cbv iota.
  set (n := Z.of_nat (length (a :: l))).
  assert (Hn : 0 < n) by (unfold n; simpl; lia).
  assert (H1 : (-1 + n <? 0) = false) by (apply Z.ltb_ge; lia).
  assert (H2 : (n <=? -1 + n) = false) by (apply Z.leb_gt; lia).
  rewrite H1, H2. cbn [orb].
  replace (Z.to_nat (-1 + n)) with (Nat.pred (length (a :: l)))
    by (unfold n; simpl; lia).
  done.
Qed.

Lemma getitem_first {A} (l : list A) :
  getitem l 0 = match l with
                | a :: _ => Ok a
                | [] => Raise IndexError
                end.
Proof.
  unfold getitem. destruct l as [|a l]; [done|].
  change (0 <? 0) with false. cbv iota.
  assert (H : (Z.of_nat (length (a :: l)) <=? 0) = false)
    by (apply Z.leb_gt; simpl; lia).
  rewrite H. done.
Qed.

Lemma split_nonempty (s : str) (sep : N) : split s sep ≠ [].
Proof.
  destruct s as [|c s]; simpl; [done|].
  destruct (c =? sep)%N; [done|]. by destruct (split s sep).
Qed.

(** Without a separator the text is the only piece. *)
Lemma split_no_separator (s : str) (sep : N) : sep ∉ s → split s sep = [s].
Proof.
  induction s as [|c s IH]; intros Hnot; [done|].
  simpl. apply not_elem_of_cons in Hnot as [Hne Hnot].
  assert (Hc : (c =? sep)%N = false) by (apply N.eqb_neq; congruence).
  rewrite Hc, (IH Hnot). done.
Qed.

(** ** Reading a record *)

Section Reading.
Context {voxel affine : Type} `{!Externals voxel affine}.
Implicit Types (f : data_file voxel affine) (s : sys).

(** What the whole-volume read returns once the tables have answered and
    the first character of the last piece is known. *)
Lemma get_whole_data_from_file_character f index x y ids text piece c s :
  root_data f index = Ok x →
  root_truth f index 0 = Ok y →
  root_subject_ids f index = Ok ids →
  bytes_decode ids = Ok text →
  last (split text (ord "-")) = Some piece →
  piece = c :: drop 1 piece →
  get_whole_data_from_file f index s =
    if decide (c = ord "C") then (s, Ok (x, y, 1))
    else if decide (c = ord "A" ∨ c = ord "B") then (s, Ok (x, y, 0))
    else (mk_sys (stdout s ++ ["not A or B, C !!!"]) (rand s) (files s),
          Raise RuntimeError).
Proof.
  intros Hx Hy Hids Htext Hlast Hpiece.
  unfold get_whole_data_from_file.
  cbv beta iota zeta delta [mbind M_bind lift_result].
  rewrite Hx, Hy, Hids, Htext, getitem_last, Hlast, getitem_first, Hpiece.
  destruct (decide (c = ord "C")) as [->|HC]; [done|].
  apply N.eqb_neq in HC as HC'. rewrite HC'.
  destruct (decide (c = ord "A" ∨ c = ord "B")) as [[->| ->]|HAB]; [done..|].
  assert (HA : (c =? ord "A")%N = false) by (apply N.eqb_neq; tauto).
  assert (HB : (c =? ord "B")%N = false) by (apply N.eqb_neq; tauto).
  rewrite HA, HB. done.
Qed.

(** C3: a whole-volume read decodes the identifier, splits it on '-',
    takes the first character of the last piece and returns the image,
    the label map and the derived label: 1 for 'C', 0 for 'A' or 'B';
    for any other character it prints its diagnostic and raises. *)
Theorem get_data_from_file_label f index patch_shape x y ids text c rest s :
  truthy patch_shape = false →
  root_data f index = Ok x →
  root_truth f index 0 = Ok y →
  root_subject_ids f index = Ok ids →
  bytes_decode ids = Ok text →
  last (split text (ord "-")) = Some (c :: rest) →
  (c = ord "C" →
     get_data_from_file f index patch_shape s = (s, Ok (x, y, 1)))
  ∧ (c = ord "A" ∨ c = ord "B" →
     get_data_from_file f index patch_shape s = (s, Ok (x, y, 0)))
  ∧ (c ≠ ord "C" → c ≠ ord "A" → c ≠ ord "B" →
     get_data_from_file f index patch_shape s
       = (mk_sys (stdout s ++ ["not A or B, C !!!"]) (rand s) (files s),
          Raise RuntimeError)).
Proof.
  intros Hwhole Hx Hy Hids Htext Hlast.
  unfold get_data_from_file. rewrite Hwhole.
  rewrite (get_whole_data_from_file_character f index x y ids text
             (c :: rest) c s Hx Hy Hids Htext Hlast eq_refl).
  repeat split.
  - intros ->. done.
  - intros [-> | ->]; done.
  - intros HC HA HB. rewrite decide_False by done.
    rewrite decide_False by tauto. done.
Qed.

(** C10: an identifier without '-' is its own last piece, so the label
    comes from its first character in the same way; the missing
    separator is no error. *)
Theorem get_data_from_file_no_separator
    f index patch_shape x y ids text c rest s :
  truthy patch_shape = false →
  root_data f index = Ok x →
  root_truth f index 0 = Ok y →
  root_subject_ids f index = Ok ids →
  bytes_decode ids = Ok text →
  ord "-" ∉ text →
  text = c :: rest →
  split text (ord "-") = [text]
  ∧ (c = ord "C" →
     get_data_from_file f index patch_shape s = (s, Ok (x, y, 1)))
  ∧ (c = ord "A" ∨ c = ord "B" →
     get_data_from_file f index patch_shape s = (s, Ok (x, y, 0)))
  ∧ (c ≠ ord "C" → c ≠ ord "A" → c ≠ ord "B" →
     get_data_from_file f index patch_shape s
       = (mk_sys (stdout s ++ ["not A or B, C !!!"]) (rand s) (files s),
          Raise RuntimeError)).
Proof.
  intros Hwhole Hx Hy Hids Htext Hnosep ->.
  pose proof (split_no_separator _ _ Hnosep) as Hsplit.
  split; [exact Hsplit|].
  unfold get_data_from_file. rewrite Hwhole.
  rewrite (get_whole_data_from_file_character f index x y ids (c :: rest)
             (c :: rest) c s Hx Hy Hids Htext);
    [|by rewrite Hsplit|done].
  repeat split.
  - intros ->. done.
  - intros [-> | ->]; done.
  - intros HC HA HB. rewrite decide_False by done.
    rewrite decide_False by tauto. done.
Qed.

(** An empty last piece has no first character: the read raises
    [IndexError] and prints nothing. *)
Lemma get_data_from_file_empty_piece f index x y ids text s :
  root_data f index = Ok x →
  root_truth f index 0 = Ok y →
  root_subject_ids f index = Ok ids →
  bytes_decode ids = Ok text →
  last (split text (ord "-")) = Some [] →
  get_data_from_file f index PatchNone s = (s, Raise IndexError).
Proof.
  intros Hx Hy Hids Htext Hlast.
  unfold get_data_from_file, get_whole_data_from_file.
  cbv beta iota zeta delta [truthy mbind M_bind lift_result].
  rewrite Hx, Hy, Hids, Htext, getitem_last, Hlast, getitem_first. done.
Qed.

(** With a patch shape the read never returns: the tuple of three that
    the inner read returns is unpacked into two names. *)
Lemma get_data_from_file_patch f i patch_index dims s s' r :
  dims ≠ [] →
  get_data_from_file f (Pair i patch_index) (PatchShape dims) s = (s', r) →
  ∃ e, r = Raise e.
Proof.
  intros Hdims. unfold get_data_from_file.
  destruct dims as [|d dims]; [done|].
  cbv beta iota zeta delta [truthy unpack_index mbind M_bind lift_result
                            unpack_2_of_3 raise].
  destruct (get_whole_data_from_file f (Plain i) s) as [s1 [whole|e]];
    intros [= <- <-]; eauto.
Qed.

(** A read that returns has left the console alone, and returns the
    same whatever the process state. *)
Lemma get_data_from_file_Ok_pure f index patch_shape s s' r :
  get_data_from_file f index patch_shape s = (s', Ok r) →
  ∀ s2, get_data_from_file f index patch_shape s2 = (s2, Ok r).
Proof.
  unfold get_data_from_file. destruct (truthy patch_shape).
  - cbv beta iota zeta delta [mbind M_bind lift_result unpack_2_of_3 raise].
    destruct (unpack_index index) as [[i p]|e]; [|done].
    destruct (get_whole_data_from_file f i s) as [s1 [whole|e]]; done.
  - unfold get_whole_data_from_file.
    cbv beta iota zeta delta [mbind M_bind lift_result raise print].
    destruct (root_data f index) as [x|e]; [|done].
    destruct (root_truth f index 0) as [y|e]; [|done].
    destruct (root_subject_ids f index) as [ids|e]; [|done].
    destruct (bytes_decode ids) as [text|e]; [|done].
    destruct (getitem (split text (ord "-")) (-1)) as [piece|e]; [|done].
    destruct (getitem piece 0) as [c|e]; [|done].
    destruct (c =? ord "C")%N; [by intros [= -> <-]|].
    destruct ((c =? ord "A") || (c =? ord "B"))%N; [by intros [= -> <-]|].
    done.
Qed.

End Reading.

Example label_C : ∀ s,
  get_data_from_file (Externals0 := Externals_id) named_subjects (Plain 0)
                     PatchNone s = (s, Ok (ramp, lesion, 1)).
Proof. reflexivity. Qed.

Example label_A : ∀ s,
  get_data_from_file (Externals0 := Externals_id) named_subjects (Plain 1)
                     PatchNone s = (s, Ok (ramp, lesion, 0)).
Proof. reflexivity. Qed.

Example label_B : ∀ s,
  get_data_from_file (Externals0 := Externals_id) named_subjects (Plain 2)
                     PatchNone s = (s, Ok (ramp, lesion, 0)).
Proof. reflexivity. Qed.

Example label_Z : ∀ s,
  get_data_from_file (Externals0 := Externals_id) named_subjects (Plain 3)
                     PatchNone s
  = (mk_sys (stdout s ++ ["not A or B, C !!!"]) (rand s) (files s),
     Raise RuntimeError).
Proof. reflexivity. Qed.

Example label_empty_piece : ∀ s,
  get_data_from_file (Externals0 := Externals_id) named_subjects (Plain 5)
                     PatchNone s = (s, Raise IndexError).
Proof. reflexivity. Qed.

Lemma get_data_from_file_label_witness :
  last (split (str_of "foo-bar-C1") (ord "-")) = Some (str_of "C1")
  ∧ get_data_from_file (Externals0 := Externals_id) named_subjects (Plain 0)
                       PatchNone quiet = (quiet, Ok (ramp, lesion, 1)).
Proof.
  split; [reflexivity|].
  apply (proj1 (get_data_from_file_label (Externals0 := Externals_id)
                  named_subjects (Plain 0) PatchNone ramp lesion
                  (list_byte_of_string "foo-bar-C1") (str_of "foo-bar-C1")
                  (ord "C") (str_of "1") quiet
                  eq_refl eq_refl eq_refl eq_refl eq_refl eq_refl)).
  reflexivity.
Defined.

Lemma get_data_from_file_no_separator_witness :
  (ord "-" ∉ str_of "C7")
  ∧ get_data_from_file (Externals0 := Externals_id) named_subjects (Plain 4)
                       PatchNone quiet = (quiet, Ok (ramp, lesion, 1)).
Proof.
  assert (Hnot : ord "-" ∉ str_of "C7").
  { intros Hin. apply list_elem_of_In in Hin. vm_compute in Hin.
    intuition discriminate. }
  split; [exact Hnot|].
  destruct (get_data_from_file_no_separator (Externals0 := Externals_id)
              named_subjects (Plain 4) PatchNone ramp lesion
              (list_byte_of_string "C7") (str_of "C7")
              (ord "C") (str_of "7") quiet
              eq_refl eq_refl eq_refl eq_refl eq_refl Hnot eq_refl)
    as (_ & HC & _).
  apply HC. reflexivity.
Defined.

(** ** Loading one sample *)

Lemma any_nonzero_true (a : ndarray Z) :
  any_nonzero a = true ↔ ∃ v, v ∈ elems a ∧ v ≠ 0.
Proof.
  unfold any_nonzero. rewrite existsb_exists. split.
  - intros (v & Hin & Hv). exists v. split; [by apply list_elem_of_In|].
    apply negb_true_iff, Z.eqb_neq in Hv. done.
  - intros (v & Hin & Hv). exists v. split; [by apply list_elem_of_In|].
    by apply negb_true_iff, Z.eqb_neq.
Qed.

Lemma any_nonzero_false (a : ndarray Z) :
  any_nonzero a = false ↔ ∀ v, v ∈ elems a → v = 0.
Proof.
  rewrite <- not_true_iff_false, any_nonzero_true. split.
  - intros Hnone v Hin. destruct (decide (v = 0)); [done|].
    exfalso. apply Hnone. eauto.
  - intros Hall (v & Hin & Hv). auto.
Qed.

Lemma any_nonzero_newaxis (a : ndarray Z) :
  any_nonzero (newaxis a) = any_nonzero a.
Proof. reflexivity. Qed.

Section Loading.
Context {voxel affine : Type} `{!Arith voxel} `{!Externals voxel affine}.
Implicit Types (f : data_file voxel affine) (h : heap voxel) (s : sys).

(** A volume with at least one voxel is rescaled to one of its shape. *)
Lemma normalise_Ok (data : ndarray voxel) :
  elems data ≠ [] →
  ∃ scaled, normalise data = Ok scaled
            ∧ shape scaled = shape data
            ∧ length (elems scaled) = length (elems data).
Proof.
  intros Hne. unfold normalise, amin, amax.
  destruct (elems data) as [|v vs] eqn:Hel; [done|].
  destruct (veqb _ _); eexists; (split; [reflexivity|]); split; try done;
    cbn [arr_sub arr_div_scalar arr_sub_scalar elems shape].
  - rewrite Hel, length_zip_with. lia.
  - rewrite Hel, !length_map. done.
Qed.

(** C7: when the two reads of an index derive different labels,
    [add_data] prints its three diagnostic lines and raises, and both
    accumulators are as they were. *)
Theorem add_data_label_mismatch f0 f1 index augment augment_flip factor
    patch_shape skip_blank permute h s1 s2 data0 truth0 label0
    data1 truth1 label1 :
  get_data_from_file f0 index patch_shape (process h)
    = (s1, Ok (data0, truth0, label0)) →
  get_data_from_file f1 index patch_shape s1
    = (s2, Ok (data1, truth1, label1)) →
  label0 ≠ label1 →
  add_data f0 f1 index augment augment_flip factor patch_shape
           skip_blank permute h
  = (mk_heap
       (mk_sys (stdout s2 ++ ["label0 and label1 not equal !!!";
                              pretty label0; pretty label1])
               (rand s2) (files s2))
       (x_list h) (y_list h),
     Raise RuntimeError).
Proof.
  intros Hread0 Hread1 Hne.
  unfold add_data.
  cbv beta iota zeta delta [mbind M_bind in_sys zoom].
  rewrite Hread0. cbn [process x_list y_list].
  rewrite Hread1. cbn [process x_list y_list].
  apply Z.eqb_neq in Hne. rewrite Hne. cbn [negb].
  cbv beta iota zeta delta [print raise process x_list y_list stdout rand files].
  rewrite <- !app_assoc. reflexivity.
Qed.

(** Past the two reads and the label test, without augmentation or
    permutation, what is left of [add_data] is the blank filter. *)
Lemma add_data_after_reads f0 f1 index augment_flip factor
    patch_shape skip_blank h s1 s2 data0 truth0 data1 truth1 label :
  get_data_from_file f0 index patch_shape (process h)
    = (s1, Ok (data0, truth0, label)) →
  get_data_from_file f1 index patch_shape s1
    = (s2, Ok (data1, truth1, label)) →
  add_data f0 f1 index false augment_flip factor patch_shape
           skip_blank false h
  = (if negb skip_blank || (any_nonzero truth0 || any_nonzero truth1)
     then
       data0_0 ← lift_result (normalise data0);
       data1_0 ← lift_result (normalise data1);
       _ ← append_x_0 data0_0;
       _ ← append_x_1 data1_0;
       _ ← append_y_0 label;
       _ ← append_y_1 (newaxis truth0);
       append_y_2 (newaxis truth1)
     else mret tt) (mk_heap s2 (x_list h) (y_list h)).
Proof.
  intros Hread0 Hread1. unfold add_data.
  cbv beta iota zeta delta [mbind M_bind in_sys zoom].
  rewrite Hread0. cbn [process x_list y_list].
  rewrite Hread1. cbn [process x_list y_list].
  rewrite Z.eqb_refl. reflexivity.
Qed.

(** C8, as amended: a sample whose reads succeed with one label, loaded
    without augmentation or permutation.  If [skip_blank] is off, or one
    of the two label maps has a nonzero voxel, and both image volumes
    hold at least one voxel, each of the five accumulator lists grows by
    exactly one entry; if [skip_blank] is on and both label maps are zero
    everywhere, nothing is appended and nothing is raised. *)
Theorem add_data_blank_filter f0 f1 index augment_flip factor
    patch_shape skip_blank h s1 s2 data0 truth0 data1 truth1 label :
  get_data_from_file f0 index patch_shape (process h)
    = (s1, Ok (data0, truth0, label)) →
  get_data_from_file f1 index patch_shape s1
    = (s2, Ok (data1, truth1, label)) →
  (skip_blank = false
     ∨ (∃ v, (v ∈ elems truth0 ∨ v ∈ elems truth1) ∧ v ≠ 0) →
   elems data0 ≠ [] → elems data1 ≠ [] →
   ∃ data0_0 data1_0,
     add_data f0 f1 index false augment_flip factor patch_shape
              skip_blank false h
     = (mk_heap s2
          (mk_x (x_0 (x_list h) ++ [data0_0]) (x_1 (x_list h) ++ [data1_0]))
          (mk_y (y_0 (y_list h) ++ [label])
                (y_1 (y_list h) ++ [newaxis truth0])
                (y_2 (y_list h) ++ [newaxis truth1])),
        Ok tt)
     ∧ normalise data0 = Ok data0_0 ∧ normalise data1 = Ok data1_0
     ∧ shape data0_0 = shape data0 ∧ shape data1_0 = shape data1)
  ∧ (skip_blank = true →
     (∀ v, v ∈ elems truth0 ∨ v ∈ elems truth1 → v = 0) →
     add_data f0 f1 index false augment_flip factor patch_shape
              skip_blank false h
     = (mk_heap s2 (x_list h) (y_list h), Ok tt)).
Proof.
  intros Hread0 Hread1.
  rewrite (add_data_after_reads _ _ _ _ _ _ _ _ _ _ _ _ _ _ _
             Hread0 Hread1).
  split.
  - intros Hkeep Hne0 Hne1.
    assert (Hcond : negb skip_blank
                    || (any_nonzero truth0 || any_nonzero truth1) = true).
    { destruct Hkeep as [->|(v & [Hin|Hin] & Hv)]; [done|..].
      - assert (any_nonzero truth0 = true) as ->
          by (apply any_nonzero_true; eauto).
        by destruct skip_blank.
      - assert (any_nonzero truth1 = true) as ->
          by (apply any_nonzero_true; eauto).
        destruct skip_blank, (any_nonzero truth0); done. }
    rewrite Hcond.
    destruct (normalise_Ok data0 Hne0) as (n0 & Hn0 & Hs0 & _).
    destruct (normalise_Ok data1 Hne1) as (n1 & Hn1 & Hs1 & _).
    exists n0, n1. split; [|done].
    cbv beta iota zeta delta [mbind M_bind lift_result].
    rewrite Hn0, Hn1. reflexivity.
  - intros -> Hzero.
    assert (any_nonzero truth0 = false) as ->
      by (apply any_nonzero_false; auto).
    assert (any_nonzero truth1 = false) as ->
      by (apply any_nonzero_false; auto).
    reflexivity.
Qed.

(** With [permute] set the branch reads the local [data] before anything
    has assigned it: whatever the shapes of the volumes, the load raises
    [UnboundLocalError] and appends nothing. *)
Lemma add_data_permute_unbound f0 f1 index augment_flip factor
    patch_shape skip_blank h s1 s2 data0 truth0 data1 truth1 label :
  get_data_from_file f0 index patch_shape (process h)
    = (s1, Ok (data0, truth0, label)) →
  get_data_from_file f1 index patch_shape s1
    = (s2, Ok (data1, truth1, label)) →
  add_data f0 f1 index false augment_flip factor patch_shape
           skip_blank true h
  = (mk_heap s2 (x_list h) (y_list h), Raise (UnboundLocalError "data")).
Proof.
  intros Hread0 Hread1. unfold add_data.
  cbv beta iota zeta delta [mbind M_bind in_sys zoom].
  rewrite Hread0. cbn [process x_list y_list].
  rewrite Hread1. cbn [process x_list y_list].
  rewrite Z.eqb_refl. reflexivity.
Qed.

End Loading.

Lemma add_data_label_mismatch_witness :
  0 ≠ 1
  ∧ add_data (Arith0 := Arith_Q) (Externals0 := Externals_id)
             seven_subjects seven_subjects_relabelled (Plain 0)
             false true None PatchNone true false empty_heap
    = (mk_heap (mk_sys ["label0 and label1 not equal !!!"; "0"; "1"]
                       (rand quiet) (files quiet))
               (mk_x [] []) (mk_y [] [] []),
       Raise RuntimeError).
Proof.
  split; [lia|].
  apply (add_data_label_mismatch (Arith0 := Arith_Q)
           (Externals0 := Externals_id)
           seven_subjects seven_subjects_relabelled (Plain 0)
           false true None PatchNone true false empty_heap quiet quiet
           ramp lesion 0 ramp lesion 1 eq_refl eq_refl).
  lia.
Defined.

Lemma add_data_blank_filter_witness :
  (∃ data0_0 data1_0,
     add_data (Arith0 := Arith_Q) (Externals0 := Externals_id)
              seven_subjects seven_subjects (Plain 4)
              false true None PatchNone true false empty_heap
     = (mk_heap quiet (mk_x [data0_0] [data1_0])
                (mk_y [1] [newaxis lesion] [newaxis lesion]), Ok tt)
     ∧ shape data0_0 = [2; 2; 2]%nat ∧ shape data1_0 = [2; 2; 2]%nat)
  ∧ add_data (Arith0 := Arith_Q) (Externals0 := Externals_id)
             blank_subjects blank_subjects (Plain 1)
             false true None PatchNone true false empty_heap
    = (empty_heap, Ok tt).
Proof.
  split.
  - destruct (proj1 (add_data_blank_filter (Arith0 := Arith_Q)
                       (Externals0 := Externals_id)
                       seven_subjects seven_subjects (Plain 4) true None
                       PatchNone true empty_heap quiet quiet
                       ramp lesion ramp lesion 1 eq_refl eq_refl))
      as (data0_0 & data1_0 & Hadd & _ & _ & Hshape0 & Hshape1).
    + right. exists 2. split; [|lia]. left.
      apply list_elem_of_In. vm_compute. tauto.
    + discriminate.
    + discriminate.
    + exists data0_0, data1_0. split; [exact Hadd|]. split; assumption.
  - apply (proj2 (add_data_blank_filter (Arith0 := Arith_Q)
                    (Externals0 := Externals_id)
                    blank_subjects blank_subjects (Plain 1) true None
                    PatchNone true empty_heap quiet quiet
                    ramp blank ramp blank 1 eq_refl eq_refl));
      [reflexivity|].
    intros v [Hin|Hin]; apply list_elem_of_In in Hin; vm_compute in Hin;
      intuition.
Defined.

Section ZeroSize.
Context {voxel affine : Type} `{!Arith voxel} `{!Externals voxel affine}.

(** A kept sample whose image has no voxel is not recorded: [min] of the
    empty array raises [ValueError] before anything is appended. *)
Lemma add_data_zero_size (f0 f1 : data_file voxel affine) index
    augment_flip factor patch_shape skip_blank (h : heap voxel) s1 s2
    data0 truth0 data1 truth1 label :
  get_data_from_file f0 index patch_shape (process h)
    = (s1, Ok (data0, truth0, label)) →
  get_data_from_file f1 index patch_shape s1
    = (s2, Ok (data1, truth1, label)) →
  negb skip_blank || (any_nonzero truth0 || any_nonzero truth1) = true →
  elems data0 = [] →
  add_data f0 f1 index false augment_flip factor patch_shape
           skip_blank false h
  = (mk_heap s2 (x_list h) (y_list h), Raise (zero_size "minimum")).
Proof.
  intros Hread0 Hread1 Hkeep Hempty.
  rewrite (add_data_after_reads _ _ _ _ _ _ _ _ _ _ _ _ _ _ _
             Hread0 Hread1), Hkeep.
  cbv beta iota zeta delta [mbind M_bind lift_result].
  unfold normalise, amin. by rewrite Hempty.
Qed.

End ZeroSize.

(** C8 as stated fails on a subject whose image has shape (0, 2, 2) and
    whose label map has nonzero voxels: with [skip_blank] on or off the
    load raises [ValueError] and appends nothing. *)
Lemma add_data_blank_filter_counterexample :
  get_data_from_file (Externals0 := Externals_id) hollow_subjects (Plain 0)
                     PatchNone quiet
    = (quiet, Ok (hollow, lesion, 1))
  ∧ 2 ∈ elems lesion
  ∧ add_data (Arith0 := Arith_Q) (Externals0 := Externals_id)
             hollow_subjects hollow_subjects (Plain 0)
             false true None PatchNone true false empty_heap
    = (empty_heap, Raise (zero_size "minimum"))
  ∧ add_data (Arith0 := Arith_Q) (Externals0 := Externals_id)
             hollow_subjects hollow_subjects (Plain 0)
             false true None PatchNone false false empty_heap
    = (empty_heap, Raise (zero_size "minimum")).
Proof.
  split; [reflexivity|]. split; [|split; reflexivity].
  apply list_elem_of_In. vm_compute. tauto.
Qed.

(** A blank sample is kept when [skip_blank] is off. *)
Example blank_kept :
  y_0 (y_list (add_data (Arith0 := Arith_Q) (Externals0 := Externals_id)
                 blank_subjects blank_subjects (Plain 1)
                 false true None PatchNone false false empty_heap).1) = [1].
Proof. reflexivity. Qed.

(** Over exact rationals a volume with values from 2 to 10 is rescaled to
    run from 0 to 1, and a constant volume becomes zero. *)
Example normalise_ramp :
  normalise (Arith0 := Arith_Q) ramp
  = Ok (cube [0; 1 # 8; 1 # 4; 3 # 8; 1 # 2; 5 # 8; 3 # 4; 1]%Q).
Proof. reflexivity. Qed.

Example normalise_constant :
  normalise (Arith0 := Arith_Q) (cube [5; 5; 5; 5; 5; 5; 5; 5]%Q)
  = Ok (cube [0; 0; 0; 0; 0; 0; 0; 0]%Q).
Proof. reflexivity. Qed.

(** *** Rescaling over exact rationals *)

Lemma fold_minimum_Q (vs : list Q) : ∀ v : Q,
  let lo := fold_left (vminimum (Arith := Arith_Q)) vs v in
  lo ∈ v :: vs ∧ ∀ x, x ∈ v :: vs → (lo <= x)%Q.
Proof.
  induction vs as [|w vs IH]; intros v; cbn [fold_left].
  - split; [by left|]. intros x Hx.
    apply list_elem_of_singleton in Hx as ->. apply Qle_refl.
  - destruct (IH (vminimum (Arith := Arith_Q) v w)) as [Hin Hle].
    cbn [vminimum Arith_Q] in Hin, Hle |- *.
    destruct (Qle_bool v w) eqn:Hvw.
    + apply Qle_bool_iff in Hvw. split.
      * apply elem_of_cons in Hin as [Hin|Hin];
          rewrite !elem_of_cons; auto.
      * intros x Hx. rewrite !elem_of_cons in Hx.
        destruct Hx as [->|[->|Hx]].
        -- apply Hle. by left.
        -- apply Qle_trans with v; [|exact Hvw]. apply Hle. by left.
        -- apply Hle. by right.
    + assert (Hwv : (w <= v)%Q).
      { apply Qlt_le_weak, Qnot_le_lt. intros H.
        apply Qle_bool_iff in H. congruence. }
      split.
      * apply elem_of_cons in Hin as [Hin|Hin];
          rewrite !elem_of_cons; auto.
      * intros x Hx. rewrite !elem_of_cons in Hx.
        destruct Hx as [->|[->|Hx]].
        -- apply Qle_trans with w; [|exact Hwv]. apply Hle. by left.
        -- apply Hle. by left.
        -- apply Hle. by right.
Qed.

Lemma fold_maximum_Q (vs : list Q) : ∀ v : Q,
  let hi := fold_left (vmaximum (Arith := Arith_Q)) vs v in
  hi ∈ v :: vs ∧ ∀ x, x ∈ v :: vs → (x <= hi)%Q.
Proof.
  induction vs as [|w vs IH]; intros v; cbn [fold_left].
  - split; [by left|]. intros x Hx.
    apply list_elem_of_singleton in Hx as ->. apply Qle_refl.
  - destruct (IH (vmaximum (Arith := Arith_Q) v w)) as [Hin Hle].
    cbn [vmaximum Arith_Q] in Hin, Hle |- *.
    destruct (Qle_bool v w) eqn:Hvw.
    + apply Qle_bool_iff in Hvw. split.
      * apply elem_of_cons in Hin as [Hin|Hin];
          rewrite !elem_of_cons; auto.
      * intros x Hx. rewrite !elem_of_cons in Hx.
        destruct Hx as [->|[->|Hx]].
        -- apply Qle_trans with w; [exact Hvw|]. apply Hle. by left.
        -- apply Hle. by left.
        -- apply Hle. by right.
    + assert (Hwv : (w <= v)%Q).
      { apply Qlt_le_weak, Qnot_le_lt. intros H.
        apply Qle_bool_iff in H. congruence. }
      split.
      * apply elem_of_cons in Hin as [Hin|Hin];
          rewrite !elem_of_cons; auto.
      * intros x Hx. rewrite !elem_of_cons in Hx.
        destruct Hx as [->|[->|Hx]].
        -- apply Hle. by left.
        -- apply Qle_trans with v; [exact Hwv|]. apply Hle. by left.
        -- apply Hle. by right.
Qed.

Lemma Qred_zero (q : Q) : (q == 0)%Q → Qred q = 0%Q.
Proof. intros H. by rewrite (Qred_complete _ _ H). Qed.

Lemma Qred_one (q : Q) : (q == 1)%Q → Qred q = 1%Q.
Proof. intros H. by rewrite (Qred_complete _ _ H). Qed.

(** Over exact rationals: a constant volume becomes zero everywhere; any
    other volume is rescaled into [0, 1], with 0 and 1 both reached. *)
Lemma normalise_Q (data : ndarray Q) :
  elems data ≠ [] →
  ∃ lo hi scaled,
    amin (Arith0 := Arith_Q) data = Ok lo
    ∧ amax (Arith0 := Arith_Q) data = Ok hi
    ∧ normalise (Arith0 := Arith_Q) data = Ok scaled
    ∧ shape scaled = shape data
    ∧ length (elems scaled) = length (elems data)
    ∧ ((lo == hi)%Q → ∀ v, v ∈ elems scaled → v = 0%Q)
    ∧ (¬ (lo == hi)%Q →
       (∀ v, v ∈ elems scaled → (0 <= v <= 1)%Q)
       ∧ 0%Q ∈ elems scaled ∧ 1%Q ∈ elems scaled).
Proof.
  intros Hne. destruct (elems data) as [|v vs] eqn:Hel; [done|].
  destruct (fold_minimum_Q vs v) as [Hlo_in Hlo].
  destruct (fold_maximum_Q vs v) as [Hhi_in Hhi].
  set (lo := fold_left vminimum vs v) in *.
  set (hi := fold_left vmaximum vs v) in *.
  assert (Hmin : amin (Arith0 := Arith_Q) data = Ok lo)
    by (unfold amin; by rewrite Hel).
  assert (Hmax : amax (Arith0 := Arith_Q) data = Ok hi)
    by (unfold amax; by rewrite Hel).
  unfold normalise. rewrite Hmin, Hmax. cbn [veqb Arith_Q].
  destruct (Qeq_bool lo hi) eqn:Heq.
  - apply Qeq_bool_iff in Heq.
    exists lo, hi, (arr_sub (Arith0 := Arith_Q) data data).
    repeat split; try done.
    + cbn [arr_sub elems]. rewrite length_zip_with, Hel. lia.
    + intros _ x Hx. cbn [arr_sub elems] in Hx.
      apply elem_of_lookup_zip_with in Hx as (i & a & b & -> & Ha & Hb).
      assert (a = b) as -> by congruence.
      cbn. apply Qred_zero. ring.
  - assert (Hneq : ¬ (lo == hi)%Q).
    { intros H. apply Qeq_bool_iff in H. congruence. }
    assert (Hlt : (0 < hi - lo)%Q).
    { pose proof (Hlo hi Hhi_in) as Hle.
      apply (proj1 (Qlt_minus_iff lo hi)).
      destruct (Qle_lt_or_eq _ _ Hle) as [Hlt|Heq']; [done|].
      by destruct Hneq. }
    assert (Hd : (Qred (hi - lo) == hi - lo)%Q) by apply Qred_correct.
    assert (Hdpos : (0 < Qred (hi - lo))%Q) by (by rewrite Hd).
    assert (Hdnz : ¬ (Qred (hi - lo) == 0)%Q).
    { intros H. rewrite H in Hdpos. by apply Qlt_irrefl in Hdpos. }
    eexists lo, hi, _. split; [done|]. split; [done|].
    split; [reflexivity|]. split; [done|].
    split; [cbn [arr_div_scalar arr_sub_scalar elems];
            by rewrite !length_map, Hel|].
    split; [done|]. intros _.
    cbn [arr_div_scalar arr_sub_scalar elems shape vsub vdiv Arith_Q].
    rewrite Hel, map_map. split; [|split].
    + intros x Hx. apply list_elem_of_fmap in Hx as (w & -> & Hw).
      rewrite Qred_correct, (Qred_correct (w - lo)).
      pose proof (Hlo w Hw) as Hlow. pose proof (Hhi w Hw) as Hwhi.
      split.
      * apply Qle_shift_div_l; [done|]. rewrite Qmult_0_l.
        exact (proj1 (Qle_minus_iff lo w) Hlow).
      * apply Qle_shift_div_r; [done|]. rewrite Qmult_1_l, Hd.
        exact (proj2 (Qplus_le_l w hi (- lo)) Hwhi).
    + apply list_elem_of_fmap. exists lo. split; [|done].
      symmetry. apply Qred_zero.
      rewrite (Qred_correct (lo - lo)). field. done.
    + apply list_elem_of_fmap. exists hi. split; [|done].
      symmetry. apply Qred_one.
      rewrite (Qred_correct (hi - lo)). field.
      intros H. rewrite H in Hlt. by apply Qlt_irrefl in Hlt.
Qed.

(** *** Rescaling in binary32 *)

Lemma digits2_pos_size (m : positive) : digits2_pos m = Pos.size m.
Proof. induction m as [m IH|m IH|]; cbn; by rewrite ?IH. Qed.

(** The number of binary digits brackets the number. *)
Lemma Zdigits2_bounds (m : Z) :
  0 < m → 2 ^ (Zdigits2 m - 1) ≤ m < 2 ^ Zdigits2 m.
Proof.
  destruct m as [|m|m]; [lia| |lia]. intros _. cbn [Zdigits2].
  rewrite digits2_pos_size.
  pose proof (Pos.size_gt m) as Hgt. pose proof (Pos.size_le m) as Hle.
  assert (H2 : Z.pos (2 ^ Pos.size m) = 2 ^ Z.pos (Pos.size m))
    by (by rewrite Pos2Z.inj_pow).
  split.
  - assert (2 ^ Z.pos (Pos.size m) = 2 * 2 ^ (Z.pos (Pos.size m) - 1)) as Hs.
    { rewrite <- Z.pow_succ_r by lia. f_equal. lia. }
    lia.
  - lia.
Qed.

Lemma Zdigits2_nonneg (m : Z) : 0 ≤ Zdigits2 m.
Proof. destruct m; cbn; lia. Qed.

Lemma Zdigits2_pos (m : Z) : 0 < m → 0 < Zdigits2 m.
Proof. destruct m; cbn; lia. Qed.

Lemma Zdigits2_unique (m d : Z) :
  2 ^ (d - 1) ≤ m < 2 ^ d → 0 < m → Zdigits2 m = d.
Proof.
  intros [Hlo Hhi] Hm. pose proof (Zdigits2_bounds m Hm) as [Hlo' Hhi'].
  pose proof (Zdigits2_pos m Hm) as Hd.
  assert (Hdpos : 0 < d).
  { destruct (Z.le_gt_cases d 0) as [Hle|]; [|done].
    assert (2 ^ d ≤ 2 ^ 0) by (apply Z.pow_le_mono_r; lia). simpl in *. lia. }
  destruct (Z.lt_trichotomy (Zdigits2 m) d) as [Hlt|[Heq|Hgt]]; [|done|].
  - assert (2 ^ Zdigits2 m ≤ 2 ^ (d - 1)) by (apply Z.pow_le_mono_r; lia). lia.
  - assert (2 ^ d ≤ 2 ^ (Zdigits2 m - 1)) by (apply Z.pow_le_mono_r; lia). lia.
Qed.

Lemma Zdigits2_mul_pow2 (m k : Z) :
  0 < m → 0 ≤ k → Zdigits2 (m * 2 ^ k) = Zdigits2 m + k.
Proof.
  intros Hm Hk. pose proof (Zdigits2_bounds m Hm) as [Hlo Hhi].
  pose proof (Zdigits2_pos m Hm) as Hd.
  assert (0 < 2 ^ k) by (apply Z.pow_pos_nonneg; lia).
  apply Zdigits2_unique; [|nia].
  replace (Zdigits2 m + k - 1) with ((Zdigits2 m - 1) + k) by lia.
  rewrite !Z.pow_add_r by lia. nia.
Qed.

Lemma Zdigits2_div_pow2 (m k : Z) :
  0 < m → 0 ≤ k → k < Zdigits2 m → Zdigits2 (m / 2 ^ k) = Zdigits2 m - k.
Proof.
  intros Hm Hk Hlt. pose proof (Zdigits2_bounds m Hm) as [Hlo Hhi].
  assert (Hp : 0 < 2 ^ k) by (apply Z.pow_pos_nonneg; lia).
  assert (Hsplit : 2 ^ Zdigits2 m = 2 ^ (Zdigits2 m - k) * 2 ^ k).
  { rewrite <- Z.pow_add_r by lia. f_equal. lia. }
  assert (Hsplit' : 2 ^ (Zdigits2 m - 1) = 2 ^ (Zdigits2 m - k - 1) * 2 ^ k).
  { rewrite <- Z.pow_add_r by lia. f_equal. lia. }
  assert (Hq : 2 ^ (Zdigits2 m - k - 1) ≤ m / 2 ^ k).
  { apply Z.div_le_lower_bound; [done|]. lia. }
  assert (Hq' : m / 2 ^ k < 2 ^ (Zdigits2 m - k)).
  { apply Z.div_lt_upper_bound; [done|]. lia. }
  assert (0 < 2 ^ (Zdigits2 m - k - 1)) by (apply Z.pow_pos_nonneg; lia).
  apply Zdigits2_unique; [|lia]. split; [done|done].
Qed.

Lemma Zdigits2_small (m k : Z) :
  0 ≤ m → Zdigits2 m ≤ k → m / 2 ^ k = 0.
Proof.
  intros Hm Hd. destruct (decide (m = 0)) as [->|Hne].
  - apply Z.div_0_l. pose proof (Zdigits2_nonneg 0).
    apply Z.pow_nonzero; lia.
  - pose proof (Zdigits2_bounds m ltac:(lia)) as [_ Hhi].
    pose proof (Zdigits2_nonneg m).
    apply Z.div_small. split; [done|].
    assert (2 ^ Zdigits2 m ≤ 2 ^ k) by (apply Z.pow_le_mono_r; lia). lia.
Qed.

(** [iter_pos] is plain iteration. *)
Lemma iter_pos_nat {A} (f : A → A) (p : positive) : ∀ x,
  iter_pos f p x = Nat.iter (Pos.to_nat p) f x.
Proof.
  induction p as [p IH|p IH|]; intros x; cbn [iter_pos].
  - rewrite !IH.
    replace (Pos.to_nat p~1) with (Pos.to_nat p + (Pos.to_nat p + 1))%nat by lia.
    by rewrite !Nat.iter_add.
  - rewrite !IH.
    replace (Pos.to_nat p~0) with (Pos.to_nat p + Pos.to_nat p)%nat by lia.
    by rewrite Nat.iter_add.
  - reflexivity.
Qed.

Lemma shr_1_nonneg (m : Z) (r s : bool) :
  0 ≤ m →
  shr_1 (Build_shr_record m r s)
  = Build_shr_record (m / 2) (Z.odd m) (r || s).
Proof.
  intros Hm. rewrite <- Z.div2_div.
  destruct m as [|[p|p|]|]; done.
Qed.

(** Shifting right [n] times divides the mantissa by [2 ^ n]. *)
Lemma shr_iter_m (n : nat) : ∀ m r s,
  0 ≤ m →
  shr_m (Nat.iter n shr_1 (Build_shr_record m r s)) = m / 2 ^ Z.of_nat n.
Proof.
  induction n as [|n IH]; intros m r s Hm.
  - cbn. by rewrite Z.div_1_r.
  - rewrite Nat.iter_succ_r, shr_1_nonneg by done.
    rewrite IH by (apply Z.div_pos; lia).
    rewrite Nat2Z.inj_succ, Z.pow_succ_r by lia.
    rewrite Z.div_div by (try apply Z.pow_pos_nonneg; lia). done.
Qed.

(** Shifting an exact mantissa right [n ≥ 1] times: the round bit says
    whether the part shifted out reaches one half, the sticky bit whether
    it differs from zero and one half. *)
Lemma shr_iter_exact (n : nat) (m : Z) :
  0 ≤ m → (0 < n)%nat →
  Nat.iter n shr_1 (Build_shr_record m false false)
  = Build_shr_record (m / 2 ^ Z.of_nat n)
      (2 ^ (Z.of_nat n - 1) <=? m mod 2 ^ Z.of_nat n)
      (negb ((m mod 2 ^ Z.of_nat n) mod 2 ^ (Z.of_nat n - 1) =? 0)).
Proof.
  intros Hm Hn. induction n as [|n IH]; [lia|].
  destruct (decide (n = 0)%nat) as [->|Hpos].
  - unfold Nat.iter. cbn [nat_rect]. rewrite shr_1_nonneg by done.
    change (Z.of_nat 1) with 1. change (2 ^ (1 - 1)) with 1.
    change (2 ^ 1) with 2. rewrite Z.mod_1_r. cbn [orb negb Z.eqb].
    f_equal. rewrite Zmod_odd. by destruct (Z.odd m).
  - rewrite Nat.iter_succ, IH by lia. clear IH.
    set (k := Z.of_nat n). assert (Hk : 1 ≤ k) by lia.
    assert (Hp : 0 < 2 ^ k) by (apply Z.pow_pos_nonneg; lia).
    assert (Hh : 0 < 2 ^ (k - 1)) by (apply Z.pow_pos_nonneg; lia).
    assert (Hdouble : 2 ^ k = 2 * 2 ^ (k - 1)).
    { rewrite <- Z.pow_succ_r by lia. f_equal. lia. }
    rewrite shr_1_nonneg by (apply Z.div_pos; lia).
    replace (Z.of_nat (S n)) with (k + 1) by lia.
    replace (k + 1 - 1) with k by lia.
    assert (Hnext : 2 ^ (k + 1) = 2 ^ k * 2) by (rewrite Z.pow_add_r; lia).
    pose proof (Z.mod_pos_bound m (2 ^ k) Hp) as Hr.
    assert (Hrem : m mod 2 ^ (k + 1)
                   = m mod 2 ^ k + 2 ^ k * (if Z.odd (m / 2 ^ k) then 1 else 0)).
    { rewrite Hnext, Z.rem_mul_r by lia. by rewrite Zmod_odd. }
    f_equal.
    + rewrite Hnext, <- Z.div_div by lia. done.
    + rewrite Hrem. destruct (Z.odd (m / 2 ^ k)).
      * symmetry. apply Z.leb_le. lia.
      * symmetry. apply Z.leb_gt. lia.
    + assert (Hmod : (m mod 2 ^ (k + 1)) mod 2 ^ k = m mod 2 ^ k).
      { rewrite Hrem, (Z.mul_comm (2 ^ k)), Z.mod_add by lia.
        apply Z.mod_small. lia. }
      rewrite Hmod.
      destruct (Z.leb_spec (2 ^ (k - 1)) (m mod 2 ^ k)) as [Hge|Hlt].
      * cbn [orb]. symmetry. apply negb_true_iff, Z.eqb_neq. lia.
      * cbn [orb]. by rewrite (Z.mod_small (m mod 2 ^ k)) by lia.
Qed.

Lemma shr_none (mrs : shr_record) (e n : Z) :
  n ≤ 0 → shr mrs e n = (mrs, e).
Proof. intros Hn. destruct n; [done|lia|done]. Qed.

Lemma shr_exact (m e n : Z) :
  0 ≤ m → 0 < n →
  shr (Build_shr_record m false false) e n
  = (Build_shr_record (m / 2 ^ n) (2 ^ (n - 1) <=? m mod 2 ^ n)
       (negb ((m mod 2 ^ n) mod 2 ^ (n - 1) =? 0)), e + n).
Proof.
  intros Hm Hn. destruct n as [|p|p]; [lia| |lia]. cbn [shr].
  rewrite iter_pos_nat, shr_iter_exact by lia.
  by rewrite positive_nat_Z.
Qed.

Lemma shr_m_shr (m : Z) (r s : bool) (e n : Z) :
  0 ≤ m →
  shr_m (shr (Build_shr_record m r s) e n).1 = m / 2 ^ Z.max n 0
  ∧ (shr (Build_shr_record m r s) e n).2 = e + Z.max n 0.
Proof.
  intros Hm. destruct n as [|p|p]; cbn [shr fst snd shr_m].
  - rewrite Z.div_1_r. lia.
  - rewrite iter_pos_nat, shr_iter_m, positive_nat_Z by done.
    by rewrite Z.max_l by lia.
  - rewrite Z.div_1_r. lia.
Qed.

Lemma round_shr_exact (m n : Z) :
  0 ≤ m → 0 < n →
  round_nearest_even (m / 2 ^ n)
    (loc_of_shr_record
       (Build_shr_record (m / 2 ^ n) (2 ^ (n - 1) <=? m mod 2 ^ n)
          (negb ((m mod 2 ^ n) mod 2 ^ (n - 1) =? 0))))
  = rne m n.
Proof.
  intros Hm Hn. unfold rne. cbv zeta.
  assert (Hp : 0 < 2 ^ n) by (apply Z.pow_pos_nonneg; lia).
  assert (Hh : 0 < 2 ^ (n - 1)) by (apply Z.pow_pos_nonneg; lia).
  assert (Hdouble : 2 ^ n = 2 * 2 ^ (n - 1)).
  { rewrite <- Z.pow_succ_r by lia. f_equal. lia. }
  pose proof (Z.mod_pos_bound m (2 ^ n) Hp) as Hr.
  set (r := m mod 2 ^ n) in *. set (h := 2 ^ (n - 1)) in *.
  destruct (Z.leb_spec h r) as [Hge|Hlt].
  - assert (Hnlt : (r <? h) = false) by (apply Z.ltb_ge; lia). rewrite Hnlt.
    destruct (Z.eqb_spec (r mod h) 0) as [Hz|Hnz]; cbn [negb loc_of_shr_record
      round_nearest_even].
    + assert (r = h).
      { pose proof (Z.div_mod r h ltac:(lia)) as Hdm. rewrite Hz in Hdm.
        assert (r / h < 2) by (apply Z.div_lt_upper_bound; lia).
        assert (1 ≤ r / h) by (apply Z.div_le_lower_bound; lia).
        nia. }
      assert (Hnlt' : (h <? r) = false) by (apply Z.ltb_ge; lia).
      by rewrite Hnlt'.
    + assert (r ≠ h) by (intros ->; by rewrite Z.mod_same in Hnz by lia).
      assert (Hlt' : (h <? r) = true) by (apply Z.ltb_lt; lia).
      by rewrite Hlt'.
  - assert (Hlt' : (r <? h) = true) by (apply Z.ltb_lt; lia). rewrite Hlt'.
    by destruct (negb (r mod h =? 0)).
Qed.

Lemma rne_bounds (m n : Z) : m / 2 ^ n ≤ rne m n ≤ m / 2 ^ n + 1.
Proof. unfold rne. cbv zeta. repeat case_match; lia. Qed.

Lemma rne_scale (m n j : Z) :
  0 ≤ m → 0 < n → 0 ≤ j → rne (m * 2 ^ j) (n + j) = rne m n.
Proof.
  intros Hm Hn Hj. unfold rne. cbv zeta.
  assert (Hp : 0 < 2 ^ n) by (apply Z.pow_pos_nonneg; lia).
  assert (Hpj : 0 < 2 ^ j) by (apply Z.pow_pos_nonneg; lia).
  assert (Hh : 0 < 2 ^ (n - 1)) by (apply Z.pow_pos_nonneg; lia).
  rewrite (Z.pow_add_r 2 n j) by lia.
  replace (n + j - 1) with ((n - 1) + j) by lia.
  rewrite (Z.pow_add_r 2 (n - 1) j) by lia.
  rewrite Z.div_mul_cancel_r by lia.
  rewrite Zmult_mod_distr_r.
  assert (Hlt : (m mod 2 ^ n * 2 ^ j <? 2 ^ (n - 1) * 2 ^ j)
                = (m mod 2 ^ n <? 2 ^ (n - 1))).
  { destruct (Z.ltb_spec (m mod 2 ^ n) (2 ^ (n - 1))).
    - apply Z.ltb_lt. nia.
    - apply Z.ltb_ge. nia. }
  assert (Hgt : (2 ^ (n - 1) * 2 ^ j <? m mod 2 ^ n * 2 ^ j)
                = (2 ^ (n - 1) <? m mod 2 ^ n)).
  { destruct (Z.ltb_spec (2 ^ (n - 1)) (m mod 2 ^ n)).
    - apply Z.ltb_lt. nia.
    - apply Z.ltb_ge. nia. }
  by rewrite Hlt, Hgt.
Qed.

(** Rounding is monotone. *)
Lemma rne_mono (m1 m2 n : Z) :
  0 ≤ m1 ≤ m2 → 0 < n → rne m1 n ≤ rne m2 n.
Proof.
  intros Hm Hn.
  assert (Hp : 0 < 2 ^ n) by (apply Z.pow_pos_nonneg; lia).
  pose proof (Z.div_mod m1 (2 ^ n) ltac:(lia)) as Hdm1.
  pose proof (Z.div_mod m2 (2 ^ n) ltac:(lia)) as Hdm2.
  pose proof (Z.mod_pos_bound m1 (2 ^ n) Hp) as Hr1.
  pose proof (Z.mod_pos_bound m2 (2 ^ n) Hp) as Hr2.
  assert (Hq : m1 / 2 ^ n ≤ m2 / 2 ^ n) by (apply Z.div_le_mono; lia).
  destruct (decide (m1 / 2 ^ n = m2 / 2 ^ n)) as [Heq|Hne].
  - unfold rne. cbv zeta. rewrite <- Heq.
    assert (m1 mod 2 ^ n ≤ m2 mod 2 ^ n) by nia.
    repeat case_match; lia.
  - pose proof (rne_bounds m1 n). pose proof (rne_bounds m2 n). lia.
Qed.

Lemma fexp32 (e : Z) : fexp 24 128 e = Z.max (e - 24) (-149).
Proof. reflexivity. Qed.

Lemma bounded32 (m : positive) (e : Z) :
  bounded 24 128 m e = true
  ↔ -149 ≤ e ≤ 104 ∧ Zdigits2 (Z.pos m) ≤ 24
    ∧ (Zdigits2 (Z.pos m) = 24 ∨ e = -149).
Proof.
  unfold bounded, canonical_mantissa. rewrite andb_true_iff, fexp32.
  rewrite Z.eqb_eq, Z.leb_le. change (128 - 24) with 104.
  change (Zdigits2 (Z.pos m)) with (Z.pos (digits2_pos m)). lia.
Qed.

Lemma Pos_iter_xO (m d : positive) :
  Z.pos (Pos.iter xO m d) = Z.pos m * 2 ^ Z.pos d.
Proof.
  induction d as [|d IH] using Pos.peano_ind.
  - cbn. lia.
  - rewrite Pos.iter_succ, Pos2Z.inj_xO, IH, Pos2Z.inj_succ.
    rewrite Z.pow_succ_r by lia. lia.
Qed.

Lemma shl_align_spec (m : positive) (e t : Z) :
  ∃ mz, shl_align m e t = (mz, Z.min e t)
        ∧ Z.pos mz = Z.pos m * 2 ^ (e - Z.min e t).
Proof.
  unfold shl_align. destruct (t - e) as [|d|d] eqn:Hd.
  - exists m. rewrite Z.min_l by lia. rewrite Z.sub_diag. split; [done|lia].
  - exists m. rewrite Z.min_l by lia. rewrite Z.sub_diag. split; [done|lia].
  - exists (Pos.iter xO m d). rewrite Z.min_r by lia. split; [done|].
    rewrite Pos_iter_xO. f_equal. f_equal. lia.
Qed.

(** Rounding an exact mantissa whose exponent is not above the one of its
    format gives the nearest number. *)
Lemma binary_round_aux_exact (mz : positive) (ez : Z) :
  -149 ≤ ez → ez ≤ fexp 24 128 (Zdigits2 (Z.pos mz) + ez) →
  binary_round_aux 24 128 false (Z.pos mz) ez loc_Exact
  = nearest32 (Z.pos mz * 2 ^ (ez + 149)).
Proof.
  intros Hez Hfexp. rewrite fexp32 in Hfexp.
  pose proof (Zdigits2_bounds (Z.pos mz) ltac:(lia)) as [Hlo Hhi].
  pose proof (Zdigits2_pos (Z.pos mz) ltac:(lia)) as Hd.
  set (D := Zdigits2 (Z.pos mz)) in *.
  assert (Hu : 0 < 2 ^ (ez + 149)) by (apply Z.pow_pos_nonneg; lia).
  set (N := Z.pos mz * 2 ^ (ez + 149)).
  assert (HdN : Zdigits2 N = D + (ez + 149))
    by (apply Zdigits2_mul_pow2; lia).
  unfold binary_round_aux, shr_fexp. rewrite fexp32. fold D.
  cbn [shr_record_of_loc].
  destruct (decide (Z.max (D + ez - 24) (-149) - ez ≤ 0)) as [Hnone|Hshift].
  - (* the mantissa fits *)
    rewrite shr_none by done. cbn [shr_m loc_of_shr_record round_nearest_even].
    rewrite fexp32. fold D. cbn [shr_record_of_loc].
    rewrite shr_none by done. cbn [shr_m].
    assert (HD24 : D ≤ 24) by lia.
    assert (Hm24 : Z.pos mz < 2 ^ 24).
    { assert (2 ^ D ≤ 2 ^ 24) by (apply Z.pow_le_mono_r; lia). lia. }
    unfold nearest32. destruct (decide (ez = -149)) as [->|Hne].
    + unfold N. change (2 ^ (-149 + 149)) with 1. rewrite Z.mul_1_r.
      apply Z.ltb_lt in Hm24 as Hlt. rewrite Hlt. done.
    + assert (HD : D = 24) by lia.
      assert (H23 : 2 ^ 23 ≤ Z.pos mz) by (by rewrite HD in Hlo).
      assert (2 ^ 1 ≤ 2 ^ (ez + 149)) by (apply Z.pow_le_mono_r; lia).
      assert (Hbig : (N <? 2 ^ 24) = false) by (apply Z.ltb_ge; unfold N; nia).
      fold N. rewrite Hbig, HdN, HD. cbv zeta.
      replace (24 + (ez + 149) - 24) with (ez + 149) by lia.
      assert (Hq : rne N (ez + 149) = Z.pos mz).
      { unfold rne, N. cbv zeta.
        rewrite Z.div_mul, Z.mod_mul by lia.
        assert (0 < 2 ^ (ez + 149 - 1)) as Hh
          by (apply Z.pow_pos_nonneg; lia).
        apply Z.ltb_lt in Hh. by rewrite Hh. }
      rewrite Hq.
      assert (Hne24 : (Z.pos mz =? 2 ^ 24) = false) by (apply Z.eqb_neq; lia).
      rewrite Hne24. replace (ez + 149 - 149) with ez by lia.
      change (128 - 24) with 104. by rewrite Pos2Z.id.
  - (* the low digits are rounded away *)
    assert (Hn : Z.max (D + ez - 24) (-149) - ez = D - 24) by lia.
    rewrite Hn. set (n := D - 24) in *. assert (Hnpos : 0 < n) by lia.
    rewrite shr_exact by lia. cbv beta iota zeta.
    cbn [shr_m]. rewrite round_shr_exact by lia.
    assert (Hq : Zdigits2 (Z.pos mz / 2 ^ n) = 24).
    { rewrite Zdigits2_div_pow2 by lia. lia. }
    pose proof (Zdigits2_bounds (Z.pos mz / 2 ^ n)) as Hqb.
    rewrite Hq in Hqb. change (2 ^ (24 - 1)) with (2 ^ 23) in Hqb.
    assert (Hqpos : 0 < Z.pos mz / 2 ^ n).
    { assert (2 ^ n ≤ Z.pos mz).
      { assert (2 ^ n ≤ 2 ^ (D - 1)) by (apply Z.pow_le_mono_r; lia). lia. }
      apply Z.div_str_pos. lia. }
    specialize (Hqb Hqpos).
    pose proof (rne_bounds (Z.pos mz) n) as Hrb.
    assert (Hbig : (N <? 2 ^ 24) = false).
    { apply Z.ltb_ge. unfold N.
      assert (2 ^ 24 ≤ 2 ^ (D - 1)) by (apply Z.pow_le_mono_r; lia). nia. }
    unfold nearest32. fold N. rewrite Hbig, HdN. cbv zeta.
    replace (D + (ez + 149) - 24) with (n + (ez + 149)) by lia.
    unfold N. rewrite rne_scale by lia.
    set (q := rne (Z.pos mz) n) in *.
    rewrite fexp32. cbn [shr_record_of_loc].
    destruct (Z.eqb_spec q (2 ^ 24)) as [Hq24|Hq24].
    + rewrite Hq24.
      change (Zdigits2 (2 ^ 24)) with 25.
      replace (Z.max (25 + (ez + n) - 24) (-149) - (ez + n)) with 1 by lia.
      cbn [shr iter_pos shr_1 shr_m]. change (2 ^ 24) with 16777216.
      cbn [shr_1 shr_m]. change (128 - 24) with 104.
      replace (n + (ez + 149) - 148) with (ez + n + 1) by lia. done.
    + assert (Hq' : Zdigits2 q = 24).
      { apply Zdigits2_unique; [|lia]. change (2 ^ (24 - 1)) with (2 ^ 23).
        lia. }
      rewrite Hq'. rewrite shr_none by lia. cbn [shr_m].
      change (128 - 24) with 104.
      replace (n + (ez + 149) - 149) with (ez + n) by lia.
      destruct q as [|q'|q'] eqn:Hqe; [lia| |lia]. by rewrite Pos2Z.id.
Qed.

Lemma binary_round_nearest (m : positive) (e : Z) :
  -149 ≤ e →
  binary_round 24 128 false m e = nearest32 (Z.pos m * 2 ^ (e + 149)).
Proof.
  intros He. unfold binary_round.
  set (t := fexp 24 128 (Z.pos (digits2_pos m) + e)).
  assert (Ht : -149 ≤ t) by (unfold t; rewrite fexp32; lia).
  destruct (shl_align_spec m e t) as (mz & -> & Hmz).
  assert (Hs : 0 ≤ e - Z.min e t) by lia.
  assert (Hdz : Zdigits2 (Z.pos mz) = Zdigits2 (Z.pos m) + (e - Z.min e t)).
  { rewrite Hmz. apply Zdigits2_mul_pow2; lia. }
  rewrite binary_round_aux_exact.
  - f_equal. rewrite Hmz, <- Z.mul_assoc, <- Z.pow_add_r by lia.
    f_equal. f_equal. lia.
  - lia.
  - rewrite Hdz.
    replace (Zdigits2 (Z.pos m) + (e - Z.min e t) + Z.min e t)
      with (Z.pos (digits2_pos m) + e) by (cbn [Zdigits2]; lia).
    fold t. lia.
Qed.

Lemma rne_exact (m k : Z) : 0 < k → rne (m * 2 ^ k) k = m.
Proof.
  intros Hk. unfold rne. cbv zeta.
  assert (0 < 2 ^ k) by (apply Z.pow_pos_nonneg; lia).
  rewrite Z.div_mul, Z.mod_mul by lia.
  assert (0 < 2 ^ (k - 1)) as Hh by (apply Z.pow_pos_nonneg; lia).
  apply Z.ltb_lt in Hh. by rewrite Hh.
Qed.

Lemma Zdigits2_mono (a b : Z) : 0 < a ≤ b → Zdigits2 a ≤ Zdigits2 b.
Proof.
  intros Hab. pose proof (Zdigits2_bounds a ltac:(lia)) as [Ha _].
  pose proof (Zdigits2_bounds b ltac:(lia)) as [_ Hb].
  destruct (Z.le_gt_cases (Zdigits2 a) (Zdigits2 b)) as [|Hgt]; [done|].
  assert (2 ^ Zdigits2 b ≤ 2 ^ (Zdigits2 a - 1)).
  { apply Z.pow_le_mono_r; [lia|]. lia. }
  lia.
Qed.

(** What [nearest32] computes above the subnormal range. *)
Lemma nearest32_big (N : Z) :
  2 ^ 24 ≤ N →
  let k := Zdigits2 N - 24 in
  let q := rne N k in
  1 ≤ k ∧ 2 ^ 23 ≤ q ≤ 2 ^ 24 ∧ 2 ^ 23 * 2 ^ k ≤ N < 2 ^ 24 * 2 ^ k.
Proof.
  intros HN k q.
  pose proof (Zdigits2_bounds N ltac:(lia)) as [Hlo Hhi].
  assert (Hk : 1 ≤ k).
  { unfold k. destruct (Z.le_gt_cases 25 (Zdigits2 N)) as [|Hlt]; [lia|].
    assert (2 ^ Zdigits2 N ≤ 2 ^ 24) by (apply Z.pow_le_mono_r; lia). lia. }
  assert (Hp : 0 < 2 ^ k) by (apply Z.pow_pos_nonneg; lia).
  assert (H1 : 2 ^ (Zdigits2 N - 1) = 2 ^ 23 * 2 ^ k).
  { rewrite <- Z.pow_add_r by lia. f_equal. unfold k. lia. }
  assert (H2 : 2 ^ Zdigits2 N = 2 ^ 24 * 2 ^ k).
  { rewrite <- Z.pow_add_r by lia. f_equal. unfold k. lia. }
  split; [done|]. split; [|lia].
  pose proof (rne_bounds N k) as Hb. fold q in Hb.
  assert (2 ^ 23 ≤ N / 2 ^ k) by (apply Z.div_le_lower_bound; lia).
  assert (N / 2 ^ k < 2 ^ 24) by (apply Z.div_lt_upper_bound; lia).
  lia.
Qed.

Lemma units_finite (m e : Z) :
  0 < m → units (S754_finite false (Z.to_pos m) e) = m * 2 ^ (e + 149).
Proof. intros Hm. cbn [units cond_Zopp]. by rewrite Z2Pos.id. Qed.

Lemma nearest32_finite (N : Z) :
  0 < N →
  finite32 (nearest32 N) = (nearest_exponent N <=? 104)
  ∧ (nearest_exponent N ≤ 104 →
     proper32 (nearest32 N) = true
     ∧ units (nearest32 N) = nearest_units N
     ∧ 0 < nearest_units N).
Proof.
  intros HN. unfold nearest32, nearest_exponent, nearest_units.
  destruct (Z.ltb_spec N (2 ^ 24)) as [Hsmall|Hbig].
  - split; [done|]. intros _. rewrite units_finite by done.
    change (2 ^ (-149 + 149)) with 1. split; [|lia].
    unfold proper32. cbn [valid_binary finite32]. rewrite andb_true_r.
    apply bounded32. rewrite Z2Pos.id by done.
    split; [lia|]. split; [|by right].
    destruct (Z.le_gt_cases (Zdigits2 N) 24) as [|Hgt]; [done|].
    pose proof (Zdigits2_bounds N HN) as [Hlo _].
    assert (2 ^ 24 ≤ 2 ^ (Zdigits2 N - 1)) by (apply Z.pow_le_mono_r; lia).
    lia.
  - cbv zeta. destruct (nearest32_big N Hbig) as (Hk & Hq & HNk).
    set (k := Zdigits2 N - 24) in *. set (q := rne N k) in *.
    assert (Hp : 0 < 2 ^ k) by (apply Z.pow_pos_nonneg; lia).
    destruct (Z.eqb_spec q (2 ^ 24)) as [Hq24|Hq24].
    + destruct (Z.leb_spec (k - 148) 104) as [Hfin|Hinf]; [|split; [done|lia]].
      split; [done|]. intros _. rewrite units_finite by done.
      split; [|split].
      * unfold proper32. cbn [valid_binary finite32]. rewrite andb_true_r.
        apply bounded32. change (Z.pos (Z.to_pos (2 ^ 23))) with (2 ^ 23).
        change (Zdigits2 (2 ^ 23)) with 24. lia.
      * rewrite Hq24. replace (k - 148 + 149) with (k + 1) by lia.
        rewrite Z.pow_add_r by lia. lia.
      * nia.
    + destruct (Z.leb_spec (k - 149) 104) as [Hfin|Hinf]; [|split; [done|lia]].
      split; [done|]. intros _. rewrite units_finite by lia.
      split; [|split].
      * unfold proper32. cbn [valid_binary finite32]. rewrite andb_true_r.
        apply bounded32. rewrite Z2Pos.id by lia.
        assert (Zdigits2 q = 24).
        { apply Zdigits2_unique; [|lia]. change (2 ^ (24 - 1)) with (2 ^ 23).
          lia. }
        lia.
      * f_equal. f_equal. lia.
      * nia.
Qed.

(** Rounding to nearest is monotone, in value and in exponent. *)
Lemma nearest_mono (N1 N2 : Z) :
  0 < N1 ≤ N2 →
  nearest_units N1 ≤ nearest_units N2
  ∧ nearest_exponent N1 ≤ nearest_exponent N2.
Proof.
  intros HN. unfold nearest_units, nearest_exponent.
  destruct (Z.ltb_spec N1 (2 ^ 24)) as [Hs1|Hb1];
    destruct (Z.ltb_spec N2 (2 ^ 24)) as [Hs2|Hb2]; try lia.
  - cbv zeta. destruct (nearest32_big N2 Hb2) as (Hk & Hq & HNk).
    set (k := Zdigits2 N2 - 24) in *. set (q := rne N2 k) in *.
    assert (2 ^ 1 ≤ 2 ^ k) by (apply Z.pow_le_mono_r; lia).
    split; [nia|]. destruct (q =? 2 ^ 24); lia.
  - cbv zeta. destruct (nearest32_big N1 Hb1) as (Hk1 & Hq1 & HN1).
    destruct (nearest32_big N2 Hb2) as (Hk2 & Hq2 & HN2).
    pose proof (Zdigits2_mono N1 N2 ltac:(lia)) as Hd.
    set (k1 := Zdigits2 N1 - 24) in *. set (q1 := rne N1 k1) in *.
    set (k2 := Zdigits2 N2 - 24) in *. set (q2 := rne N2 k2) in *.
    assert (Hp1 : 0 < 2 ^ k1) by (apply Z.pow_pos_nonneg; lia).
    destruct (decide (k1 = k2)) as [Heq|Hne].
    + assert (Hq : q1 ≤ q2).
      { unfold q1, q2. rewrite Heq. apply rne_mono; lia. }
      rewrite <- Heq. split; [nia|].
      destruct (Z.eqb_spec q1 (2 ^ 24)), (Z.eqb_spec q2 (2 ^ 24)); lia.
    + assert (Hlt : k1 + 1 ≤ k2) by lia.
      assert (2 ^ (k1 + 1) ≤ 2 ^ k2) by (apply Z.pow_le_mono_r; lia).
      rewrite Z.pow_add_r in * by lia.
      split; [nia|].
      destruct (Z.eqb_spec q1 (2 ^ 24)), (Z.eqb_spec q2 (2 ^ 24)); lia.
Qed.

(** A number of the format is its own nearest number. *)
Lemma nearest32_fixed (m : positive) (e : Z) :
  bounded 24 128 m e = true →
  nearest32 (Z.pos m * 2 ^ (e + 149)) = S754_finite false m e.
Proof.
  intros Hb. apply bounded32 in Hb as (He & Hd & Hcanon).
  pose proof (Zdigits2_bounds (Z.pos m) ltac:(lia)) as [Hlo Hhi].
  assert (Hm24 : Z.pos m < 2 ^ 24).
  { assert (2 ^ Zdigits2 (Z.pos m) ≤ 2 ^ 24)
      by (apply Z.pow_le_mono_r; lia). lia. }
  unfold nearest32. destruct (decide (e = -149)) as [->|Hne].
  - change (2 ^ (-149 + 149)) with 1. rewrite Z.mul_1_r.
    apply Z.ltb_lt in Hm24 as ->. done.
  - destruct Hcanon as [Hd24|]; [|done].
    rewrite Hd24 in Hlo. change (2 ^ (24 - 1)) with (2 ^ 23) in Hlo.
    assert (2 ^ 1 ≤ 2 ^ (e + 149)) by (apply Z.pow_le_mono_r; lia).
    assert (Hbig : (Z.pos m * 2 ^ (e + 149) <? 2 ^ 24) = false)
      by (apply Z.ltb_ge; nia).
    rewrite Hbig. cbv zeta.
    rewrite Zdigits2_mul_pow2, Hd24 by lia.
    replace (24 + (e + 149) - 24) with (e + 149) by lia.
    rewrite rne_exact by lia.
    assert (Hne24 : (Z.pos m =? 2 ^ 24) = false) by (apply Z.eqb_neq; lia).
    rewrite Hne24. replace (e + 149 - 149) with e by lia.
    assert (Hle : (e <=? 104) = true) by (apply Z.leb_le; lia).
    by rewrite Hle, Pos2Z.id.
Qed.

Lemma proper32_cases (x : spec_float) :
  proper32 x = true →
  (∃ s, x = S754_zero s)
  ∨ (∃ s m e, x = S754_finite s m e ∧ bounded 24 128 m e = true).
Proof.
  unfold proper32. destruct x as [s|s| |s m e]; cbn; try done.
  - intros _. left. by exists s.
  - rewrite andb_true_r. intros Hb. right. by exists s, m, e.
Qed.

Lemma cond_Zopp_mul (s : bool) (a c : Z) :
  cond_Zopp s (a * c) = cond_Zopp s a * c.
Proof. destruct s; cbn; lia. Qed.

Lemma units_sign (s : bool) (m : positive) (e : Z) :
  -149 ≤ e →
  if s then units (S754_finite s m e) < 0 else 0 < units (S754_finite s m e).
Proof.
  intros He. assert (0 < 2 ^ (e + 149)) by (apply Z.pow_pos_nonneg; lia).
  destruct s; cbn [units cond_Zopp]; nia.
Qed.

(** The difference of two finite numbers, scaled to the smaller
    exponent, is the integer that [SFsub] rounds. *)
Lemma aligned_difference (sx sy : bool) (mx my : positive) (ex ey : Z) :
  -149 ≤ ex → -149 ≤ ey →
  let ez := Z.min ex ey in
  (cond_Zopp sx (Z.pos (shl_align mx ex ez).1)
   - cond_Zopp sy (Z.pos (shl_align my ey ez).1)) * 2 ^ (ez + 149)
  = units (S754_finite sx mx ex) - units (S754_finite sy my ey).
Proof.
  intros Hex Hey ez.
  destruct (shl_align_spec mx ex ez) as (mx' & -> & Hmx).
  destruct (shl_align_spec my ey ez) as (my' & -> & Hmy).
  cbn [fst units]. rewrite Hmx, Hmy.
  replace (Z.min ex ez) with ez by lia. replace (Z.min ey ez) with ez by lia.
  rewrite !cond_Zopp_mul, Z.mul_sub_distr_r, <- !Z.mul_assoc.
  rewrite <- !Z.pow_add_r by lia.
  replace (ex - ez + (ez + 149)) with (ex + 149) by lia.
  replace (ey - ez + (ez + 149)) with (ey + 149) by lia.
  done.
Qed.

(** Subtraction rounds the exact difference to the nearest number. *)
Lemma SFsub_nearest (x y : spec_float) :
  proper32 x = true → proper32 y = true → units y < units x →
  SFsub 24 128 x y = nearest32 (units x - units y).
Proof.
  intros Hx Hy Hlt.
  destruct (proper32_cases x Hx) as [[sx ->]|(sx & mx & ex & -> & Hbx)];
    destruct (proper32_cases y Hy) as [[sy ->]|(sy & my & ey & -> & Hby)].
  - cbn in Hlt. lia.
  - pose proof (proj1 (bounded32 my ey) Hby) as (Hey & _).
    pose proof (units_sign sy my ey ltac:(lia)) as Hs.
    destruct sy; [|cbn [units] in *; lia].
    cbn [SFsub negb units cond_Zopp].
    replace (0 - - (Z.pos my * 2 ^ (ey + 149)))
      with (Z.pos my * 2 ^ (ey + 149)) by lia.
    symmetry. by apply nearest32_fixed.
  - pose proof (proj1 (bounded32 mx ex) Hbx) as (Hex & _).
    pose proof (units_sign sx mx ex ltac:(lia)) as Hs.
    destruct sx; [cbn [units] in *; lia|].
    cbn [SFsub units cond_Zopp]. rewrite Z.sub_0_r.
    symmetry. by apply nearest32_fixed.
  - pose proof (proj1 (bounded32 mx ex) Hbx) as (Hex & _).
    pose proof (proj1 (bounded32 my ey) Hby) as (Hey & _).
    pose proof (aligned_difference sx sy mx my ex ey ltac:(lia) ltac:(lia))
      as Hdiff. cbv zeta in Hdiff.
    cbn [SFsub]. cbv zeta.
    set (M := cond_Zopp sx _ - cond_Zopp sy _) in *.
    assert (0 < 2 ^ (Z.min ex ey + 149)) by (apply Z.pow_pos_nonneg; lia).
    destruct M as [|p|p]; [lia| |lia].
    cbn [binary_normalize]. rewrite binary_round_nearest by lia.
    by rewrite Hdiff.
Qed.

Lemma SFsub_equal (x y : spec_float) :
  proper32 x = true → proper32 y = true → units x = units y →
  ∃ s, SFsub 24 128 x y = S754_zero s.
Proof.
  intros Hx Hy Heq.
  destruct (proper32_cases x Hx) as [[sx ->]|(sx & mx & ex & -> & Hbx)];
    destruct (proper32_cases y Hy) as [[sy ->]|(sy & my & ey & -> & Hby)].
  - destruct sx, sy; by eexists.
  - pose proof (proj1 (bounded32 my ey) Hby) as (Hey & _).
    pose proof (units_sign sy my ey ltac:(lia)) as Hs.
    destruct sy; cbn [units] in *; lia.
  - pose proof (proj1 (bounded32 mx ex) Hbx) as (Hex & _).
    pose proof (units_sign sx mx ex ltac:(lia)) as Hs.
    destruct sx; cbn [units] in *; lia.
  - pose proof (proj1 (bounded32 mx ex) Hbx) as (Hex & _).
    pose proof (proj1 (bounded32 my ey) Hby) as (Hey & _).
    pose proof (aligned_difference sx sy mx my ex ey ltac:(lia) ltac:(lia))
      as Hdiff. cbv zeta in Hdiff.
    cbn [SFsub]. cbv zeta.
    set (M := cond_Zopp sx _ - cond_Zopp sy _) in *.
    assert (0 < 2 ^ (Z.min ex ey + 149)) by (apply Z.pow_pos_nonneg; lia).
    assert (M = 0) as -> by nia. by eexists.
Qed.

(** A number minus itself is [+0]. *)
Lemma SFsub_diag (x : spec_float) :
  finite32 x = true → SFsub 24 128 x x = S754_zero false.
Proof.
  destruct x as [[]|s| |s m e]; try done. intros _.
  cbn [SFsub]. cbv zeta. by rewrite Z.sub_diag.
Qed.

(** On canonical numbers the comparison is that of the values. *)
Lemma SFcompare_units (x y : spec_float) :
  proper32 x = true → proper32 y = true →
  SFcompare x y = Some (units x ?= units y).
Proof.
  intros Hx Hy.
  destruct (proper32_cases x Hx) as [[sx ->]|(sx & mx & ex & -> & Hbx)];
    destruct (proper32_cases y Hy) as [[sy ->]|(sy & my & ey & -> & Hby)].
  - done.
  - pose proof (proj1 (bounded32 my ey) Hby) as (Hey & _).
    pose proof (units_sign sy my ey ltac:(lia)) as Hs.
    cbn [SFcompare]. f_equal. symmetry.
    destruct sy; [apply Z.compare_gt_iff|apply Z.compare_lt_iff];
      cbn [units] in *; lia.
  - pose proof (proj1 (bounded32 mx ex) Hbx) as (Hex & _).
    pose proof (units_sign sx mx ex ltac:(lia)) as Hs.
    cbn [SFcompare]. f_equal. symmetry.
    destruct sx; [apply Z.compare_lt_iff|apply Z.compare_gt_iff];
      cbn [units] in *; lia.
  - pose proof (proj1 (bounded32 mx ex) Hbx) as (Hex & Hdx & Hcx).
    pose proof (proj1 (bounded32 my ey) Hby) as (Hey & Hdy & Hcy).
    pose proof (Zdigits2_bounds (Z.pos mx) ltac:(lia)) as [Hlx Hhx].
    pose proof (Zdigits2_bounds (Z.pos my) ltac:(lia)) as [Hly Hhy].
    assert (Hx24 : Z.pos mx < 2 ^ 24).
    { assert (2 ^ Zdigits2 (Z.pos mx) ≤ 2 ^ 24)
        by (apply Z.pow_le_mono_r; lia). lia. }
    assert (Hy24 : Z.pos my < 2 ^ 24).
    { assert (2 ^ Zdigits2 (Z.pos my) ≤ 2 ^ 24)
        by (apply Z.pow_le_mono_r; lia). lia. }
    assert (Hux : 0 < 2 ^ (ex + 149)) by (apply Z.pow_pos_nonneg; lia).
    assert (Huy : 0 < 2 ^ (ey + 149)) by (apply Z.pow_pos_nonneg; lia).
    (* the magnitudes compare as the exponents, then the mantissas *)
    assert (Hmag : match ex ?= ey with
                   | Lt => Lt
                   | Gt => Gt
                   | Eq => Pos.compare_cont Eq mx my
                   end
                   = (Z.pos mx * 2 ^ (ex + 149) ?= Z.pos my * 2 ^ (ey + 149))).
    { destruct (Z.compare_spec ex ey) as [->|Hlt|Hgt].
      - change (Pos.compare_cont Eq mx my) with (Z.pos mx ?= Z.pos my).
        destruct (Z.compare_spec (Z.pos mx) (Z.pos my)) as [Heq|Hlt|Hgt];
          symmetry.
        + apply Z.compare_eq_iff. by rewrite Heq.
        + apply Z.compare_lt_iff. nia.
        + apply Z.compare_gt_iff. nia.
      - symmetry. apply Z.compare_lt_iff.
        destruct Hcy as [Hd24|]; [|lia]. rewrite Hd24 in Hly.
        change (2 ^ (24 - 1)) with (2 ^ 23) in Hly.
        assert (2 ^ (ex + 149 + 1) ≤ 2 ^ (ey + 149))
          by (apply Z.pow_le_mono_r; lia).
        rewrite Z.pow_add_r in * by lia. nia.
      - symmetry. apply Z.compare_gt_iff.
        destruct Hcx as [Hd24|]; [|lia]. rewrite Hd24 in Hlx.
        change (2 ^ (24 - 1)) with (2 ^ 23) in Hlx.
        assert (2 ^ (ey + 149 + 1) ≤ 2 ^ (ex + 149))
          by (apply Z.pow_le_mono_r; lia).
        rewrite Z.pow_add_r in * by lia. nia. }
    cbn [SFcompare units]. f_equal.
    destruct sx, sy; cbn [cond_Zopp].
    + rewrite Z.compare_opp, (Z.compare_antisym (Z.pos mx * _)), <- Hmag.
      by destruct (ex ?= ey).
    + symmetry. apply Z.compare_lt_iff. nia.
    + symmetry. apply Z.compare_gt_iff. nia.
    + exact Hmag.
Qed.

Lemma SFdiv_core_spec (m1 e1 m2 e2 : Z) :
  let e' := Z.min (fexp 24 128 (Zdigits2 m1 + e1 - (Zdigits2 m2 + e2)))
                  (e1 - e2) in
  let m' := match e1 - e2 - e' with
            | Z.pos _ => Z.shiftl m1 (e1 - e2 - e')
            | 0 => m1
            | Z.neg _ => 0
            end in
  SFdiv_core_binary 24 128 m1 e1 m2 e2
  = (m' / m2, e', new_location m2 (m' mod m2)).
Proof.
  intros e' m'. unfold SFdiv_core_binary. fold e'. fold m'.
  unfold Z.div, Z.modulo. by destruct (Z.div_eucl m' m2).
Qed.

Lemma new_location_exact (m : Z) : new_location m 0 = loc_Exact.
Proof.
  unfold new_location, new_location_even, new_location_odd.
  by destruct (Z.even m).
Qed.

(** A finite number divided by itself is 1. *)
Lemma SFdiv_diag (m : positive) (e : Z) :
  SFdiv 24 128 (S754_finite false m e) (S754_finite false m e) = one32.
Proof.
  cbn [SFdiv xorb]. rewrite SFdiv_core_spec. cbv zeta.
  rewrite !Z.sub_diag. change (Z.min (fexp 24 128 0) 0) with (-24).
  change (0 - -24) with 24. cbv iota.
  rewrite Z.shiftl_mul_pow2 by lia.
  rewrite (Z.mul_comm (Z.pos m)), Z.div_mul, Z.mod_mul by lia.
  rewrite new_location_exact. reflexivity.
Qed.

Lemma SFdiv_zero (s : bool) (m : positive) (e : Z) :
  SFdiv 24 128 (S754_zero s) (S754_finite false m e) = S754_zero s.
Proof. by destruct s. Qed.

Lemma round_nearest_even_bounds (m : Z) (l : location) :
  m ≤ round_nearest_even m l ≤ m + 1.
Proof. destruct l as [|[]]; cbn; try destruct (Z.even m); lia. Qed.

Lemma Zdigits2_upper (m : Z) : 0 ≤ m → m < 2 ^ Zdigits2 m.
Proof.
  intros Hm. destruct (decide (m = 0)) as [->|Hne]; [done|].
  apply Zdigits2_bounds. lia.
Qed.

Lemma Zdigits2_le (m d : Z) : 0 ≤ m → 0 ≤ d → m ≤ 2 ^ d → Zdigits2 m ≤ d + 1.
Proof.
  intros Hm Hd Hle. destruct (decide (m = 0)) as [->|Hne]; [cbn; lia|].
  pose proof (Zdigits2_bounds m ltac:(lia)) as [Hlo _].
  destruct (Z.le_gt_cases (Zdigits2 m) (d + 1)) as [|Hgt]; [done|].
  assert (Hle' : 2 ^ (d + 1) ≤ 2 ^ (Zdigits2 m - 1))
    by (apply Z.pow_le_mono_r; lia).
  rewrite (Z.pow_add_r 2 d) in Hle' by lia. lia.
Qed.

(** Rounding a quantity below 1 never gives more than 1. *)
Lemma binary_round_aux_below_one (q e' : Z) (l : location) :
  0 ≤ q → e' ≤ -24 → Zdigits2 q + e' ≤ 0 →
  let r := binary_round_aux 24 128 false q e' l in
  SFleb zero32 r = true ∧ SFleb r one32 = true.
Proof.
  intros Hq He HE. cbv zeta.
  unfold binary_round_aux, shr_fexp. rewrite fexp32.
  set (t := Z.max (Zdigits2 q + e' - 24) (-149)).
  assert (Hrec : ∃ r s, shr_record_of_loc q l = Build_shr_record q r s)
    by (destruct l as [|[]]; by eexists _, _).
  destruct Hrec as (r0 & s0 & ->).
  pose proof (shr_m_shr q r0 s0 e' (t - e') Hq) as [Hm1 He1].
  destruct (shr (Build_shr_record q r0 s0) e' (t - e')) as [mrs1 e1].
  cbn [fst snd] in Hm1, He1.
  set (n1 := Z.max (t - e') 0) in *.
  pose proof (round_nearest_even_bounds (shr_m mrs1) (loc_of_shr_record mrs1))
    as Hm2.
  set (m2 := round_nearest_even (shr_m mrs1) (loc_of_shr_record mrs1)) in *.
  rewrite Hm1 in Hm2.
  assert (Hp1 : 0 < 2 ^ n1) by (apply Z.pow_pos_nonneg; lia).
  assert (Hq1 : 0 ≤ q / 2 ^ n1) by (apply Z.div_pos; lia).
  pose proof (Zdigits2_nonneg q) as Hdq.
  (* the rounded mantissa stays below the next power of two *)
  set (w := Z.max (Zdigits2 q - n1) 0).
  assert (Hm2w : m2 ≤ 2 ^ w).
  { destruct (Z.le_gt_cases n1 (Zdigits2 q)) as [Hle|Hgt].
    - assert (q / 2 ^ n1 < 2 ^ (Zdigits2 q - n1)).
      { apply Z.div_lt_upper_bound; [done|].
        rewrite <- Z.pow_add_r by lia.
        replace (n1 + (Zdigits2 q - n1)) with (Zdigits2 q) by lia.
        by apply Zdigits2_upper. }
      unfold w. rewrite Z.max_l by lia. lia.
    - rewrite (Zdigits2_small q n1) in Hm2 by lia.
      unfold w. rewrite Z.max_r by lia. change (2 ^ 0) with 1. lia. }
  assert (Hw : w + e1 ≤ 0) by lia.
  assert (He1' : e1 ≤ -24) by lia.
  cbn [shr_record_of_loc]. rewrite fexp32.
  pose proof (shr_m_shr m2 false false e1
                (Z.max (Zdigits2 m2 + e1 - 24) (-149) - e1) ltac:(lia))
    as [Hm3 He2].
  destruct (shr (Build_shr_record m2 false false) e1
              (Z.max (Zdigits2 m2 + e1 - 24) (-149) - e1)) as [mrs2 e2].
  cbn [fst snd] in Hm3, He2.
  pose proof (Zdigits2_le m2 w ltac:(lia) ltac:(lia) Hm2w) as Hd2.
  set (n2 := Z.max (Z.max (Zdigits2 m2 + e1 - 24) (-149) - e1) 0) in *.
  assert (He2' : e2 ≤ -23) by lia.
  assert (Hp2 : 0 < 2 ^ n2) by (apply Z.pow_pos_nonneg; lia).
  assert (Hm3' : 0 ≤ shr_m mrs2) by (rewrite Hm3; apply Z.div_pos; lia).
  assert (Hone : e2 = -23 → shr_m mrs2 ≤ 2 ^ 23).
  { intros He23. rewrite Hm3.
    assert (Hwn : w ≤ n2 + 23) by lia.
    assert (Hle : 2 ^ w ≤ 2 ^ (n2 + 23)) by (apply Z.pow_le_mono_r; lia).
    rewrite (Z.pow_add_r 2 n2) in Hle by lia.
    apply Z.div_le_upper_bound; lia. }
  destruct (shr_m mrs2) as [|m3|m3]; [done| |lia].
  assert (Hfin : (e2 <=? 128 - 24) = true) by (apply Z.leb_le; lia).
  rewrite Hfin. split; [done|].
  unfold SFleb, one32. cbn [SFcompare].
  destruct (Z.compare_spec e2 (-23)) as [Heq|Hlt|Hgt]; [|done|lia].
  specialize (Hone Heq).
  change (Pos.compare_cont Eq m3 8388608) with (Z.pos m3 ?= 2 ^ 23).
  destruct (Z.compare_spec (Z.pos m3) (2 ^ 23)); [done|done|lia].
Qed.

(** A positive number divided by a larger one lies between 0 and 1. *)
Lemma SFdiv_below (mx md : positive) (ex ed : Z) :
  bounded 24 128 mx ex = true → bounded 24 128 md ed = true →
  Z.pos mx * 2 ^ (ex + 149) < Z.pos md * 2 ^ (ed + 149) →
  let r := SFdiv 24 128 (S754_finite false mx ex) (S754_finite false md ed) in
  SFleb zero32 r = true ∧ SFleb r one32 = true.
Proof.
  intros Hbx Hbd Hlt.
  apply bounded32 in Hbx as (Hex & Hdx & _).
  apply bounded32 in Hbd as (Hed & Hdd & _).
  pose proof (Zdigits2_bounds (Z.pos mx) ltac:(lia)) as [Hlx Hhx].
  pose proof (Zdigits2_bounds (Z.pos md) ltac:(lia)) as [Hld Hhd].
  pose proof (Zdigits2_pos (Z.pos mx) ltac:(lia)) as Hpx.
  pose proof (Zdigits2_pos (Z.pos md) ltac:(lia)) as Hpd.
  set (dx := Zdigits2 (Z.pos mx)) in *. set (dd := Zdigits2 (Z.pos md)) in *.
  assert (Hux : 0 < 2 ^ (ex + 149)) by (apply Z.pow_pos_nonneg; lia).
  assert (Hud : 0 < 2 ^ (ed + 149)) by (apply Z.pow_pos_nonneg; lia).
  (* the quotient is below 1, so its exponent is not positive *)
  assert (HD : dx + ex - (dd + ed) ≤ 0).
  { destruct (Z.le_gt_cases (dx + ex) (dd + ed)) as [|Hgt]; [lia|].
    assert (Hle : 2 ^ (dd + (ed + 149)) ≤ 2 ^ (dx - 1 + (ex + 149)))
      by (apply Z.pow_le_mono_r; lia).
    rewrite (Z.pow_add_r 2 dd), (Z.pow_add_r 2 (dx - 1)) in Hle by lia.
    nia. }
  cbv zeta. cbn [SFdiv xorb]. rewrite SFdiv_core_spec. cbv zeta.
  fold dx dd. rewrite fexp32.
  set (e' := Z.min (Z.max (dx + ex - (dd + ed) - 24) (-149)) (ex - ed)).
  assert (He' : e' ≤ -24) by lia.
  set (s := ex - ed - e').
  set (m' := match s with
             | Z.pos _ => Z.shiftl (Z.pos mx) s
             | 0 => Z.pos mx
             | Z.neg _ => 0
             end).
  assert (Hm' : 0 ≤ m' ∧ (0 < m' → 0 ≤ s ∧ m' = Z.pos mx * 2 ^ s)).
  { unfold m'. destruct s as [|p|p] eqn:Hs.
    - split; [lia|]. intros _. split; [lia|]. change (2 ^ 0) with 1. lia.
    - rewrite Z.shiftl_mul_pow2 by lia.
      assert (0 < 2 ^ Z.pos p) by (apply Z.pow_pos_nonneg; lia).
      split; [nia|]. intros _. split; [lia|done].
    - split; [lia|lia]. }
  destruct Hm' as [Hm0 Hm1].
  assert (Hq0 : 0 ≤ m' / Z.pos md) by (apply Z.div_pos; lia).
  apply binary_round_aux_below_one; [done|done|].
  destruct (decide (m' / Z.pos md = 0)) as [->|Hqne]; [cbn; lia|].
  assert (Hqpos : 0 < m' / Z.pos md) by lia.
  assert (Hmpos : 0 < m').
  { destruct (Z.le_gt_cases m' 0) as [Hle|]; [|done].
    assert (m' = 0) as Hz by lia. rewrite Hz, Z.div_0_l in Hqpos; lia. }
  destruct (Hm1 Hmpos) as [Hs ->].
  pose proof (Zdigits2_bounds _ Hqpos) as [Hlq _].
  set (q := Z.pos mx * 2 ^ s / Z.pos md) in *.
  destruct (Z.le_gt_cases (Zdigits2 q + e') 0) as [|Hgt]; [done|].
  exfalso.
  assert (Hqmd : q * Z.pos md ≤ Z.pos mx * 2 ^ s).
  { unfold q. rewrite Z.mul_comm. apply Z.mul_div_le. lia. }
  assert (Hbig : 2 ^ (- e') ≤ q).
  { assert (2 ^ (- e') ≤ 2 ^ (Zdigits2 q - 1))
      by (apply Z.pow_le_mono_r; lia). lia. }
  assert (Hexp : 2 ^ s * 2 ^ (ed + 149) = 2 ^ (ex + 149) * 2 ^ (- e')).
  { rewrite <- !Z.pow_add_r by lia. f_equal. unfold s. lia. }
  assert (0 < 2 ^ (- e')) by (apply Z.pow_pos_nonneg; lia).
  assert (0 < 2 ^ s) by (apply Z.pow_pos_nonneg; lia).
  assert (H1 : 2 ^ (- e') * Z.pos md * 2 ^ (ed + 149)
               ≤ Z.pos mx * 2 ^ s * 2 ^ (ed + 149)) by nia.
  rewrite <- (Z.mul_assoc (Z.pos mx)), Hexp in H1. nia.
Qed.

Lemma SFleb_units (x y : spec_float) :
  proper32 x = true → proper32 y = true →
  SFleb x y = (units x <=? units y).
Proof.
  intros Hx Hy. unfold SFleb, Z.leb. rewrite SFcompare_units by done.
  by destruct (units x ?= units y).
Qed.

Lemma SFeqb_units (x y : spec_float) :
  proper32 x = true → proper32 y = true →
  SFeqb x y = (units x =? units y).
Proof.
  intros Hx Hy. unfold SFeqb. rewrite SFcompare_units, Z.eqb_compare by done.
  by destruct (units x ?= units y).
Qed.

Lemma proper32_not_nan (x : spec_float) : proper32 x = true → is_nan x = false.
Proof. by destruct x. Qed.

Lemma proper32_finite (x : spec_float) :
  proper32 x = true → finite32 x = true.
Proof. unfold proper32. by intros [_ H]%andb_true_iff. Qed.

Lemma fold_minimum_32 (vs : list spec_float) : ∀ v : spec_float,
  Forall (λ x, proper32 x = true) (v :: vs) →
  let lo := fold_left (vminimum (Arith := Arith_binary32)) vs v in
  lo ∈ v :: vs ∧ ∀ x, x ∈ v :: vs → units lo ≤ units x.
Proof.
  induction vs as [|w vs IH]; intros v Hall; cbn [fold_left].
  - split; [by left|]. by intros x ->%list_elem_of_singleton.
  - apply Forall_cons in Hall as [Hv Hall].
    apply Forall_cons in Hall as [Hw Hall].
    cbn [vminimum Arith_binary32].
    rewrite (proper32_not_nan v Hv), orb_false_r, (SFleb_units v w Hv Hw).
    destruct (Z.leb_spec (units v) (units w)) as [Hle|Hgt].
    + destruct (IH v (Forall_cons_2 _ _ _ Hv Hall)) as [Hin Hmin].
      split.
      * apply elem_of_cons in Hin as [Hin|Hin]; rewrite !elem_of_cons; auto.
      * intros x Hx. rewrite !elem_of_cons in Hx.
        destruct Hx as [->|[->|Hx]].
        -- apply Hmin. by left.
        -- etrans; [apply Hmin; by left|done].
        -- apply Hmin. by right.
    + destruct (IH w (Forall_cons_2 _ _ _ Hw Hall)) as [Hin Hmin].
      split.
      * apply elem_of_cons in Hin as [Hin|Hin]; rewrite !elem_of_cons; auto.
      * intros x Hx. rewrite !elem_of_cons in Hx.
        destruct Hx as [->|[->|Hx]].
        -- etrans; [apply Hmin; by left|lia].
        -- apply Hmin. by left.
        -- apply Hmin. by right.
Qed.

Lemma fold_maximum_32 (vs : list spec_float) : ∀ v : spec_float,
  Forall (λ x, proper32 x = true) (v :: vs) →
  let hi := fold_left (vmaximum (Arith := Arith_binary32)) vs v in
  hi ∈ v :: vs ∧ ∀ x, x ∈ v :: vs → units x ≤ units hi.
Proof.
  induction vs as [|w vs IH]; intros v Hall; cbn [fold_left].
  - split; [by left|]. by intros x ->%list_elem_of_singleton.
  - apply Forall_cons in Hall as [Hv Hall].
    apply Forall_cons in Hall as [Hw Hall].
    cbn [vmaximum Arith_binary32].
    rewrite (proper32_not_nan v Hv), orb_false_r, (SFleb_units w v Hw Hv).
    destruct (Z.leb_spec (units w) (units v)) as [Hle|Hgt].
    + destruct (IH v (Forall_cons_2 _ _ _ Hv Hall)) as [Hin Hmax].
      split.
      * apply elem_of_cons in Hin as [Hin|Hin]; rewrite !elem_of_cons; auto.
      * intros x Hx. rewrite !elem_of_cons in Hx.
        destruct Hx as [->|[->|Hx]].
        -- apply Hmax. by left.
        -- etrans; [done|apply Hmax; by left].
        -- apply Hmax. by right.
    + destruct (IH w (Forall_cons_2 _ _ _ Hw Hall)) as [Hin Hmax].
      split.
      * apply elem_of_cons in Hin as [Hin|Hin]; rewrite !elem_of_cons; auto.
      * intros x Hx. rewrite !elem_of_cons in Hx.
        destruct Hx as [->|[->|Hx]].
        -- etrans; [|apply Hmax; by left]. lia.
        -- apply Hmax. by left.
        -- apply Hmax. by right.
Qed.

(** A proper number with a positive value is a positive finite number. *)
Lemma proper32_positive (x : spec_float) :
  proper32 x = true → 0 < units x →
  ∃ m e, x = S754_finite false m e ∧ bounded 24 128 m e = true.
Proof.
  intros Hx Hpos.
  destruct (proper32_cases x Hx) as [[s ->]|(s & m & e & -> & Hb)].
  - cbn in Hpos. lia.
  - pose proof (proj1 (bounded32 m e) Hb) as (He & _).
    pose proof (units_sign s m e ltac:(lia)) as Hs.
    destruct s; [lia|]. by exists m, e.
Qed.

(** The quotient of two rounded differences, the first not above the
    second, lies between 0 and 1. *)
Lemma rescaled_voxel (v lo hi : spec_float) :
  proper32 v = true → proper32 lo = true → proper32 hi = true →
  units lo ≤ units v ≤ units hi → units lo < units hi →
  finite32 (SFsub 24 128 hi lo) = true →
  let r := SFdiv 24 128 (SFsub 24 128 v lo) (SFsub 24 128 hi lo) in
  SFleb zero32 r = true ∧ SFleb r one32 = true.
Proof.
  intros Hv Hlo Hhi Hbetween Hrange Hfin. cbv zeta.
  rewrite (SFsub_nearest hi lo Hhi Hlo Hrange) in Hfin |- *.
  set (Nd := units hi - units lo) in *.
  destruct (nearest32_finite Nd ltac:(lia)) as [Hfd Hpd].
  rewrite Hfd in Hfin. apply Z.leb_le in Hfin.
  destruct (Hpd Hfin) as (Hd & Hud & Hdpos).
  destruct (proper32_positive _ Hd ltac:(lia)) as (md & ed & Hde & Hbd).
  destruct (decide (units v = units lo)) as [Heq|Hne].
  - destruct (SFsub_equal v lo Hv Hlo Heq) as [s ->].
    rewrite Hde, SFdiv_zero. by destruct s.
  - rewrite (SFsub_nearest v lo Hv Hlo ltac:(lia)).
    set (Nv := units v - units lo) in *.
    destruct (nearest_mono Nv Nd ltac:(lia)) as [Hmu Hme].
    destruct (nearest32_finite Nv ltac:(lia)) as [_ Hpv].
    destruct (Hpv ltac:(lia)) as (Hx & Hux & Hxpos).
    destruct (proper32_positive _ Hx ltac:(lia)) as (mx & ex & Hxe & Hbx).
    rewrite Hxe, Hde in *. cbn [units cond_Zopp] in Hux, Hud.
    destruct (decide (nearest_units Nv = nearest_units Nd)) as [Hsame|Hless].
    + assert (S754_finite false mx ex = S754_finite false md ed) as ->.
      { rewrite <- (nearest32_fixed mx ex Hbx), <- (nearest32_fixed md ed Hbd).
        by rewrite Hux, Hud, Hsame. }
      by rewrite SFdiv_diag.
    + apply SFdiv_below; [done|done|lia].
Qed.

(** A finite difference of two numbers in order is a positive number. *)
Lemma range32_positive (lo hi : spec_float) :
  proper32 lo = true → proper32 hi = true → units lo < units hi →
  finite32 (SFsub 24 128 hi lo) = true →
  ∃ m e, SFsub 24 128 hi lo = S754_finite false m e
         ∧ bounded 24 128 m e = true.
Proof.
  intros Hlo Hhi Hrange Hfin.
  rewrite (SFsub_nearest hi lo Hhi Hlo Hrange) in Hfin |- *.
  destruct (nearest32_finite (units hi - units lo) ltac:(lia)) as [Hfd Hpd].
  rewrite Hfd in Hfin. apply Z.leb_le in Hfin.
  destruct (Hpd Hfin) as (Hd & Hud & Hdpos).
  apply proper32_positive; [done|lia].
Qed.

(** C9, as amended: a non-empty volume of finite binary32 voxels.  If its
    minimum equals its maximum, the rescaled volume has the same shape and
    is [+0] everywhere.  Otherwise, if [max - min] does not overflow, the
    rescaled volume is [(v - min) / (max - min)] elementwise, every entry
    lies between 0 and 1, and 0 and 1 are both entries: its minimum is
    exactly 0 and its maximum exactly 1.  ([add_data] appends the result
    of [normalise] for each of the two image volumes.) *)
Theorem normalise_binary32 (data : ndarray spec_float) :
  elems data ≠ [] →
  Forall (λ v, proper32 v = true) (elems data) →
  ∃ lo hi scaled,
    amin (Arith0 := Arith_binary32) data = Ok lo
    ∧ amax (Arith0 := Arith_binary32) data = Ok hi
    ∧ normalise (Arith0 := Arith_binary32) data = Ok scaled
    ∧ shape scaled = shape data
    ∧ length (elems scaled) = length (elems data)
    ∧ (SFeqb lo hi = true → ∀ r, r ∈ elems scaled → r = zero32)
    ∧ (SFeqb lo hi = false → finite32 (SFsub 24 128 hi lo) = true →
       elems scaled
       = map (λ v, SFdiv 24 128 (SFsub 24 128 v lo) (SFsub 24 128 hi lo))
             (elems data)
       ∧ (∀ r, r ∈ elems scaled →
            SFleb zero32 r = true ∧ SFleb r one32 = true)
       ∧ zero32 ∈ elems scaled ∧ one32 ∈ elems scaled).
Proof.
  intros Hne Hall. destruct (elems data) as [|v vs] eqn:Hel; [done|].
  destruct (fold_minimum_32 vs v Hall) as [Hlo_in Hlo].
  destruct (fold_maximum_32 vs v Hall) as [Hhi_in Hhi].
  set (lo := fold_left vminimum vs v) in *.
  set (hi := fold_left vmaximum vs v) in *.
  assert (Hmin : amin (Arith0 := Arith_binary32) data = Ok lo)
    by (unfold amin; by rewrite Hel).
  assert (Hmax : amax (Arith0 := Arith_binary32) data = Ok hi)
    by (unfold amax; by rewrite Hel).
  rewrite Forall_forall in Hall.
  assert (Hplo : proper32 lo = true) by (by apply Hall).
  assert (Hphi : proper32 hi = true) by (by apply Hall).
  unfold normalise. rewrite Hmin, Hmax. cbn [veqb Arith_binary32].
  destruct (SFeqb lo hi) eqn:Heq.
  - exists lo, hi, (arr_sub (Arith0 := Arith_binary32) data data).
    split; [done|]. split; [done|]. split; [done|]. split; [done|].
    split; [cbn [arr_sub elems]; rewrite length_zip_with, Hel; lia|].
    split; [|intros H; congruence]. intros _ r Hr.
    cbn [arr_sub elems] in Hr.
    apply elem_of_lookup_zip_with in Hr as (i & a & b & -> & Ha & Hb).
    assert (a = b) as -> by congruence.
    rewrite Hel in Hb. apply list_elem_of_lookup_2 in Hb.
    cbn [vsub Arith_binary32]. apply SFsub_diag, proper32_finite. by apply Hall.
  - eexists lo, hi, _. split; [done|]. split; [done|].
    split; [reflexivity|]. split; [done|].
    split; [cbn [arr_div_scalar arr_sub_scalar elems];
            by rewrite !length_map, Hel|].
    split; [intros H; congruence|]. intros _ Hfin.
    rewrite SFeqb_units in Heq by done. apply Z.eqb_neq in Heq.
    assert (Hrange : units lo < units hi).
    { pose proof (Hlo hi Hhi_in). lia. }
    cbn [arr_div_scalar arr_sub_scalar elems shape vsub vdiv Arith_binary32].
    rewrite Hel, map_map. split; [done|]. split; [|split].
    + intros r Hr. apply list_elem_of_fmap in Hr as (w & -> & Hw).
      apply rescaled_voxel; [by apply Hall|done|done| |done|done].
      split; [by apply Hlo|by apply Hhi].
    + destruct (range32_positive lo hi Hplo Hphi Hrange Hfin)
        as (md & ed & Hd & _).
      apply list_elem_of_fmap. exists lo. split; [|done].
      rewrite (SFsub_diag lo) by (by apply proper32_finite).
      by rewrite Hd.
    + destruct (range32_positive lo hi Hplo Hphi Hrange Hfin)
        as (md & ed & Hd & _).
      apply list_elem_of_fmap. exists hi. split; [|done].
      by rewrite Hd, SFdiv_diag.
Qed.

Lemma normalise_binary32_witness :
  ∃ lo hi scaled,
    amin (Arith0 := Arith_binary32) ramp32 = Ok lo
    ∧ amax (Arith0 := Arith_binary32) ramp32 = Ok hi
    ∧ normalise (Arith0 := Arith_binary32) ramp32 = Ok scaled
    ∧ shape scaled = shape ramp32
    ∧ length (elems scaled) = length (elems ramp32)
    ∧ (SFeqb lo hi = true → ∀ r, r ∈ elems scaled → r = zero32)
    ∧ (SFeqb lo hi = false → finite32 (SFsub 24 128 hi lo) = true →
       elems scaled
       = map (λ v, SFdiv 24 128 (SFsub 24 128 v lo) (SFsub 24 128 hi lo))
             (elems ramp32)
       ∧ (∀ r, r ∈ elems scaled →
            SFleb zero32 r = true ∧ SFleb r one32 = true)
       ∧ zero32 ∈ elems scaled ∧ one32 ∈ elems scaled).
Proof.
  apply (normalise_binary32 ramp32); [done|].
  repeat constructor.
Defined.

(** The volume with values from 2 to 10 is rescaled to 0, 1/8, ..., 3/4, 1,
    all exact in binary32. *)
Example normalise_ramp32 :
  normalise (Arith0 := Arith_binary32) ramp32
  = Ok (mk_ndarray [2; 2; 2]%nat
          [zero32; S754_finite false 8388608 (-26);
           S754_finite false 8388608 (-25); S754_finite false 12582912 (-25);
           S754_finite false 8388608 (-24); S754_finite false 10485760 (-24);
           S754_finite false 12582912 (-24); one32]).
Proof. vm_compute. reflexivity. Qed.

(** C9 as stated fails in binary32.  On the volume [-max, 0, max] the
    minimum differs from the maximum, [max - min] overflows to infinity
    and the rescaled volume is [0, 0, NaN]: its maximum is not 1.  On a
    constant infinite volume the minimum equals the maximum and the
    rescaled volume is NaN everywhere, not zero. *)
Lemma normalise_binary32_counterexample :
  (amin (Arith0 := Arith_binary32) wide32 = Ok (SFopp max32)
   ∧ amax (Arith0 := Arith_binary32) wide32 = Ok max32
   ∧ SFeqb (SFopp max32) max32 = false
   ∧ normalise (Arith0 := Arith_binary32) wide32
     = Ok (mk_ndarray [1; 1; 3]%nat [zero32; zero32; S754_nan]))
  ∧ (amin (Arith0 := Arith_binary32) infinite32 = Ok (S754_infinity false)
     ∧ amax (Arith0 := Arith_binary32) infinite32 = Ok (S754_infinity false)
     ∧ SFeqb (S754_infinity false) (S754_infinity false) = true
     ∧ normalise (Arith0 := Arith_binary32) infinite32
       = Ok (mk_ndarray [1; 1; 2]%nat [S754_nan; S754_nan])).
Proof. repeat split; vm_compute; reflexivity. Qed.

(** C4, on a cube: with [permute] set, loading a subject whose volumes are
    2 x 2 x 2 cubes raises [UnboundLocalError] instead of permuting the
    volumes and appending the sample. *)
Theorem add_data_permute_cube :
  shape ramp = [2; 2; 2]%nat
  ∧ add_data (Arith0 := Arith_Q) (Externals0 := Externals_id)
             seven_subjects seven_subjects (Plain 4)
             false true None PatchNone true true empty_heap
    = (empty_heap, Raise (UnboundLocalError "data")).
Proof. split; reflexivity. Qed.

(** On a volume that is not a cube the same exception is raised, not the
    [ValueError] of the shape test. *)
Example add_data_permute_block :
  add_data (Arith0 := Arith_Q) (Externals0 := Externals_id)
           block_subject block_subject (Plain 0)
           false true None PatchNone true true empty_heap
  = (empty_heap, Raise (UnboundLocalError "data")).
Proof. reflexivity. Qed.

(** ** Assembling a batch *)

Lemma asarray_uniform {T} (l : list (ndarray T)) (sh : list nat) :
  l ≠ [] → Forall (λ a, shape a = sh) l →
  asarray l = Ok (mk_ndarray (length l :: sh) (concat (map elems l))).
Proof.
  intros Hne Hall. destruct l as [|a l]; [done|].
  unfold asarray. pose proof (Forall_inv Hall) as Ha. cbv beta in Ha.
  rewrite Ha.
  assert (Hall' : forallb (λ b, bool_decide (shape b = sh)) (a :: l) = true).
  { apply forallb_forall. intros b Hb. apply bool_decide_eq_true_2.
    rewrite Forall_forall in Hall. apply Hall. by apply list_elem_of_In. }
  by rewrite Hall'.
Qed.

Lemma binarise_lookup (a : ndarray Z) (i : nat) (v : Z) :
  elems a !! i = Some v →
  elems (binarise a) !! i = Some (if decide (0 < v) then 1 else v)
  ∧ shape (binarise a) = shape a.
Proof.
  intros Hv. split; [|done]. cbn [binarise elems].
  rewrite list_lookup_fmap, Hv. cbn.
  destruct (decide (0 < v)) as [Hpos|Hneg].
  - apply Z.ltb_lt in Hpos. by rewrite Hpos.
  - apply Z.ltb_nlt in Hneg. by rewrite Hneg.
Qed.

Section Assembling.
Context {voxel : Type}.
Implicit Types (xs : x_lists voxel) (ys : y_lists).

(** With one label, the batch is the stacked lists with both truth
    arrays binarised. *)
Lemma convert_data_one_label xs ys labels x0 x1 y1 y2 :
  asarray (x_0 xs) = Ok x0 → asarray (x_1 xs) = Ok x1 →
  asarray (y_1 ys) = Ok y1 → asarray (y_2 ys) = Ok y2 →
  convert_data xs ys 1 labels
  = Ok ([x0; x1], PyList [asarray_ints (y_0 ys); binarise y1; binarise y2]).
Proof.
  intros Hx0 Hx1 Hy1 Hy2. unfold convert_data.
  by rewrite Hx0, Hx1, Hy1, Hy2.
Qed.

(** With more than one label, [convert_data] hands the list of three
    arrays to [get_multi_class_labels], which raises: no batch is ever
    returned. *)
Lemma convert_data_multi_class_never xs ys n_labels labels (b : batch) :
  1 < n_labels → convert_data xs ys n_labels labels ≠ Ok b.
Proof.
  intros Hn. unfold convert_data.
  destruct (asarray (x_0 xs)); [|done]. destruct (asarray (x_1 xs)); [|done].
  destruct (asarray (y_1 ys)); [|done]. destruct (asarray (y_2 ys)); [|done].
  assert (H1 : (n_labels =? 1) = false) by (apply Z.eqb_neq; lia).
  assert (H2 : (1 <? n_labels) = true) by (apply Z.ltb_lt; lia).
  rewrite H1, H2. done.
Qed.

Lemma convert_data_multi_class_raises xs ys n_labels labels x0 x1 y1 y2 :
  asarray (x_0 xs) = Ok x0 → asarray (x_1 xs) = Ok x1 →
  asarray (y_1 ys) = Ok y1 → asarray (y_2 ys) = Ok y2 →
  1 < n_labels →
  convert_data xs ys n_labels labels
  = Raise (AttributeError "'list' object has no attribute 'shape'").
Proof.
  intros Hx0 Hx1 Hy1 Hy2 Hn. unfold convert_data.
  rewrite Hx0, Hx1, Hy1, Hy2.
  assert (H1 : (n_labels =? 1) = false) by (apply Z.eqb_neq; lia).
  assert (H2 : (1 <? n_labels) = true) by (apply Z.ltb_lt; lia).
  rewrite H1, H2. done.
Qed.

(** With fewer than one label the arrays are returned as stacked. *)
Lemma convert_data_no_label xs ys n_labels labels x0 x1 y1 y2 :
  asarray (x_0 xs) = Ok x0 → asarray (x_1 xs) = Ok x1 →
  asarray (y_1 ys) = Ok y1 → asarray (y_2 ys) = Ok y2 →
  n_labels < 1 →
  convert_data xs ys n_labels labels
  = Ok ([x0; x1], PyList [asarray_ints (y_0 ys); y1; y2]).
Proof.
  intros Hx0 Hx1 Hy1 Hy2 Hn. unfold convert_data.
  rewrite Hx0, Hx1, Hy1, Hy2.
  assert (H1 : (n_labels =? 1) = false) by (apply Z.eqb_neq; lia).
  assert (H2 : (1 <? n_labels) = false) by (apply Z.ltb_ge; lia).
  rewrite H1, H2. done.
Qed.

End Assembling.

(** C6, with two labels: the accumulated sample has a label map with the
    values 0, 1 and 2; instead of the two encoded arrays of shape
    (1, 2, 2, 2, 2), [convert_data] raises [AttributeError]. *)
Theorem convert_data_two_labels :
  convert_data (mk_x [ramp] [ramp])
               (mk_y [1] [newaxis lesion] [newaxis lesion]) 2 (Some [1; 2])
  = Raise (AttributeError "'list' object has no attribute 'shape'").
Proof. reflexivity. Qed.

(** With one label the positive voxels of both truth arrays become 1. *)
Example convert_data_binarises :
  convert_data (mk_x [ramp] [ramp])
               (mk_y [1] [newaxis lesion] [newaxis lesion]) 1 None
  = Ok ([mk_ndarray [1; 2; 2; 2]%nat (elems ramp);
         mk_ndarray [1; 2; 2; 2]%nat (elems ramp)],
        PyList [mk_ndarray [1%nat] [1];
                mk_ndarray [1; 1; 2; 2; 2]%nat [0; 0; 1; 0; 0; 1; 0; 0];
                mk_ndarray [1; 1; 2; 2; 2]%nat [0; 0; 1; 0; 0; 1; 0; 0]]).
Proof. reflexivity. Qed.

(** Given the array itself, the encoder does what its documentation says:
    channel 0 marks the voxels equal to 1 and channel 1 those equal to 2. *)
Example get_multi_class_labels_array :
  get_multi_class_labels
    (PyArray (mk_ndarray [1; 1; 2; 2; 2]%nat [0; 0; 1; 0; 0; 2; 0; 0]))
    2 (Some [1; 2])
  = Ok (mk_ndarray [1; 2; 2; 2; 2]%nat
          [0; 0; 1; 0; 0; 0; 0; 0;   0; 0; 0; 0; 0; 1; 0; 0]).
Proof. reflexivity. Qed.

(** *** The encoder on an array *)

Lemma getitem_nat {A} (l : list A) (k : nat) (x : A) :
  l !! k = Some x → getitem l (Z.of_nat k) = Ok x.
Proof.
  intros Hk. pose proof (lookup_lt_Some _ _ _ Hk) as Hlt.
  unfold getitem.
  assert (H1 : (Z.of_nat k <? 0) = false) by (apply Z.ltb_ge; lia).
  assert (H2 : (Z.of_nat (length l) <=? Z.of_nat k) = false)
    by (apply Z.leb_gt; lia).
  rewrite H1. cbv zeta. rewrite H1, H2. cbn [orb].
  by rewrite Nat2Z.id, Hk.
Qed.

Section Encoding.
Variables (data : ndarray Z) (labels : option (list Z)).
Variables (n n_labels c size : nat).

(** The loop over [todo] channels from [label_index] on writes 1 where
    channel 0 of the source holds the value of the channel and leaves the
    rest of [y] as it was. *)
Lemma label_loop_spec (todo : nat) : ∀ (label_index : nat) (y : ndarray Z),
  (∀ k, (k < label_index + todo)%nat → ∃ t, target_label labels k = Ok t) →
  ∃ y',
    label_loop todo label_index labels n_labels c size data y = Ok y'
    ∧ shape y' = shape y
    ∧ length (elems y') = length (elems y)
    ∧ ∀ p v, elems y !! p = Some v →
        let channel := ((p mod (n_labels * size)) / size)%nat in
        let source :=
          elems data !! ((p / (n_labels * size)) * (c * size)
                         + (p mod (n_labels * size)) mod size)%nat in
        elems y' !! p =
          Some (if decide (label_index ≤ channel < label_index + todo)%nat
                then match source, target_label labels channel with
                     | Some d, Ok t => if decide (d = t) then 1 else v
                     | _, _ => v
                     end
                else v).
Proof.
  induction todo as [|todo IH]; intros label_index y Htargets.
  - exists y. repeat split; try done. intros p v Hp. cbv zeta.
    rewrite decide_False by lia. done.
  - cbn [label_loop].
    destruct (Htargets label_index ltac:(lia)) as [t Ht]. rewrite Ht.
    set (y1 := set_channel_where y data n_labels c size label_index t).
    destruct (IH (S label_index) y1) as (y' & Hrun & Hshape & Hlen & Hval).
    { intros k Hk. apply Htargets. lia. }
    exists y'. split; [done|]. split; [done|].
    split; [by rewrite Hlen; unfold y1; cbn; rewrite length_imap|].
    intros p v Hp. cbv zeta.
    set (channel := ((p mod (n_labels * size)) / size)%nat).
    set (source := elems data !! _).
    assert (Hy1 : elems y1 !! p
                  = Some (if (channel =? label_index)%nat
                          then match source with
                               | Some d => if d =? t then 1 else v
                               | None => v
                               end
                          else v)).
    { unfold y1. cbn [set_channel_where elems].
      rewrite list_lookup_imap, Hp. done. }
    rewrite (Hval p _ Hy1). cbv zeta. fold channel. fold source.
    f_equal.
    destruct (decide (channel = label_index)) as [Heq|Hneq].
    + rewrite decide_False by lia. rewrite decide_True by lia.
      apply Nat.eqb_eq in Heq as Heqb. rewrite Heqb. rewrite Heq, Ht.
      destruct source as [d|]; [|done].
      destruct (decide (d = t)) as [->|Hd].
      * by rewrite Z.eqb_refl.
      * apply Z.eqb_neq in Hd. by rewrite Hd.
    + apply Nat.eqb_neq in Hneq as Hneqb. rewrite Hneqb.
      destruct (decide (S label_index ≤ channel < S label_index + todo)%nat).
      * rewrite decide_True by lia. done.
      * rewrite decide_False by lia. done.
Qed.
End Encoding.

Lemma product_cons (d : nat) (dims : list nat) :
  product (d :: dims) = (d * product dims)%nat.
Proof. reflexivity. Qed.

(** Given an array of shape (n, c, ...) with at least one channel,
    [get_multi_class_labels] returns an array of shape (n, n_labels, ...)
    whose channel [k] is 1 exactly where channel 0 of the source holds the
    value that [k] stands for, and 0 elsewhere. *)
Lemma get_multi_class_labels_spec (data : ndarray Z) (n c : nat)
    (spatial : list nat) (n_labels : Z) (labels : option (list Z)) :
  shape data = n :: S c :: spatial →
  length (elems data) = product (shape data) →
  0 < n_labels →
  (∀ k, (k < Z.to_nat n_labels)%nat → ∃ t, target_label labels k = Ok t) →
  ∃ y,
    get_multi_class_labels (PyArray data) n_labels labels = Ok y
    ∧ shape y = n :: Z.to_nat n_labels :: spatial
    ∧ length (elems y) = product (shape y)
    ∧ ∀ sample k j t,
        (sample < n)%nat → (k < Z.to_nat n_labels)%nat →
        (j < product spatial)%nat → target_label labels k = Ok t →
        ∃ d,
          elems data !! (sample * (S c * product spatial) + j)%nat = Some d
          ∧ elems y !! ((sample * Z.to_nat n_labels + k) * product spatial
                        + j)%nat
            = Some (if decide (d = t) then 1 else 0).
Proof.
  intros Hshape Hwf Hpos Htargets.
  set (L := Z.to_nat n_labels) in *. set (size := product spatial).
  unfold get_multi_class_labels. rewrite getitem_first, Hshape.
  assert (H1 : (n_labels <? 0) = false) by (apply Z.ltb_ge; lia).
  assert (H2 : (0 <? n_labels) = true) by (apply Z.ltb_lt; lia).
  rewrite H1, H2. cbn [drop]. fold L size.
  destruct (label_loop_spec data labels L (S c) size L 0
              (zeros (n :: L :: spatial)))
    as (y & Hrun & Hsh & Hlen & Hval).
  { intros k Hk. apply Htargets. lia. }
  exists y. split; [done|]. split; [done|].
  assert (Htotal : length (elems (zeros (n :: L :: spatial)))
                   = (n * (L * size))%nat).
  { cbn [zeros elems]. rewrite length_replicate, !product_cons. done. }
  split.
  { rewrite Hlen, Hsh, Htotal. cbn [zeros shape].
    by rewrite !product_cons. }
  intros sample k j t Hsample Hk Hj Ht.
  assert (Hsize : (0 < size)%nat) by lia.
  assert (Hd : is_Some (elems data !! (sample * (S c * size) + j)%nat)).
  { apply lookup_lt_is_Some. rewrite Hwf, Hshape, !product_cons.
    fold size. nia. }
  destruct Hd as [d Hd]. exists d. split; [done|].
  set (p := ((sample * L + k) * size + j)%nat).
  assert (Hrow : (sample * L + k + 1 ≤ n * L)%nat) by nia.
  assert (Hp : (p < n * (L * size))%nat).
  { unfold p.
    pose proof (Nat.mul_le_mono_r _ _ size Hrow) as Hmul. lia. }
  assert (Hzero : elems (zeros (n :: L :: spatial)) !! p = Some 0).
  { cbn [zeros elems]. apply lookup_replicate_2.
    rewrite !product_cons. fold size. done. }
  assert (Hinner : (k * size + j < L * size)%nat) by nia.
  assert (Hq : (p / (L * size) = sample)%nat).
  { symmetry. apply (Nat.div_unique p (L * size) sample (k * size + j));
      [done|unfold p; lia]. }
  assert (Hr : (p mod (L * size) = k * size + j)%nat).
  { symmetry. apply (Nat.mod_unique p (L * size) sample (k * size + j));
      [done|unfold p; lia]. }
  assert (Hch : ((k * size + j) / size = k)%nat).
  { symmetry. apply (Nat.div_unique _ size k j); [done|lia]. }
  assert (Hj' : ((k * size + j) mod size = j)%nat).
  { symmetry. apply (Nat.mod_unique _ size k j); [done|lia]. }
  rewrite (Hval p 0 Hzero). cbv zeta.
  rewrite Hq, Hr, Hch, Hj', Hd, Ht.
  rewrite decide_True by lia. done.
Qed.

(** ** The generator *)

Lemma pop_snoc {A} (l : list A) (x : A) : pop (l ++ [x]) = Ok (x, l).
Proof. unfold pop. by rewrite last_snoc, removelast_last. Qed.

Section Generating.
Context {voxel affine : Type} `{!Arith voxel} `{!Externals voxel affine}.
Variable a : generator_args (voxel := voxel) (affine := affine).
Implicit Types (h : heap voxel) (w : list index) (g : @generator voxel).

(** More fuel does not change what a run returns. *)
Lemma run_mono fuel : ∀ fuel' pt w h r,
  run a fuel pt w h = Some r → (fuel ≤ fuel')%nat →
  run a fuel' pt w h = Some r.
Proof.
  induction fuel as [|fuel IH]; intros fuel' pt w h r Hrun Hle; [done|].
  destruct fuel' as [|fuel']; [lia|].
  assert (Hle' : (fuel ≤ fuel')%nat) by lia.
  cbn [run] in Hrun |- *. destruct pt.
  - destruct (truthy (patch_shape a)); [done|].
    destruct (shuffle_index_list a); [|by eauto].
    destruct (in_sys _ _) as [h1 [w1|e]]; [by eauto|done].
  - destruct (0 <? length w)%nat; [|by eauto].
    destruct (pop w) as [[index w1]|e]; [|done].
    destruct (add_data _ _ _ _ _ _ _ _ _ _) as [h1 [[]|e]]; [|done].
    destruct (_ || _); [done|by eauto].
  - by eauto.
Qed.

Lemma next_mono fuel fuel' g r :
  next a fuel g = Some r → (fuel ≤ fuel')%nat → next a fuel' g = Some r.
Proof.
  unfold next. destruct (position_of g); eauto using run_mono.
Qed.

(** With more than one label no run ever reaches a [yield]: whatever the
    index list and the files, [next] raises or goes on for ever. *)
Lemma run_multi_class_never fuel : ∀ pt w h g (b : batch),
  1 < n_labels a → run a fuel pt w h ≠ Some (g, Ok b).
Proof.
  induction fuel as [|fuel IH]; intros pt w h g b Hn; [done|].
  cbn [run]. destruct pt.
  - destruct (truthy (patch_shape a)); [done|].
    destruct (shuffle_index_list a); [|by apply IH].
    destruct (in_sys _ _) as [h1 [w1|e]]; [by apply IH|done].
  - destruct (0 <? length w)%nat; [|by apply IH].
    destruct (pop w) as [[index w1]|e]; [|done].
    destruct (add_data _ _ _ _ _ _ _ _ _ _) as [h1 [[]|e]]; [|done].
    destruct (_ || _); [|by apply IH].
    destruct (convert_data _ _ _ _) as [b'|e] eqn:Hconv; [|done].
    by apply convert_data_multi_class_never in Hconv.
  - by apply IH.
Qed.

Lemma next_multi_class_never fuel g g' (b : batch) :
  1 < n_labels a → next a fuel g ≠ Some (g', Ok b).
Proof.
  intros Hn. unfold next.
  destruct (position_of g); [by apply run_multi_class_never..|done].
Qed.

Lemma pull_app fuel n m g rs g' rs' g'' :
  pull a fuel n g = Some (rs, g') →
  pull a fuel m g' = Some (rs', g'') →
  pull a fuel (n + m) g = Some (rs ++ rs', g'').
Proof.
  revert g rs. induction n as [|n IH]; intros g rs Hn Hm.
  - injection Hn as <- <-. exact Hm.
  - cbn [pull Nat.add] in Hn |- *.
    destruct (next a fuel g) as [[g1 r]|]; [|done].
    destruct (pull a fuel n g1) as [[rs1 g2]|] eqn:Hrest; [|done].
    injection Hn as <- <-. by rewrite (IH _ _ Hrest Hm).
Qed.

(** *** Batches of surviving samples, one label at most *)

Variables sd0 sd1 st0 st1 : list nat.
Hypothesis no_patch : truthy (patch_shape a) = false.
Hypothesis no_augment : augment a = false.
Hypothesis no_permute : permute a = false.
Hypothesis one_label : n_labels a ≤ 1.

Lemma add_data_survivor index h k :
  survives a sd0 sd1 st0 st1 index → filled k sd0 sd1 st0 st1 h →
  ∃ h', add_data (data_file0 a) (data_file1 a) index (augment a)
                 (augment_flip a) (augment_distortion_factor a)
                 (patch_shape a) (skip_blank a) (permute a) h
        = (h', Ok tt)
        ∧ filled (S k) sd0 sd1 st0 st1 h' ∧ process h' = process h.
Proof.
  intros (data0 & truth0 & data1 & truth1 & label & s & Hr0 & Hr1 & Hne0
          & Hne1 & Hsd0 & Hsd1 & Hst0 & Hst1 & Hkeep)
         (Hy0 & Hx0 & Hfx0 & Hx1 & Hfx1 & Hy1 & Hfy1 & Hy2 & Hfy2).
  pose proof (get_data_from_file_Ok_pure _ _ _ _ _ _ Hr0 (process h)) as Hp0.
  pose proof (get_data_from_file_Ok_pure _ _ _ _ _ _ Hr1 (process h)) as Hp1.
  rewrite no_augment, no_permute.
  rewrite (add_data_after_reads _ _ _ _ _ _ _ _ _ _ _ _ _ _ _ Hp0 Hp1).
  assert (Hcond : negb (skip_blank a)
                  || (any_nonzero truth0 || any_nonzero truth1) = true).
  { destruct Hkeep as [->|(v & [Hin|Hin] & Hv)]; [done|..].
    - assert (any_nonzero truth0 = true) as ->
        by (apply any_nonzero_true; eauto).
      by destruct (skip_blank a).
    - assert (any_nonzero truth1 = true) as ->
        by (apply any_nonzero_true; eauto).
      destruct (skip_blank a), (any_nonzero truth0); done. }
  rewrite Hcond.
  destruct (normalise_Ok data0 Hne0) as (n0 & Hn0 & Hs0 & _).
  destruct (normalise_Ok data1 Hne1) as (n1 & Hn1 & Hs1 & _).
  cbv beta iota zeta delta [mbind M_bind lift_result].
  rewrite Hn0, Hn1.
  eexists. split; [reflexivity|]. split; [|done].
  unfold filled. cbn [x_list y_list x_0 x_1 y_0 y_1 y_2].
  rewrite !length_app, !Forall_app, !Forall_singleton. cbn [length newaxis shape].
  repeat split; try lia; try done; congruence.
Qed.

Lemma convert_data_filled h k :
  filled k sd0 sd1 st0 st1 h → (0 < k)%nat →
  ∃ b, convert_data (x_list h) (y_list h) (n_labels a) (labels a) = Ok b
       ∧ leading_dims b = replicate 5 (Some k).
Proof.
  intros (Hy0 & Hx0 & Hfx0 & Hx1 & Hfx1 & Hy1 & Hfy1 & Hy2 & Hfy2) Hk.
  assert (Hne : ∀ {T} (l : list T), length l = k → l ≠ [])
    by (intros T [|? ?] Hl; [simpl in Hl; lia|done]).
  pose proof (asarray_uniform _ _ (Hne _ _ Hx0) Hfx0) as Ha0.
  pose proof (asarray_uniform _ _ (Hne _ _ Hx1) Hfx1) as Ha1.
  pose proof (asarray_uniform _ _ (Hne _ _ Hy1) Hfy1) as Hb1.
  pose proof (asarray_uniform _ _ (Hne _ _ Hy2) Hfy2) as Hb2.
  destruct (decide (n_labels a = 1)) as [H1|H1].
  - rewrite H1, (convert_data_one_label _ _ _ _ _ _ _ Ha0 Ha1 Hb1 Hb2).
    eexists. split; [reflexivity|].
    cbn. by rewrite Hx0, Hx1, Hy0, Hy1, Hy2.
  - rewrite (convert_data_no_label _ _ _ _ _ _ _ _ Ha0 Ha1 Hb1 Hb2)
      by lia.
    eexists. split; [reflexivity|].
    cbn. by rewrite Hx0, Hx1, Hy0, Hy1, Hy2.
Qed.

(** The inner loop pops the last [chunk] of the working list and yields
    when the accumulators reach the batch size or the list is used up. *)
Lemma run_chunk chunk : ∀ rest h k fuel,
  chunk ≠ [] →
  Forall (survives a sd0 sd1 st0 st1) chunk →
  filled k sd0 sd1 st0 st1 h →
  (length chunk ≤ fuel)%nat →
  Z.of_nat (k + length chunk) = batch_size a
    ∨ (rest = [] ∧ Z.of_nat (k + length chunk) < batch_size a) →
  ∃ h' b,
    run a fuel InnerLoop (rest ++ chunk) h
      = Some (mk_gen Suspended rest h', Ok b)
    ∧ leading_dims b = replicate 5 (Some (k + length chunk)%nat)
    ∧ filled (k + length chunk) sd0 sd1 st0 st1 h'
    ∧ process h' = process h.
Proof.
  induction chunk as [|index chunk IH] using rev_ind;
    intros rest h k fuel Hne Hall Hfilled Hfuel Hsize; [done|].
  apply Forall_app in Hall as [Hall Hindex].
  apply Forall_inv in Hindex.
  rewrite length_app in Hfuel, Hsize |- *. cbn [length] in Hfuel, Hsize |- *.
  destruct fuel as [|fuel]; [lia|].
  cbn [run]. rewrite app_assoc, pop_snoc.
  assert (Hpos : (0 <? length ((rest ++ chunk) ++ [index]))%nat = true).
  { apply Nat.ltb_lt. rewrite length_app. simpl. lia. }
  rewrite Hpos.
  destruct (add_data_survivor index h k Hindex Hfilled)
    as (h1 & Hadd & Hfilled1 & Hproc1).
  rewrite Hadd.
  pose proof Hfilled1 as (Hy0 & _). rewrite Hy0.
  destruct (decide (chunk = [])) as [->|Hmore].
  - (* the last pop of the chunk: the batch is due *)
    rewrite app_nil_r. cbn [length] in *.
    assert (Hdue : (Z.of_nat (S k) =? batch_size a)
                   || ((length rest =? 0)%nat && (0 <? Z.of_nat (S k)))
                   = true).
    { destruct Hsize as [Hfull|[-> Hshort]].
      - replace (k + (0 + 1))%nat with (S k) in Hfull by lia.
        apply Z.eqb_eq in Hfull. by rewrite Hfull.
      - cbn. assert (H0 : (0 <? Z.of_nat (S k)) = true)
          by (apply Z.ltb_lt; lia).
        rewrite H0. apply orb_true_r. }
    rewrite Hdue.
    destruct (convert_data_filled h1 (S k) Hfilled1 ltac:(lia))
      as (b & Hconv & Hdims).
    rewrite Hconv. exists h1, b.
    replace (k + (0 + 1))%nat with (S k) by lia. done.
  - (* more of the chunk is left: no batch yet *)
    assert (Hlen : (0 < length chunk)%nat)
      by (destruct chunk; [done|simpl; lia]).
    assert (Hnot : (Z.of_nat (S k) =? batch_size a)
                   || ((length (rest ++ chunk) =? 0)%nat
                       && (0 <? Z.of_nat (S k)))
                   = false).
    { assert (H1 : (Z.of_nat (S k) =? batch_size a) = false)
        by (apply Z.eqb_neq; lia).
      assert (H2 : (length (rest ++ chunk) =? 0)%nat = false).
      { apply Nat.eqb_neq. rewrite !length_app. lia. }
      by rewrite H1, H2. }
    rewrite Hnot.
    destruct (IH rest h1 (S k) fuel) as (h' & b & Hrun & Hdims & Hf & Hp).
    + done.
    + done.
    + done.
    + lia.
    + replace (S k + length chunk)%nat
        with (k + (length chunk + 1))%nat by lia.
      done.
    + exists h', b. rewrite Hrun.
      replace (k + (length chunk + 1))%nat
        with (S k + length chunk)%nat by lia.
      rewrite Hp, Hproc1. done.
Qed.

Lemma filled_reset h : filled 0 sd0 sd1 st0 st1 (reset_lists h).
Proof. unfold filled, reset_lists. cbn. repeat split; by constructor. Qed.

(** From an empty batch, a working list at least as long as the batch
    size gives a full batch and loses its last [batch_size] entries. *)
Lemma run_inner_full w h fuel (size : nat) :
  filled 0 sd0 sd1 st0 st1 h →
  Forall (survives a sd0 sd1 st0 st1) w →
  batch_size a = Z.of_nat size → (0 < size ≤ length w)%nat →
  (size ≤ fuel)%nat →
  ∃ h' b,
    run a fuel InnerLoop w h
      = Some (mk_gen Suspended (take (length w - size) w) h', Ok b)
    ∧ leading_dims b = replicate 5 (Some size)
    ∧ process h' = process h.
Proof.
  intros Hfilled Hall Hsize Hlen Hfuel.
  assert (Hdrop : length (drop (length w - size) w) = size)
    by (rewrite length_drop; lia).
  destruct (run_chunk (drop (length w - size) w)
              (take (length w - size) w) h 0 fuel)
    as (h' & b & Hrun & Hdims & _ & Hproc).
  - intros Hnil. rewrite Hnil in Hdrop. simpl in Hdrop. lia.
  - by apply Forall_drop.
  - done.
  - lia.
  - left. rewrite Hdrop. cbn. lia.
  - exists h', b. rewrite Hdrop in Hdims. rewrite take_drop in Hrun. done.
Qed.

(** A shorter working list gives one batch of all its entries. *)
Lemma run_inner_short w h fuel :
  filled 0 sd0 sd1 st0 st1 h →
  Forall (survives a sd0 sd1 st0 st1) w →
  w ≠ [] → Z.of_nat (length w) < batch_size a →
  (length w ≤ fuel)%nat →
  ∃ h' b,
    run a fuel InnerLoop w h = Some (mk_gen Suspended [] h', Ok b)
    ∧ leading_dims b = replicate 5 (Some (length w))
    ∧ process h' = process h.
Proof.
  intros Hfilled Hall Hne Hlen Hfuel.
  destruct (run_chunk w [] h 0 fuel Hne Hall Hfilled Hfuel)
    as (h' & b & Hrun & Hdims & _ & Hproc).
  - right. split; [done|]. cbn. lia.
  - exists h', b. done.
Qed.

(** *** Seven indices in batches of three *)

Hypothesis batch_of_three : batch_size a = 3.
Hypothesis seven_indices : length (orig_index_list a) = 7%nat.
Hypothesis all_survive :
  Forall (survives a sd0 sd1 st0 st1) (orig_index_list a).

(** The body from the top of the outer loop: the first batch of an
    epoch. *)
Lemma run_epoch_first w0 h0 fuel :
  (4 ≤ fuel)%nat →
  ∃ w h' b,
    run a fuel OuterLoop w0 h0 = Some (mk_gen Suspended w h', Ok b)
    ∧ leading_dims b = replicate 5 (Some 3%nat)
    ∧ length w = 4%nat ∧ Forall (survives a sd0 sd1 st0 st1) w
    ∧ stdout (process h') = stdout (process h0).
Proof.
  intros Hfuel. destruct fuel as [|fuel]; [lia|].
  cbn [run]. rewrite no_patch.
  assert (Hgo : ∀ w h, w ≡ₚ orig_index_list a →
            filled 0 sd0 sd1 st0 st1 h →
            ∃ h' b,
              run a fuel InnerLoop w h
                = Some (mk_gen Suspended (take 4 w) h', Ok b)
              ∧ leading_dims b = replicate 5 (Some 3%nat)
              ∧ length (take 4 w) = 4%nat
              ∧ Forall (survives a sd0 sd1 st0 st1) (take 4 w)
              ∧ process h' = process h).
  { intros w h Hperm Hfilled.
    assert (Hlen : length w = 7%nat)
      by (rewrite (Permutation_length Hperm); exact seven_indices).
    assert (Hall : Forall (survives a sd0 sd1 st0 st1) w)
      by (by rewrite Hperm).
    destruct (run_inner_full w h fuel 3 Hfilled Hall batch_of_three)
      as (h' & b & Hrun & Hdims & Hproc); [lia..|].
    rewrite Hlen in Hrun. exists h', b.
    repeat split; try done.
    - rewrite length_take. lia.
    - by apply Forall_take. }
  destruct (shuffle_index_list a).
  - unfold in_sys, zoom.
    destruct (shuffle_spec (orig_index_list a) (process (reset_lists h0)))
      as (w & s' & Hsh & Hperm & Hout & _).
    rewrite Hsh.
    destruct (Hgo w (mk_heap s' (x_list (reset_lists h0))
                             (y_list (reset_lists h0))) Hperm)
      as (h' & b & Hrun & Hdims & Hlen & Hall & Hproc).
    { apply (filled_reset (mk_heap s' (x_list h0) (y_list h0))). }
    exists (take 4 w), h', b. rewrite Hproc. cbn [process].
    rewrite Hout. done.
  - destruct (Hgo (orig_index_list a) (reset_lists h0)
                (reflexivity _) (filled_reset h0))
      as (h' & b & Hrun & Hdims & Hlen & Hall & Hproc).
    exists (take 4 (orig_index_list a)), h', b. rewrite Hproc. done.
Qed.

(** One epoch from its boundary: three calls of [next] return batches
    of 3, 3 and 1 samples and leave the generator at the next boundary,
    having printed nothing. *)
Lemma pull_epoch g fuel :
  (6 ≤ fuel)%nat →
  position_of g = NotStarted
    ∨ (position_of g = Suspended ∧ index_list g = []) →
  ∃ b1 b2 b3 g',
    pull a fuel 3 g = Some ([Ok b1; Ok b2; Ok b3], g')
    ∧ map leading_dims [b1; b2; b3]
      = [replicate 5 (Some 3%nat); replicate 5 (Some 3%nat);
         replicate 5 (Some 1%nat)]
    ∧ position_of g' = Suspended ∧ index_list g' = []
    ∧ stdout (process (heap_of g')) = stdout (process (heap_of g)).
Proof.
  intros Hfuel Hboundary.
  assert (Hfirst : ∃ w h1 b1,
            next a fuel g = Some (mk_gen Suspended w h1, Ok b1)
            ∧ leading_dims b1 = replicate 5 (Some 3%nat)
            ∧ length w = 4%nat ∧ Forall (survives a sd0 sd1 st0 st1) w
            ∧ stdout (process h1) = stdout (process (heap_of g))).
  { unfold next. destruct Hboundary as [->|[-> Hnil]].
    - apply run_epoch_first. lia.
    - rewrite Hnil.
      destruct fuel as [|[|fuel]]; [lia..|]. cbn [run length Nat.ltb Nat.leb].
      destruct (run_epoch_first [] (reset_lists (heap_of g)) fuel
                  ltac:(lia)) as (w & h1 & b1 & Hrun & Hrest).
      exists w, h1, b1. done. }
  destruct Hfirst as (w1 & h1 & b1 & Hn1 & Hd1 & Hl1 & Ha1 & Ho1).
  (* the second batch *)
  destruct fuel as [|fuel]; [lia|].
  destruct (run_inner_full w1 (reset_lists h1) fuel 3 (filled_reset h1)
              Ha1 batch_of_three)
    as (h2 & b2 & Hn2 & Hd2 & Ho2); [lia..|].
  rewrite Hl1 in Hn2.
  set (w2 := take (4 - 3) w1) in *.
  assert (Hl2 : length w2 = 1%nat) by (unfold w2; rewrite length_take; lia).
  assert (Ha2 : Forall (survives a sd0 sd1 st0 st1) w2)
    by (by apply Forall_take).
  (* the third batch *)
  destruct (run_inner_short w2 (reset_lists h2) fuel (filled_reset h2) Ha2)
    as (h3 & b3 & Hn3 & Hd3 & Ho3).
  { intros Hnil. rewrite Hnil in Hl2. done. }
  { rewrite Hl2, batch_of_three. lia. }
  { lia. }
  exists b1, b2, b3, (mk_gen Suspended [] h3).
  cbn [pull]. rewrite Hn1.
  unfold next at 1. cbn [position_of index_list heap_of run]. rewrite Hn2.
  unfold next at 1. cbn [position_of index_list heap_of run]. rewrite Hn3.
  cbn [map position_of index_list heap_of].
  rewrite Hd1, Hd2, Hd3, Hl2, Ho3. cbn [reset_lists process].
  rewrite Ho2. cbn [reset_lists process]. done.
Qed.

(** Epoch after epoch the same sizes come back: every call of [next]
    returns a batch, for as long as the caller asks. *)
Lemma pull_epochs (n : nat) (s : sys) :
  ∃ bs g',
    pull a 6 (3 * n) (data_generator a s) = Some (map Ok bs, g')
    ∧ map leading_dims bs
      = mjoin (replicate n [replicate 5 (Some 3%nat);
                            replicate 5 (Some 3%nat);
                            replicate 5 (Some 1%nat)])
    ∧ stdout (process (heap_of g')) = stdout s.
Proof.
  assert (Hgen : ∀ g,
    position_of g = NotStarted
      ∨ (position_of g = Suspended ∧ index_list g = []) →
    ∃ bs g',
      pull a 6 (3 * n) g = Some (map Ok bs, g')
      ∧ map leading_dims bs
        = mjoin (replicate n [replicate 5 (Some 3%nat);
                              replicate 5 (Some 3%nat);
                              replicate 5 (Some 1%nat)])
      ∧ (position_of g' = NotStarted
           ∨ (position_of g' = Suspended ∧ index_list g' = []))
      ∧ stdout (process (heap_of g')) = stdout (process (heap_of g))).
  { induction n as [|n IH]; intros g Hg.
    - exists [], g. done.
    - destruct (pull_epoch g 6 ltac:(lia) Hg)
        as (b1 & b2 & b3 & g1 & Hp1 & Hd1 & Hpos1 & Hnil1 & Ho1).
      destruct (IH g1 (or_intror (conj Hpos1 Hnil1)))
        as (bs & g' & Hp & Hd & Hb & Ho).
      exists ([b1; b2; b3] ++ bs), g'.
      replace (3 * S n)%nat with (3 + 3 * n)%nat by lia.
      rewrite map_app, (pull_app 6 3 (3 * n) g _ g1 _ g' Hp1 Hp).
      split; [done|]. split; [|split; [done|by rewrite Ho, Ho1]].
      rewrite map_app, Hd, Hd1. done. }
  destruct (Hgen (data_generator a s) (or_introl eq_refl))
    as (bs & g' & Hp & Hd & _ & Ho).
  exists bs, g'. done.
Qed.

End Generating.

(** *** The seven subjects *)

Ltac survivor :=
  do 5 eexists; exists quiet;
  split; [reflexivity|]; split; [reflexivity|];
  split; [discriminate|]; split; [discriminate|];
  do 4 (split; [reflexivity|]);
  right; exists 2; split; [|lia]; left;
  apply list_elem_of_In; vm_compute; tauto.

Lemma seven_survive (n_labels : Z) :
  Forall (survives (Externals0 := Externals_id) (seven_args n_labels)
            [2; 2; 2]%nat [2; 2; 2]%nat [2; 2; 2]%nat [2; 2; 2]%nat)
         (orig_index_list (seven_args n_labels)).
Proof. repeat (constructor; [survivor|]). constructor. Qed.

(** C5, with two labels: the index list has seven entries, the batch size
    is 3, no patch shape is set and every index gives a sample that passes
    the blank filter; the first call of [next] raises [AttributeError]
    when the first three samples are to be assembled, and the generator is
    closed: it yields no batch, then or later. *)
Theorem data_generator_two_labels :
  length (orig_index_list (seven_args 2)) = 7%nat
  ∧ batch_size (seven_args 2) = 3
  ∧ patch_shape (seven_args 2) = PatchNone
  ∧ Forall (survives (Externals0 := Externals_id) (seven_args 2)
              [2; 2; 2]%nat [2; 2; 2]%nat [2; 2; 2]%nat [2; 2; 2]%nat)
           (orig_index_list (seven_args 2))
  ∧ (∃ g, pull (Arith0 := Arith_Q) (Externals0 := Externals_id)
               (seven_args 2) 6 2 (data_generator (seven_args 2) quiet)
          = Some ([Raise (AttributeError
                            "'list' object has no attribute 'shape'");
                   Raise StopIteration], g)
          ∧ position_of g = Closed
          ∧ length (y_0 (y_list (heap_of g))) = 3%nat).
Proof.
  split; [reflexivity|]. split; [reflexivity|]. split; [reflexivity|].
  split; [apply seven_survive|].
  eexists. split; [vm_compute; reflexivity|]. split; reflexivity.
Qed.

(** With one label the same seven subjects come in batches of 3, 3 and 1,
    epoch after epoch. *)
Lemma seven_in_batches (n : nat) :
  ∃ bs g,
    pull (Arith0 := Arith_Q) (Externals0 := Externals_id)
         (seven_args 1) 6 (3 * n) (data_generator (seven_args 1) quiet)
      = Some (map Ok bs, g)
    ∧ map leading_dims bs
      = mjoin (replicate n [replicate 5 (Some 3%nat);
                            replicate 5 (Some 3%nat);
                            replicate 5 (Some 1%nat)]).
Proof.
  destruct (pull_epochs (Arith0 := Arith_Q) (Externals0 := Externals_id)
              (seven_args 1) [2; 2; 2]%nat [2; 2; 2]%nat [2; 2; 2]%nat
              [2; 2; 2]%nat eq_refl eq_refl eq_refl ltac:(simpl; lia)
              eq_refl eq_refl (seven_survive 1) n quiet)
    as (bs & g & Hpull & Hdims & _).
  exists bs, g. done.
Qed.

Example seven_first_epoch :
  match pull (Arith0 := Arith_Q) (Externals0 := Externals_id)
             (seven_args 1) 6 4 (data_generator (seven_args 1) quiet) with
  | Some (rs, g) =>
      map (result_map leading_dims) rs
      = [Ok (replicate 5 (Some 3%nat)); Ok (replicate 5 (Some 3%nat));
         Ok (replicate 5 (Some 1%nat)); Ok (replicate 5 (Some 3%nat))]
      ∧ index_list g = map Plain [0; 1; 2; 3]
  | None => False
  end.
Proof. vm_compute. done. Qed.

(** * Further properties *)

(** ** The step calculator, beyond its three cases *)

(** X1: for a non-negative count and a positive batch size the steps
    always cover the samples and never outnumber them, but they are the
    least covering number only when there is at most one sample or more
    samples than a batch holds: for 1 < n <= b the result is n although
    one batch is enough. *)
Theorem get_number_of_steps_covers (n_samples batch_size : Z) :
  0 ≤ n_samples → 0 < batch_size →
  ∃ steps,
    get_number_of_steps n_samples batch_size = Ok steps
    ∧ n_samples ≤ batch_size * steps
    ∧ steps ≤ n_samples
    ∧ (batch_size * (steps - 1) < n_samples
       ↔ n_samples ≤ 1 ∨ batch_size < n_samples).
Proof.
  intros Hn Hb. unfold get_number_of_steps, np_remainder, floordiv.
  assert (Hb0 : (batch_size =? 0) = false) by (apply Z.eqb_neq; lia).
  rewrite Hb0.
  destruct (n_samples <=? batch_size) eqn:Hle.
  - apply Z.leb_le in Hle. exists n_samples. split; [done|]. nia.
  - apply Z.leb_gt in Hle.
    pose proof (Z.div_mod n_samples batch_size ltac:(lia)) as Hdm.
    pose proof (Z.mod_pos_bound n_samples batch_size Hb) as Hbound.
    assert (Hq : 1 ≤ n_samples / batch_size)
      by (apply Z.div_le_lower_bound; lia).
    destruct (n_samples mod batch_size =? 0) eqn:Hmod.
    + apply Z.eqb_eq in Hmod. eexists. split; [done|]. nia.
    + apply Z.eqb_neq in Hmod. eexists. split; [done|]. nia.
Qed.

Lemma get_number_of_steps_covers_witness :
  ∃ steps, get_number_of_steps 2 3 = Ok steps ∧ steps = 2
           ∧ ¬ (3 * (steps - 1) < 2).
Proof.
  destruct (get_number_of_steps_covers 2 3 ltac:(lia) ltac:(lia))
    as (steps & Hrun & _ & Hle & Hiff).
  exists steps. split; [exact Hrun|].
  assert (Hsteps : steps = 2) by (vm_compute in Hrun; congruence).
  split; [exact Hsteps|]. rewrite Hsteps. lia.
Defined.

(** X2: a batch size that is not positive is never refused as such.  For
    a positive count, zero raises [ZeroDivisionError] from the division,
    and a negative batch size returns a step count that is zero or
    negative. *)
Theorem get_number_of_steps_bad_batch (n_samples batch_size : Z) :
  0 < n_samples → batch_size ≤ 0 →
  (batch_size = 0 →
     get_number_of_steps n_samples batch_size = Raise ZeroDivisionError)
  ∧ (batch_size < 0 →
     ∃ steps, get_number_of_steps n_samples batch_size = Ok steps
              ∧ steps ≤ 0).
Proof.
  intros Hn Hb. unfold get_number_of_steps, np_remainder, floordiv.
  assert (Hle : (n_samples <=? batch_size) = false) by (apply Z.leb_gt; lia).
  rewrite Hle. split.
  - intros ->. done.
  - intros Hneg.
    assert (Hb0 : (batch_size =? 0) = false) by (apply Z.eqb_neq; lia).
    rewrite Hb0.
    pose proof (Z.div_mod n_samples batch_size ltac:(lia)) as Hdm.
    pose proof (Z.mod_neg_bound n_samples batch_size Hneg) as Hbound.
    destruct (n_samples mod batch_size =? 0) eqn:Hmod.
    + apply Z.eqb_eq in Hmod. eexists. split; [done|]. nia.
    + apply Z.eqb_neq in Hmod. eexists. split; [done|]. nia.
Qed.

Lemma get_number_of_steps_bad_batch_witness :
  get_number_of_steps 10 0 = Raise ZeroDivisionError
  ∧ ∃ steps, get_number_of_steps 10 (-3) = Ok steps ∧ steps ≤ 0.
Proof.
  split.
  - apply (proj1 (get_number_of_steps_bad_batch 10 0 ltac:(lia) ltac:(lia))).
    reflexivity.
  - apply (proj2 (get_number_of_steps_bad_batch 10 (-3)
                    ltac:(lia) ltac:(lia))).
    lia.
Defined.

(** ** The split: what is stored, and what comes back *)

(** A created split in full: the lists returned, the line printed and the
    two files written. *)
Lemma get_validation_split_created {D} (data_file : D)
    (training_file validation_file : string) (data_split : Q)
    (overwrite : bool) (s : sys) :
  overwrite = true ∨ files s !! training_file = None →
  ∃ training_list s',
    get_validation_split data_file training_file validation_file
                         data_split overwrite s
      = (s', Ok (training_list, range 10 30 ++ range 52 72 ++ range 249 269))
    ∧ training_list ≡ₚ
        range 0 10 ++ range 30 42 ++ range 42 52 ++ range 72 239 ++ [238]
          ++ list_mul (range 239 249) 5 ++ list_mul (range 269 299) 5
    ∧ stdout s' = stdout s ++ ["Creating validation split..."]
    ∧ files s'
      = <[validation_file := range 10 30 ++ range 52 72 ++ range 249 269]>
          (<[training_file := training_list]> (files s)).
Proof.
  intros Hcreate.
  assert (Hcond : overwrite
                  || negb (bool_decide (is_Some (files s !! training_file)))
                  = true).
  { destruct Hcreate as [->|Hnone]; [done|].
    rewrite Hnone. rewrite bool_decide_eq_false_2; [by destruct overwrite|].
    by intros [? ?]. }
  unfold get_validation_split.
  cbv beta iota zeta delta [mbind M_bind path_exists].
  rewrite Hcond.
  assert (Hlast : getitem (range 72 239) (-1) = Ok 238) by (by vm_compute).
  cbv beta iota zeta delta [print lift_result]. rewrite Hlast.
  match goal with
  | |- context [shuffle ?l ?s0] =>
      destruct (shuffle_spec l s0)
        as (training & s1 & Hrun & Hperm & Hout & Hfiles);
      rewrite Hrun
  end.
  eexists training, _. split; [|split; [|split]].
  - cbv beta iota zeta delta [pickle_dump mret M_ret]. reflexivity.
  - exact Hperm.
  - cbn [stdout]. exact Hout.
  - cbn [files]. by rewrite Hfiles.
Qed.

(** X3: a created split keeps the validation subjects out of training
    and leaves no subject out: no index is in both lists, and the indices
    in one list or the other are exactly 0 to 298.  The training list has
    400 entries, the validation list 60 without repeats. *)
Theorem get_validation_split_partition {D} (data_file : D)
    (training_file validation_file : string) (data_split : Q)
    (overwrite : bool) (s : sys) :
  overwrite = true ∨ files s !! training_file = None →
  ∃ training_list validation_list s',
    get_validation_split data_file training_file validation_file
                         data_split overwrite s
      = (s', Ok (training_list, validation_list))
    ∧ (∀ i, i ∈ training_list → i ∉ validation_list)
    ∧ (∀ i, i ∈ training_list ∨ i ∈ validation_list ↔ 0 ≤ i < 299)
    ∧ length training_list = 400%nat
    ∧ length validation_list = 60%nat
    ∧ NoDup validation_list.
Proof.
  intros Hcreate.
  destruct (get_validation_split_created data_file training_file
              validation_file data_split overwrite s Hcreate)
    as (training_list & s' & Hrun & Hperm & _ & _).
  set (validation := range 10 30 ++ range 52 72 ++ range 249 269) in *.
  set (training := range 0 10 ++ range 30 42 ++ range 42 52 ++ range 72 239
                     ++ [238] ++ list_mul (range 239 249) 5
                     ++ list_mul (range 269 299) 5) in *.
  exists training_list, validation, s'. split; [exact Hrun|].
  assert (Hdisjoint : Forall (λ i, i ∉ validation) training).
  { apply (bool_decide_unpack _). by vm_compute. }
  assert (Hcover : Forall (λ i, i ∈ training ∨ i ∈ validation) (seqZ 0 299)).
  { apply (bool_decide_unpack _). by vm_compute. }
  assert (Hbound : Forall (λ i, 0 ≤ i < 299) (training ++ validation)).
  { apply (bool_decide_unpack _). by vm_compute. }
  rewrite Forall_forall in Hdisjoint, Hcover, Hbound.
  split; [|split; [|split; [|split]]].
  - intros i Hi. apply Hdisjoint. by rewrite <- Hperm.
  - intros i. rewrite Hperm. split.
    + intros Hin. apply Hbound. apply elem_of_app. exact Hin.
    + intros Hi. apply Hcover. apply elem_of_seqZ. lia.
  - rewrite (Permutation_length Hperm). by vm_compute.
  - by vm_compute.
  - apply (bool_decide_unpack _). by vm_compute.
Qed.

Lemma get_validation_split_partition_witness :
  files quiet !! "training.pkl" = None
  ∧ ∃ training_list validation_list s',
      get_validation_split tt "training.pkl" "validation.pkl" (4 # 5)%Q
                           false quiet
        = (s', Ok (training_list, validation_list))
      ∧ (∀ i, i ∈ training_list → i ∉ validation_list)
      ∧ length training_list = 400%nat.
Proof.
  split; [reflexivity|].
  destruct (get_validation_split_partition tt "training.pkl" "validation.pkl"
              (4 # 5)%Q false quiet (or_intror eq_refl))
    as (training_list & validation_list & s' & Hrun & Hdisjoint & _ & Hlen & _).
  exists training_list, validation_list, s'. auto.
Defined.

(** X4: the split persists.  After any call that returned, a call with
    [overwrite] off on the same two distinct paths returns the same two
    lists; it prints the loading line, draws no random number and writes
    no file, whatever data file and [data_split] it is given. *)
Theorem get_validation_split_reloads {D D'} (data_file : D) (data_file' : D')
    (training_file validation_file : string) (data_split data_split' : Q)
    (overwrite : bool) (s s1 : sys) (training_list validation_list : list Z) :
  training_file ≠ validation_file →
  get_validation_split data_file training_file validation_file
                       data_split overwrite s
    = (s1, Ok (training_list, validation_list)) →
  get_validation_split data_file' training_file validation_file
                       data_split' false s1
  = (mk_sys (stdout s1 ++ ["Loading previous validation split..."])
            (rand s1) (files s1),
     Ok (training_list, validation_list)).
Proof.
  intros Hpaths Hfirst.
  assert (Hstored : files s1 !! training_file = Some training_list
                    ∧ files s1 !! validation_file = Some validation_list).
  { destruct (decide (overwrite = true ∨ files s !! training_file = None))
      as [Hcreate|Hload].
    - destruct (get_validation_split_created data_file training_file
                  validation_file data_split overwrite s Hcreate)
        as (tr & s' & Hrun & _ & _ & Hfiles).
      rewrite Hrun in Hfirst.
      assert (Hs : s' = s1) by congruence.
      assert (Ht : tr = training_list) by congruence.
      assert (Hv : range 10 30 ++ range 52 72 ++ range 249 269
                   = validation_list) by congruence.
      rewrite <- Hs, <- Ht, <- Hv, Hfiles. split.
      + rewrite lookup_insert_ne by done. apply lookup_insert_eq.
      + apply lookup_insert_eq.
    - assert (overwrite = false) as -> by (destruct overwrite; tauto).
      destruct (files s !! training_file) as [tr|] eqn:Htr; [|tauto].
      revert Hfirst. unfold get_validation_split.
      cbv beta iota zeta delta [mbind M_bind path_exists print pickle_load
                                mret M_ret].
      cbn [files]. rewrite Htr.
      rewrite bool_decide_eq_true_2 by eauto. cbn [orb negb files].
      rewrite Htr. cbn [files].
      destruct (files s !! validation_file) as [va|] eqn:Hva; [|done].
      intros [= <- <- <-]. cbn [files]. done. }
  destruct Hstored as [Htr Hva].
  unfold get_validation_split.
  cbv beta iota zeta delta [mbind M_bind path_exists print pickle_load
                            mret M_ret].
  cbn [files]. rewrite Htr.
  rewrite bool_decide_eq_true_2 by eauto. cbn [orb negb files].
  rewrite Htr. cbn [files]. rewrite Hva. reflexivity.
Qed.

Lemma get_validation_split_reloads_witness :
  ∃ training_list validation_list s1,
    get_validation_split tt "training.pkl" "validation.pkl" (4 # 5)%Q
                         true quiet
      = (s1, Ok (training_list, validation_list))
    ∧ get_validation_split tt "training.pkl" "validation.pkl" (1 # 2)%Q
                           false s1
      = (mk_sys (stdout s1 ++ ["Loading previous validation split..."])
                (rand s1) (files s1),
         Ok (training_list, validation_list)).
Proof.
  destruct (get_validation_split_created tt "training.pkl" "validation.pkl"
              (4 # 5)%Q true quiet (or_introl eq_refl))
    as (training_list & s1 & Hrun & _).
  eexists training_list, _, s1. split; [exact Hrun|].
  apply (get_validation_split_reloads tt tt "training.pkl" "validation.pkl"
           (4 # 5)%Q (1 # 2)%Q true quiet s1 _ _ ltac:(discriminate) Hrun).
Defined.

(** X5: with one path for both files the training list is lost: the
    validation list is written over it, and a later load returns the
    validation list twice. *)
Theorem get_validation_split_same_path {D} (data_file : D) (path : string)
    (data_split : Q) (overwrite : bool) (s : sys) :
  overwrite = true ∨ files s !! path = None →
  ∃ training_list validation_list s1 s2,
    get_validation_split data_file path path data_split overwrite s
      = (s1, Ok (training_list, validation_list))
    ∧ get_validation_split data_file path path data_split false s1
      = (s2, Ok (validation_list, validation_list))
    ∧ length training_list = 400%nat ∧ length validation_list = 60%nat.
Proof.
  intros Hcreate.
  destruct (get_validation_split_created data_file path path data_split
              overwrite s Hcreate)
    as (training_list & s1 & Hrun & Hperm & _ & Hfiles).
  eexists training_list, _, s1, _. split; [exact Hrun|].
  split; [|split; [rewrite (Permutation_length Hperm)|]; by vm_compute].
  unfold get_validation_split.
  cbv beta iota zeta delta [mbind M_bind path_exists print pickle_load
                            mret M_ret].
  cbn [files]. rewrite Hfiles, !lookup_insert_eq.
  rewrite bool_decide_eq_true_2 by eauto. cbn [orb negb files].
  rewrite Hfiles, !lookup_insert_eq. cbn [files].
  rewrite ?Hfiles, ?lookup_insert_eq. reflexivity.
Qed.

Lemma get_validation_split_same_path_witness :
  ∃ training_list validation_list s1 s2,
    get_validation_split tt "keys.pkl" "keys.pkl" (4 # 5)%Q false quiet
      = (s1, Ok (training_list, validation_list))
    ∧ get_validation_split tt "keys.pkl" "keys.pkl" (4 # 5)%Q false s1
      = (s2, Ok (validation_list, validation_list))
    ∧ length training_list = 400%nat.
Proof.
  destruct (get_validation_split_same_path tt "keys.pkl" (4 # 5)%Q false
              quiet (or_intror eq_refl))
    as (training_list & validation_list & s1 & s2 & Hrun & Hload & Hlen & _).
  exists training_list, validation_list, s1, s2. auto.
Defined.

(** ** split_list *)

Section SplitListProps.
Context {F : Type}.
Variable int_of_product : nat → F → result Z.

(** X6: [split_list] never returns a split.  Whatever the list, the
    fraction and the flag, it ends in an exception and leaves the caller's
    list rearranged (untouched without the flag); when the size of the
    training part can be computed, the exception is that of the bare
    [raise], after one printed line showing the training part. *)
Theorem split_list_raises (split : F) (shuffle_list : bool) (s : sys)
    (input_list : list Z) :
  ∃ s' input_list' e,
    split_list int_of_product split shuffle_list (s, input_list)
      = ((s', input_list'), Raise e)
    ∧ input_list' ≡ₚ input_list
    ∧ (shuffle_list = false → input_list' = input_list)
    ∧ (∀ n_training,
         int_of_product (length input_list) split = Ok n_training →
         e = RuntimeError
         ∧ stdout s'
           = stdout s ++ [repr_list (slice_to input_list' n_training)]).
Proof.
  assert (Hrest : ∀ s1 l1, l1 ≡ₚ input_list → stdout s1 = stdout s →
    ∃ s' e,
      (input_list0 ← read_list;
       n_training ← lift_result (int_of_product (length input_list0) split);
       _ ← print_line (repr_list (slice_to input_list0 n_training));
       _ ← (raise RuntimeError : M (sys * list Z) unit);
       mret (slice_to input_list0 n_training,
             slice_from input_list0 n_training)) (s1, l1)
      = ((s', l1), Raise e)
      ∧ (∀ n_training,
           int_of_product (length input_list) split = Ok n_training →
           e = RuntimeError
           ∧ stdout s' = stdout s ++ [repr_list (slice_to l1 n_training)])).
  { intros s1 l1 Hperm Hout.
    cbv beta iota zeta delta [mbind M_bind read_list lift_result print_line
                              zoom print raise].
    cbn [fst snd]. rewrite (Permutation_length Hperm).
    destruct (int_of_product (length input_list) split) as [n|e].
    - eexists _, _. split; [reflexivity|].
      intros n' [= <-]. cbn [stdout]. by rewrite Hout.
    - eexists _, _. split; [reflexivity|]. done. }
  unfold split_list. destruct shuffle_list.
  - destruct (shuffle_spec input_list s) as (l1 & s1 & Hsh & Hperm & Hout & _).
    destruct (Hrest s1 l1 Hperm Hout) as (s' & e & Hrun & Hprint).
    exists s', l1, e. split; [|split; [done|split; [done|exact Hprint]]].
    unfold mbind at 1, M_bind at 1. unfold shuffle_in_place. cbn [fst snd].
    rewrite Hsh. exact Hrun.
  - destruct (Hrest s input_list (reflexivity _) eq_refl)
      as (s' & e & Hrun & Hprint).
    exists s', input_list, e.
    split; [exact Hrun|split; [done|split; [done|exact Hprint]]].
Qed.

End SplitListProps.

Example split_list_ten :
  split_list int_of_product_Q (4 # 5)%Q false (quiet, range 0 10)
  = ((mk_sys ["[0, 1, 2, 3, 4, 5, 6, 7]"] (rand quiet) (files quiet),
      range 0 10),
     Raise RuntimeError).
Proof. reflexivity. Qed.

(** ** Patch indices *)

Lemma subject_of_pairs (i : Z) (patches : list (list Z)) :
  map subject_of (map (Pair i) patches) = replicate (length patches) i.
Proof.
  induction patches as [|p ps IH]; [done|].
  cbn [map length replicate subject_of]. by rewrite IH.
Qed.

Section PatchProps.
Context `{!PatchExternals}.

Lemma patch_index_loop_fixed (index_list : list Z) (image_shape : list nat)
    (patch_shape : patch_shape_arg) (patch_overlap : Z)
    (patches : list (list Z)) :
  compute_patch_indices image_shape patch_shape patch_overlap None
    = Ok patches →
  ∀ (patch_index : list index) (s : sys),
    patch_index_loop index_list image_shape patch_shape patch_overlap None
                     patch_index s
    = (s, Ok (patch_index
              ++ flat_map (λ i, map (Pair i) patches) index_list)).
Proof.
  intros Hgrid. induction index_list as [|i rest IH]; intros acc s.
  - cbn. by rewrite app_nil_r.
  - cbn [patch_index_loop flat_map].
    unfold mbind, M_bind, patches_of, lift_result. rewrite Hgrid.
    rewrite IH. by rewrite <- app_assoc.
Qed.

(** X7: without a start offset, when the grid helper returns the offsets
    [patches], the patch index list is every subject paired with every
    offset, subjects in input order and offsets in the helper's order:
    its length is the product of the two lengths, and the process state
    is left alone. *)
Theorem create_patch_index_list_product (index_list : list Z)
    (image_shape : list nat) (patch_shape : patch_shape_arg)
    (patch_overlap : Z) (patches : list (list Z)) (s : sys) :
  compute_patch_indices image_shape patch_shape patch_overlap None
    = Ok patches →
  ∃ patch_index,
    create_patch_index_list index_list image_shape patch_shape
                            patch_overlap None s
      = (s, Ok patch_index)
    ∧ patch_index = flat_map (λ i, map (Pair i) patches) index_list
    ∧ length patch_index = (length index_list * length patches)%nat
    ∧ map subject_of patch_index
      = flat_map (λ i, replicate (length patches) i) index_list.
Proof.
  intros Hgrid. eexists. split.
  { unfold create_patch_index_list.
    rewrite (patch_index_loop_fixed _ _ _ _ _ Hgrid). reflexivity. }
  cbn [app]. split; [done|]. split.
  - induction index_list as [|i rest IH]; [done|].
    cbn [flat_map length]. rewrite length_app, length_map, IH. lia.
  - induction index_list as [|i rest IH]; [done|].
    cbn [flat_map]. by rewrite map_app, IH, subject_of_pairs.
Qed.

(** X8: with or without random start offsets, a patch index list that is
    returned keeps the subjects in input order, each with a run of its
    own pairs: its subjects are the input list with every entry repeated
    some number of times. *)
Theorem create_patch_index_list_grouped (index_list : list Z)
    (image_shape : list nat) (patch_shape : patch_shape_arg)
    (patch_overlap : Z) (patch_start_offset : option (list Z))
    (s s' : sys) (patch_index : list index) :
  create_patch_index_list index_list image_shape patch_shape patch_overlap
                          patch_start_offset s
    = (s', Ok patch_index) →
  ∃ counts : list nat,
    length counts = length index_list
    ∧ map subject_of patch_index
      = concat (zip_with (λ n i, replicate n i) counts index_list).
Proof.
  unfold create_patch_index_list.
  assert (Hloop : ∀ l acc s0 s1 r,
    patch_index_loop l image_shape patch_shape patch_overlap
                     patch_start_offset acc s0 = (s1, Ok r) →
    ∃ counts rest,
      length counts = length l ∧ r = acc ++ rest
      ∧ map subject_of rest
        = concat (zip_with (λ n i, replicate n i) counts l)).
  { induction l as [|i rest IH]; intros acc s0 s1 r Hrun.
    - injection Hrun as <- <-. exists [], []. by rewrite app_nil_r.
    - cbn [patch_index_loop] in Hrun. unfold mbind at 1, M_bind at 1 in Hrun.
      destruct (patches_of image_shape patch_shape patch_overlap
                           patch_start_offset s0) as [s2 [patches|e]];
        [|done].
      destruct (IH _ _ _ _ Hrun) as (counts & more & Hlen & -> & Hsub).
      exists (length patches :: counts), (map (Pair i) patches ++ more).
      split; [cbn; lia|]. split; [by rewrite <- app_assoc|].
      cbn [zip_with concat]. by rewrite map_app, Hsub, subject_of_pairs. }
  intros Hrun. destruct (Hloop _ _ _ _ _ Hrun) as (counts & rest & Hlen & -> & Hsub).
  exists counts. done.
Qed.

Lemma count_loop_raises {voxel} (index_list : list index) (count : Z)
    (s : sys) :
  count_loop (voxel := voxel) index_list count s
  = match index_list with
    | [] => (s, Ok count)
    | _ :: _ => (s, Raise TypeError)
    end.
Proof. by destruct index_list. Qed.

(** What a returned count can be. *)
Lemma get_number_of_patches_Ok {voxel affine}
    (data_file : open_file voxel affine) (index_list : list Z)
    (patch_shape : patch_shape_arg) (patch_overlap : Z)
    (patch_start_offset : option (list Z)) (skip_blank : bool)
    (s s' : sys) (n : Z) :
  get_number_of_patches data_file index_list patch_shape patch_overlap
                        patch_start_offset skip_blank s = (s', Ok n) →
  (truthy patch_shape = false ∧ n = Z.of_nat (length index_list) ∧ s' = s)
  ∨ (truthy patch_shape = true ∧ n = 0
     ∧ create_patch_index_list index_list
         (last_three (root_data_shape data_file)) patch_shape patch_overlap
         patch_start_offset s = (s', Ok [])).
Proof.
  unfold get_number_of_patches. destruct (truthy patch_shape).
  - unfold mbind, M_bind.
    destruct (create_patch_index_list _ _ _ _ _ s) as [s1 [l|e]]; [|done].
    rewrite count_loop_raises. destruct l; [|done].
    intros [= <- <-]. right. done.
  - intros [= <- <-]. left. done.
Qed.

(** X9: whenever [get_number_of_patches] returns a number, it is the
    length of the index list if no patch shape is set, and zero if one is
    set, in which case the patch index list was empty: it never returns
    the number of patches of a list that has any. *)
Theorem get_number_of_patches_returns {voxel affine}
    (data_file : open_file voxel affine) (index_list : list Z)
    (patch_shape : patch_shape_arg) (patch_overlap : Z)
    (patch_start_offset : option (list Z)) (skip_blank : bool)
    (s s' : sys) (n : Z) :
  get_number_of_patches data_file index_list patch_shape patch_overlap
                        patch_start_offset skip_blank s = (s', Ok n) →
  (truthy patch_shape = false ∧ n = Z.of_nat (length index_list) ∧ s' = s)
  ∨ (truthy patch_shape = true ∧ n = 0
     ∧ create_patch_index_list index_list
         (last_three (root_data_shape data_file)) patch_shape patch_overlap
         patch_start_offset s = (s', Ok [])).
Proof. apply get_number_of_patches_Ok. Qed.

(** X10: with a patch shape set, as soon as the patch index list has an
    entry the count fails with the [TypeError] of the call of [add_data]
    that lacks its index argument; no sample is read. *)
Theorem get_number_of_patches_raises {voxel affine}
    (data_file : open_file voxel affine) (index_list : list Z)
    (patch_shape : patch_shape_arg) (patch_overlap : Z)
    (patch_start_offset : option (list Z)) (skip_blank : bool)
    (s s' : sys) (first : index) (others : list index) :
  truthy patch_shape = true →
  create_patch_index_list index_list
    (last_three (root_data_shape data_file)) patch_shape patch_overlap
    patch_start_offset s = (s', Ok (first :: others)) →
  get_number_of_patches data_file index_list patch_shape patch_overlap
                        patch_start_offset skip_blank s
  = (s', Raise TypeError).
Proof.
  intros Hpatch Hlist. unfold get_number_of_patches. rewrite Hpatch.
  unfold mbind, M_bind. rewrite Hlist. by rewrite count_loop_raises.
Qed.

End PatchProps.

Lemma create_patch_index_list_product_witness :
  ∃ patch_index,
    create_patch_index_list (H := Patches_grid) [5; 9]
      [2; 2; 2]%nat (PatchShape [1; 1; 1]%nat) 0 None quiet
      = (quiet, Ok patch_index)
    ∧ length patch_index = 8%nat
    ∧ map subject_of patch_index = [5; 5; 5; 5; 9; 9; 9; 9].
Proof.
  destruct (create_patch_index_list_product (H := Patches_grid)
              [5; 9] [2; 2; 2]%nat (PatchShape [1; 1; 1]%nat) 0
              _ quiet eq_refl)
    as (patch_index & Hrun & _ & Hlen & Hsubjects).
  exists patch_index. split; [exact Hrun|]. split; [exact Hlen|exact Hsubjects].
Defined.

Lemma create_patch_index_list_grouped_witness :
  ∃ s' patch_index counts,
    create_patch_index_list (H := Patches_grid) [5; 9]
      [2; 2; 2]%nat (PatchShape [1; 1; 1]%nat) 0 (Some [2; 2; 2]) quiet
      = (s', Ok patch_index)
    ∧ length counts = 2%nat
    ∧ map subject_of patch_index
      = concat (zip_with (λ n i, replicate n i) counts [5; 9]).
Proof.
  eassert (Hrun : create_patch_index_list (H := Patches_grid)
                    [5; 9] [2; 2; 2]%nat (PatchShape [1; 1; 1]%nat) 0
                    (Some [2; 2; 2]) quiet = (_, Ok _))
    by (vm_compute; reflexivity).
  destruct (create_patch_index_list_grouped (H := Patches_grid)
              _ _ _ _ _ _ _ _ Hrun) as (counts & Hlen & Hsubjects).
  eexists _, _, counts. split; [exact Hrun|]. split; assumption.
Defined.

Lemma get_number_of_patches_returns_witness :
  get_number_of_patches (H := Patches_grid) seven_open
    [0; 1; 2] PatchNone 0 None true quiet = (quiet, Ok 3)
  ∧ get_number_of_patches (H := Patches_none) seven_open
      [0; 1; 2] (PatchShape [1; 1; 1]%nat) 0 None true quiet = (quiet, Ok 0).
Proof.
  split.
  - destruct (get_number_of_patches_returns (H := Patches_grid)
                seven_open [0; 1; 2] PatchNone 0 None true quiet quiet 3
                eq_refl) as [(_ & _ & _)|(Hpatch & _)].
    + reflexivity.
    + discriminate Hpatch.
  - destruct (get_number_of_patches_returns (H := Patches_none)
                seven_open [0; 1; 2] (PatchShape [1; 1; 1]%nat) 0 None true
                quiet quiet 0 eq_refl) as [(Hpatch & _)|(_ & _ & _)].
    + discriminate Hpatch.
    + reflexivity.
Defined.

Lemma get_number_of_patches_raises_witness :
  get_number_of_patches (H := Patches_grid) seven_open
    [0; 1; 2] (PatchShape [1; 1; 1]%nat) 0 None true quiet
  = (quiet, Raise TypeError).
Proof.
  eapply (get_number_of_patches_raises (H := Patches_grid)
            seven_open [0; 1; 2] (PatchShape [1; 1; 1]%nat) 0 None true
            quiet quiet); reflexivity.
Defined.

(** ** The factory of the two generators *)

Lemma get_number_of_steps_nothing (batch_size steps : Z) :
  get_number_of_steps 0 batch_size = Ok steps → steps = 0.
Proof.
  unfold get_number_of_steps, np_remainder, floordiv.
  destruct (0 <=? batch_size) eqn:Hle; [congruence|].
  apply Z.leb_gt in Hle.
  assert (Hb0 : (batch_size =? 0) = false) by (apply Z.eqb_neq; lia).
  rewrite Hb0, Z.mod_0_l by lia. cbn [Z.eqb]. rewrite Z.div_0_l by lia.
  congruence.
Qed.

Section FactoryProps.
Context {voxel affine : Type} `{!PatchExternals}.
Implicit Types (f : open_file voxel affine).

(** X11: without a patch shape and on a fresh split, the factory counts
    400 training and 60 validation samples whatever the data files hold.
    It returns the step counts of those two numbers, the validation batch
    size falling back to the training one when it is absent or zero; the
    training generator shuffles a rearrangement of the training list, the
    validation generator runs over the validation list in order without
    augmentation or permutation; three lines are printed. *)
Theorem get_training_and_validation_generators_whole f0 f1
    (batch_size n_labels : Z) (training_keys_file validation_keys_file : string)
    (data_split : Q) (overwrite : bool) (labels : option (list Z))
    (augment augment_flip : bool) (augment_distortion_factor : option Q)
    (patch_shape : patch_shape_arg) (validation_patch_overlap : Z)
    (training_patch_start_offset : option (list Z))
    (validation_batch_size : option Z) (skip_blank permute : bool)
    (s : sys) (steps_t steps_v : Z) :
  truthy patch_shape = false →
  overwrite = true ∨ files s !! training_keys_file = None →
  get_number_of_steps 400 batch_size = Ok steps_t →
  get_number_of_steps 60
    (match validation_batch_size with
     | Some size => if size =? 0 then batch_size else size
     | None => batch_size
     end) = Ok steps_v →
  ∃ training_list s',
    get_training_and_validation_generators f0 f1 batch_size n_labels
      training_keys_file validation_keys_file data_split overwrite labels
      augment augment_flip augment_distortion_factor patch_shape
      validation_patch_overlap training_patch_start_offset
      validation_batch_size skip_blank permute s
    = (s',
       Ok (mk_args (tables f0) (tables f1) (map Plain training_list)
                   batch_size n_labels labels augment augment_flip
                   augment_distortion_factor patch_shape 0
                   training_patch_start_offset true skip_blank permute,
           mk_args (tables f0) (tables f1)
                   (map Plain (seqZ 10 20 ++ seqZ 52 20 ++ seqZ 249 20))
                   (match validation_batch_size with
                    | Some size => if size =? 0 then batch_size else size
                    | None => batch_size
                    end)
                   n_labels labels false true (Some (1 # 4)%Q) patch_shape
                   validation_patch_overlap None false skip_blank false,
           steps_t, steps_v))
    ∧ length training_list = 400%nat
    ∧ stdout s'
      = stdout s ++ ["Creating validation split...";
                     "Number of training steps:  " +:+ pretty steps_t;
                     "Number of validation steps:  " +:+ pretty steps_v].
Proof.
  intros Hpatch Hcreate Ht Hv.
  destruct (get_validation_split_created f0 training_keys_file
              validation_keys_file data_split overwrite s Hcreate)
    as (training_list & s1 & Hsplit & Hperm & Hout & _).
  assert (Hlen : length training_list = 400%nat)
    by (rewrite (Permutation_length Hperm); by vm_compute).
  exists training_list. eexists. split; [|split; [exact Hlen|]].
  - unfold get_training_and_validation_generators.
    unfold mbind at 1, M_bind at 1. rewrite Hsplit.
    unfold get_number_of_patches. rewrite Hpatch.
    cbv beta iota zeta delta [mbind M_bind mret M_ret lift_result
                              print_count print].
    rewrite Hlen.
    change (length (range 10 30 ++ range 52 72 ++ range 249 269))
      with 60%nat.
    change (Z.of_nat 400) with 400. change (Z.of_nat 60) with 60.
    rewrite Ht, Hv. reflexivity.
  - cbn [stdout]. rewrite Hout, <- !app_assoc. reflexivity.
Qed.

(** X12: with a patch shape set the factory never reports work to do:
    if it returns at all, both step counts are zero. *)
Theorem get_training_and_validation_generators_patches f0 f1
    (batch_size n_labels : Z) (training_keys_file validation_keys_file : string)
    (data_split : Q) (overwrite : bool) (labels : option (list Z))
    (augment augment_flip : bool) (augment_distortion_factor : option Q)
    (patch_shape : patch_shape_arg) (validation_patch_overlap : Z)
    (training_patch_start_offset : option (list Z))
    (validation_batch_size : option Z) (skip_blank permute : bool)
    (s s' : sys) training_generator validation_generator
    (steps_t steps_v : Z) :
  truthy patch_shape = true →
  get_training_and_validation_generators f0 f1 batch_size n_labels
    training_keys_file validation_keys_file data_split overwrite labels
    augment augment_flip augment_distortion_factor patch_shape
    validation_patch_overlap training_patch_start_offset
    validation_batch_size skip_blank permute s
  = (s', Ok (training_generator, validation_generator, steps_t, steps_v)) →
  steps_t = 0 ∧ steps_v = 0.
Proof.
  intros Hpatch. unfold get_training_and_validation_generators.
  unfold mbind at 1, M_bind at 1.
  destruct (get_validation_split _ _ _ _ _ s) as [s1 [[tr va]|e]]; [|done].
  unfold mbind at 1, M_bind at 1.
  destruct (get_number_of_patches f0 tr patch_shape 0
              training_patch_start_offset skip_blank s1)
    as [s2 [n_t|e]] eqn:Hnt; [|done].
  apply get_number_of_patches_Ok in Hnt
    as [(Hfalse & _)|(_ & -> & _)]; [congruence|].
  unfold mbind at 1, M_bind at 1. unfold lift_result at 1.
  destruct (get_number_of_steps 0 batch_size) as [st|e] eqn:Hst; [|done].
  apply get_number_of_steps_nothing in Hst as ->.
  unfold mbind at 1, M_bind at 1. unfold print_count at 1, print at 1.
  unfold mbind at 1, M_bind at 1.
  match goal with
  | |- context [get_number_of_patches f0 va patch_shape ?o None skip_blank ?s0] =>
      destruct (get_number_of_patches f0 va patch_shape o None skip_blank s0)
        as [s3 [n_v|e]] eqn:Hnv; [|done]
  end.
  apply get_number_of_patches_Ok in Hnv
    as [(Hfalse & _)|(_ & -> & _)]; [congruence|].
  unfold mbind at 1, M_bind at 1. unfold lift_result at 1.
  match goal with
  | |- context [get_number_of_steps 0 ?b] =>
      destruct (get_number_of_steps 0 b) as [sv|e] eqn:Hsv; [|done]
  end.
  apply get_number_of_steps_nothing in Hsv as ->.
  unfold mbind, M_bind, print_count, print, mret, M_ret.
  intros [= _ _ _ <- <-]. done.
Qed.

End FactoryProps.

Lemma get_training_and_validation_generators_whole_witness :
  ∃ training_generator validation_generator s',
    get_training_and_validation_generators (H := Patches_grid)
      seven_open seven_open 32 1 "training.pkl" "validation.pkl" (4 # 5)%Q
      false None false true (Some (1 # 4)%Q) PatchNone 0 None (Some 0)
      true false quiet
    = (s', Ok (training_generator, validation_generator, 13, 2))
    ∧ shuffle_index_list training_generator = true
    ∧ batch_size validation_generator = 32.
Proof.
  destruct (get_training_and_validation_generators_whole (H := Patches_grid)
              seven_open seven_open 32 1 "training.pkl" "validation.pkl"
              (4 # 5)%Q false None false true (Some (1 # 4)%Q) PatchNone 0
              None (Some 0) true false quiet 13 2
              eq_refl (or_intror eq_refl) eq_refl eq_refl)
    as (training_list & s' & Hrun & _).
  eexists _, _, s'. split; [exact Hrun|]. split; reflexivity.
Defined.

Lemma get_training_and_validation_generators_patches_witness :
  ∃ training_generator validation_generator s',
    get_training_and_validation_generators (H := Patches_none)
      seven_open seven_open 32 1 "training.pkl" "validation.pkl" (4 # 5)%Q
      false None false true (Some (1 # 4)%Q) (PatchShape [1; 1; 1]%nat) 0
      None None true false quiet
    = (s', Ok (training_generator, validation_generator, 0, 0)).
Proof.
  destruct (get_training_and_validation_generators (H := Patches_none)
              seven_open seven_open 32 1 "training.pkl" "validation.pkl"
              (4 # 5)%Q false None false true (Some (1 # 4)%Q)
              (PatchShape [1; 1; 1]%nat) 0 None None true false quiet)
    as [s' [[[[tg vg] steps_t] steps_v]|e]] eqn:Hrun.
  - destruct (get_training_and_validation_generators_patches
                (H := Patches_none) seven_open seven_open 32 1
                "training.pkl" "validation.pkl" (4 # 5)%Q false None false
                true (Some (1 # 4)%Q) (PatchShape [1; 1; 1]%nat) 0 None None
                true false quiet s' tg vg steps_t steps_v eq_refl Hrun)
      as [-> ->].
    exists tg, vg, s'. reflexivity.
  - exfalso. vm_compute in Hrun. discriminate Hrun.
Defined.

(** ** Reads and loads: what can and cannot come out *)

Lemma keeps_in_sys {voxel A} (m : M sys A) :
  keeps_lists (in_sys (voxel := voxel) m).
Proof.
  intros h h' r. unfold in_sys, zoom.
  destruct (m (process h)) as [s' r']. by intros [= <- _].
Qed.

Lemma keeps_lift_result {voxel A} (r : result A) :
  keeps_lists (lift_result (S := heap voxel) r).
Proof. by intros h h' r' [= <- _]. Qed.

Lemma keeps_raise {voxel A} (e : exn) :
  keeps_lists (raise (S := heap voxel) (A := A) e).
Proof. by intros h h' r' [= <- _]. Qed.

Lemma keeps_mret {voxel A} (a : A) :
  keeps_lists (mret (M := M (heap voxel)) a).
Proof. by intros h h' r' [= <- _]. Qed.

Lemma keeps_bind {voxel A B} (m : M (heap voxel) A) (k : A → M (heap voxel) B) :
  keeps_lists m → (∀ a, keeps_lists (k a)) → keeps_lists (m ≫= k).
Proof.
  intros Hm Hk h h' r. unfold mbind, M_bind.
  destruct (m h) as [h1 [a|e]] eqn:Hrun.
  - intros Hrest. destruct (Hm _ _ _ Hrun) as [Hx Hy].
    destruct (Hk a _ _ _ Hrest) as [Hx' Hy']. split; congruence.
  - intros [= <- _]. exact (Hm _ _ _ Hrun).
Qed.

Lemma appends_after_keeps {voxel A} (label : Z) (m : M (heap voxel) A)
    (k : A → M (heap voxel) unit) :
  keeps_lists m → (∀ a, appends_or_keeps label (k a)) →
  appends_or_keeps label (m ≫= k).
Proof.
  intros Hm Hk h h' r. unfold mbind, M_bind.
  destruct (m h) as [h1 [a|e]] eqn:Hrun.
  - intros Hrest. destruct (Hm _ _ _ Hrun) as [Hx Hy].
    destruct (Hk a _ _ _ Hrest) as [[Hx' Hy']|(Hr & d0 & d1 & t0 & t1 & Hx' & Hy')].
    + left. split; congruence.
    + right. split; [done|]. exists d0, d1, t0, t1.
      rewrite Hx', Hy', Hx, Hy. done.
  - intros [= <- _]. left. exact (Hm _ _ _ Hrun).
Qed.

Section ReadsAndLoads.
Context {voxel affine : Type} `{!Arith voxel} `{!Externals voxel affine}.
Implicit Types (f : data_file voxel affine) (h : heap voxel) (s : sys).

(** What a read that returns has done. *)
Lemma get_data_from_file_Ok f index patch_shape s s' x y label :
  get_data_from_file f index patch_shape s = (s', Ok (x, y, label)) →
  s' = s ∧ truthy patch_shape = false
  ∧ root_data f index = Ok x ∧ root_truth f index 0 = Ok y
  ∧ (label = 0 ∨ label = 1).
Proof.
  unfold get_data_from_file. destruct (truthy patch_shape).
  - cbv beta iota zeta delta [mbind M_bind lift_result unpack_2_of_3 raise].
    destruct (unpack_index index) as [[i p]|e]; [|done].
    destruct (get_whole_data_from_file f i s) as [s1 [whole|e]]; done.
  - unfold get_whole_data_from_file.
    cbv beta iota zeta delta [mbind M_bind lift_result raise print].
    destruct (root_data f index) as [x0|e]; [|done].
    destruct (root_truth f index 0) as [y0|e]; [|done].
    destruct (root_subject_ids f index) as [ids|e]; [|done].
    destruct (bytes_decode ids) as [text|e]; [|done].
    destruct (getitem (split text (ord "-")) (-1)) as [piece|e]; [|done].
    destruct (getitem piece 0) as [c|e]; [|done].
    destruct (c =? ord "C")%N; [intros [= <- <- <- <-]; auto 6|].
    destruct ((c =? ord "A") || (c =? ord "B"))%N;
      [intros [= <- <- <- <-]; auto 6|done].
Qed.

(** X13: a read that returns was a whole-volume read: no patch shape was
    in effect, the image and the label map are the entries of the tables
    at the index, the derived label is 0 or 1, and nothing was printed. *)
Theorem get_data_from_file_returns f index patch_shape s s' x y label :
  get_data_from_file f index patch_shape s = (s', Ok (x, y, label)) →
  s' = s ∧ truthy patch_shape = false
  ∧ root_data f index = Ok x ∧ root_truth f index 0 = Ok y
  ∧ (label = 0 ∨ label = 1).
Proof. apply get_data_from_file_Ok. Qed.

(** With a patch shape a read ends in an exception. *)
Lemma get_data_from_file_patch_raises f index patch_shape s :
  truthy patch_shape = true →
  ∃ s' e, get_data_from_file f index patch_shape s = (s', Raise e).
Proof.
  intros Hpatch.
  destruct (get_data_from_file f index patch_shape s)
    as [s' [[[x y] label]|e]] eqn:Hrun; [|eauto].
  apply get_data_from_file_Ok in Hrun as (_ & Hfalse & _). congruence.
Qed.

(** X14: with a patch shape set a read never returns.  An integer index
    cannot be unpacked and raises [TypeError]; for a pair, the whole
    volume of the subject is read first, and when that read returns, its
    three results are unpacked into two names, which raises
    [ValueError]. *)
Theorem get_data_from_file_patch_never f index patch_shape s :
  truthy patch_shape = true →
  match index with
  | Plain _ => get_data_from_file f index patch_shape s = (s, Raise TypeError)
  | Pair i _ =>
      ∃ s' e,
        get_data_from_file f index patch_shape s = (s', Raise e)
        ∧ ∀ s1 whole,
            get_data_from_file f (Plain i) PatchNone s = (s1, Ok whole) →
            s' = s
            ∧ e = ValueError "too many values to unpack (expected 2)"
  end.
Proof.
  intros Hpatch. unfold get_data_from_file. rewrite Hpatch.
  destruct index as [i|i p].
  - reflexivity.
  - cbv beta iota zeta delta [truthy unpack_index mbind M_bind lift_result
                              unpack_2_of_3 raise].
    destruct (get_whole_data_from_file f (Plain i) s) as [s1 [whole|e]]
      eqn:Hwhole.
    + eexists _, _. split; [reflexivity|].
      intros s2 whole' [= <- _].
      destruct whole as [[x y] label].
      assert (Hrun : get_data_from_file f (Plain i) PatchNone s
                     = (s1, Ok (x, y, label))) by exact Hwhole.
      apply get_data_from_file_Ok in Hrun as (-> & _). done.
    + eexists _, _. split; [reflexivity|]. intros s2 whole' [=].
Qed.

(** X15: with a patch shape set [add_data] appends nothing: the first
    read raises, and both accumulators are as they were. *)
Theorem add_data_patch_never f0 f1 index augment augment_flip factor
    patch_shape skip_blank permute h :
  truthy patch_shape = true →
  ∃ h' e,
    add_data f0 f1 index augment augment_flip factor patch_shape
             skip_blank permute h = (h', Raise e)
    ∧ x_list h' = x_list h ∧ y_list h' = y_list h.
Proof.
  intros Hpatch.
  destruct (get_data_from_file_patch_raises f0 index patch_shape (process h)
              Hpatch) as (s' & e & Hread).
  exists (mk_heap s' (x_list h) (y_list h)), e.
  unfold add_data. unfold mbind at 1, M_bind at 1. unfold in_sys at 1, zoom.
  rewrite Hread. done.
Qed.

(** The last step of [add_data], once the blank filter is passed. *)
Lemma record_appends (label : Z) (data0 data1 : ndarray voxel)
    (truth0 truth1 : ndarray Z) :
  appends_or_keeps label
    (data0_0 ← lift_result (normalise data0);
     data1_0 ← lift_result (normalise data1);
     _ ← append_x_0 data0_0;
     _ ← append_x_1 data1_0;
     _ ← append_y_0 label;
     _ ← append_y_1 truth0;
     append_y_2 truth1).
Proof.
  intros h h' r.
  cbv beta iota zeta delta [mbind M_bind lift_result append_x_0 append_x_1
                            append_y_0 append_y_1 append_y_2].
  destruct (normalise data0) as [n0|e]; [|intros [= <- _]; by left].
  destruct (normalise data1) as [n1|e]; [|intros [= <- _]; by left].
  intros [= <- <-]. right. split; [done|].
  exists n0, n1, truth0, truth1. done.
Qed.

Lemma appends_of_keeps (label : Z) (m : M (heap voxel) unit) :
  keeps_lists m → appends_or_keeps label m.
Proof. intros Hm h h' r Hrun. left. exact (Hm _ _ _ Hrun). Qed.

(** X16: a sample is recorded whole or not at all.  Whatever the
    arguments and the outcome, a call of [add_data] either leaves both
    accumulators as they were or returns after adding exactly one entry
    to each of the five lists, the label being 0 or 1; no exception
    leaves a list longer than the others. *)
Theorem add_data_all_or_nothing f0 f1 index augment augment_flip factor
    patch_shape skip_blank permute h h' r :
  add_data f0 f1 index augment augment_flip factor patch_shape
           skip_blank permute h = (h', r) →
  (x_list h' = x_list h ∧ y_list h' = y_list h)
  ∨ (r = Ok tt
     ∧ ∃ data0 data1 truth0 truth1 label,
         x_list h' = mk_x (x_0 (x_list h) ++ [data0])
                          (x_1 (x_list h) ++ [data1])
         ∧ y_list h' = mk_y (y_0 (y_list h) ++ [label])
                            (y_1 (y_list h) ++ [truth0])
                            (y_2 (y_list h) ++ [truth1])
         ∧ (label = 0 ∨ label = 1)).
Proof.
  unfold add_data. unfold mbind at 1, M_bind at 1. unfold in_sys at 1, zoom.
  destruct (get_data_from_file f0 index patch_shape (process h))
    as [s1 [[[data0 truth0] label0]|e]] eqn:Hread0;
    [|intros [= <- _]; by left].
  apply get_data_from_file_Ok in Hread0 as (_ & _ & _ & _ & Hlabel).
  set (h1 := mk_heap s1 (x_list h) (y_list h)).
  intros Hrest.
  assert (Hinv : appends_or_keeps label0
    ('(data1, truth1, label1) ←
       in_sys (get_data_from_file f1 index patch_shape);
     _ ← (if negb (label0 =? label1) then
            _ ← in_sys (print "label0 and label1 not equal !!!");
            _ ← in_sys (print (pretty label0));
            _ ← in_sys (print (pretty label1));
            raise RuntimeError
          else mret tt);
     '(data0, truth0, data1, truth1) ←
       (if augment then
          '(affine0, affine1) ←
            (if is_not_None patch_shape then
               i0 ← lift_result (index_0 index);
               affine0 ← lift_result (root_affine f0 i0);
               i1 ← lift_result (index_0 index);
               affine1 ← lift_result (root_affine f1 i1);
               mret (affine0, affine1)
             else
               affine0 ← lift_result (root_affine f0 index);
               affine1 ← lift_result (root_affine f1 index);
               mret (affine0, affine1));
          in_sys (augment_data data0 data1 truth0 truth1 affine0 affine1
                               augment_flip factor)
        else mret (data0, truth0, data1, truth1));
     '(truth0, truth1) ←
       (if permute then
          data ← unbound_local "data";
          d3 ← lift_result (getitem (shape data) (-3));
          d2 ← lift_result (getitem (shape data) (-2));
          d1 ← lift_result (getitem (shape data) (-1));
          _ ← (if negb (d3 =? d2)%nat || negb (d2 =? d1)%nat
               then raise (ValueError cube_message) else mret tt);
          truth ← unbound_local "truth";
          _ ← in_sys (random_permutation_x_y data (newaxis truth));
          mret (truth0, truth1)
        else mret (newaxis truth0, newaxis truth1));
     if negb skip_blank || (any_nonzero truth0 || any_nonzero truth1) then
       data0_0 ← lift_result (normalise data0);
       data1_0 ← lift_result (normalise data1);
       _ ← append_x_0 data0_0;
       _ ← append_x_1 data1_0;
       _ ← append_y_0 label0;
       _ ← append_y_1 truth0;
       append_y_2 truth1
     else mret tt)).
  { apply appends_after_keeps; [apply keeps_in_sys|].
    intros [[data1 truth1] label1].
    apply appends_after_keeps.
    { destruct (negb (label0 =? label1)); [|apply keeps_mret].
      repeat (apply keeps_bind; [apply keeps_in_sys|intros ?]).
      apply keeps_raise. }
    intros _. apply appends_after_keeps.
    { destruct augment; [|apply keeps_mret].
      apply keeps_bind; [|intros [a0 a1]; apply keeps_in_sys].
      destruct (is_not_None patch_shape);
        repeat (apply keeps_bind; [apply keeps_lift_result|intros ?]);
        apply keeps_mret. }
    intros [[[d0 t0] d1] t1]. apply appends_after_keeps.
    { destruct permute; [|apply keeps_mret].
      apply keeps_bind; [apply keeps_raise|intros ?].
      repeat (apply keeps_bind; [apply keeps_lift_result|intros ?]).
      apply keeps_bind.
      { destruct (_ || _); [apply keeps_raise|apply keeps_mret]. }
      intros _. apply keeps_bind; [apply keeps_raise|intros ?].
      apply keeps_bind; [apply keeps_in_sys|intros ?]. apply keeps_mret. }
    intros [t0' t1'].
    destruct (_ || _); [apply record_appends|].
    apply appends_of_keeps, keeps_mret. }
  destruct (Hinv h1 h' r Hrest)
    as [[Hx Hy]|(Hr & d0 & d1 & t0 & t1 & Hx & Hy)].
  - left. done.
  - right. split; [done|]. exists d0, d1, t0, t1, label0. done.
Qed.

(** X17: augmentation needs [patch_shape] to be [None] for a plain
    index.  With the default [False] of [add_data] (or an empty tuple),
    the test [patch_shape is not None] passes, the integer index is
    subscripted, and the load raises [TypeError] after both reads, with
    nothing appended. *)
Theorem add_data_augment_default_patch f0 f1 i augment_flip factor
    patch_shape skip_blank permute h s1 s2 data0 truth0 data1 truth1 label :
  patch_shape = PatchFalse ∨ patch_shape = PatchShape [] →
  get_data_from_file f0 (Plain i) patch_shape (process h)
    = (s1, Ok (data0, truth0, label)) →
  get_data_from_file f1 (Plain i) patch_shape s1
    = (s2, Ok (data1, truth1, label)) →
  add_data f0 f1 (Plain i) true augment_flip factor patch_shape
           skip_blank permute h
  = (mk_heap s2 (x_list h) (y_list h), Raise TypeError).
Proof.
  intros Hshape Hread0 Hread1. unfold add_data.
  cbv beta iota zeta delta [mbind M_bind in_sys zoom].
  rewrite Hread0. cbn [process x_list y_list].
  rewrite Hread1. cbn [process x_list y_list].
  rewrite Z.eqb_refl. destruct Hshape as [-> | ->]; reflexivity.
Qed.

End ReadsAndLoads.

Lemma get_data_from_file_returns_witness :
  get_data_from_file (Externals0 := Externals_id) named_subjects (Plain 1)
                     PatchFalse quiet = (quiet, Ok (ramp, lesion, 0))
  ∧ root_data named_subjects (Plain 1) = Ok ramp
  ∧ (0 = 0 ∨ 0 = 1).
Proof.
  split; [reflexivity|].
  destruct (get_data_from_file_returns (Externals0 := Externals_id)
              named_subjects (Plain 1) PatchFalse quiet quiet ramp lesion 0
              eq_refl) as (_ & _ & Hdata & _ & Hlabel).
  split; assumption.
Defined.

Lemma get_data_from_file_patch_never_witness :
  get_data_from_file (Externals0 := Externals_id) named_subjects (Plain 0)
                     (PatchShape [1; 1; 1]%nat) quiet
    = (quiet, Raise TypeError)
  ∧ ∃ s' e,
      get_data_from_file (Externals0 := Externals_id) named_subjects
                         (Pair 0 [0; 0; 0]) (PatchShape [1; 1; 1]%nat) quiet
        = (s', Raise e)
      ∧ e = ValueError "too many values to unpack (expected 2)".
Proof.
  split.
  - exact (get_data_from_file_patch_never (Externals0 := Externals_id)
             named_subjects (Plain 0) (PatchShape [1; 1; 1]%nat) quiet
             eq_refl).
  - destruct (get_data_from_file_patch_never (Externals0 := Externals_id)
                named_subjects (Pair 0 [0; 0; 0]) (PatchShape [1; 1; 1]%nat)
                quiet eq_refl) as (s' & e & Hrun & Hwhy).
    exists s', e. split; [exact Hrun|].
    exact (proj2 (Hwhy quiet (ramp, lesion, 1) eq_refl)).
Defined.

Lemma add_data_patch_never_witness :
  ∃ h' e,
    add_data (Arith0 := Arith_Q) (Externals0 := Externals_id)
             seven_subjects seven_subjects (Pair 4 [0; 0; 0])
             false true None (PatchShape [1; 1; 1]%nat) true false empty_heap
      = (h', Raise e)
    ∧ x_list h' = mk_x [] [] ∧ y_list h' = mk_y [] [] [].
Proof.
  exact (add_data_patch_never (Arith0 := Arith_Q) (Externals0 := Externals_id)
           seven_subjects seven_subjects (Pair 4 [0; 0; 0]) false true None
           (PatchShape [1; 1; 1]%nat) true false empty_heap eq_refl).
Defined.

Lemma add_data_all_or_nothing_witness :
  ∃ h' r,
    add_data (Arith0 := Arith_Q) (Externals0 := Externals_id)
             seven_subjects seven_subjects (Plain 4)
             false true None PatchNone true false empty_heap = (h', r)
    ∧ length (x_0 (x_list h')) = length (y_2 (y_list h')).
Proof.
  eexists _, _. split; [reflexivity|].
  destruct (add_data_all_or_nothing (Arith0 := Arith_Q)
              (Externals0 := Externals_id)
              seven_subjects seven_subjects (Plain 4)
              false true None PatchNone true false empty_heap _ _ eq_refl)
    as [[Hx Hy]|(_ & d0 & d1 & t0 & t1 & label & Hx & Hy & _)];
    rewrite Hx, Hy; reflexivity.
Defined.

Lemma add_data_augment_default_patch_witness :
  add_data (Arith0 := Arith_Q) (Externals0 := Externals_id)
           seven_subjects seven_subjects (Plain 4)
           true true (Some (1 # 4)%Q) PatchFalse true false empty_heap
  = (empty_heap, Raise TypeError).
Proof.
  exact (add_data_augment_default_patch (Arith0 := Arith_Q)
           (Externals0 := Externals_id) seven_subjects seven_subjects 4
           true (Some (1 # 4)%Q) PatchFalse true false empty_heap quiet quiet
           ramp lesion ramp lesion 1 (or_introl eq_refl) eq_refl eq_refl).
Defined.

(** ** The generator: failing, hanging and running for ever *)

Lemma epoch_sizes_none (size : nat) : epoch_sizes 0 size = [].
Proof.
  unfold epoch_sizes. by rewrite Nat.Div0.div_0_l, Nat.Div0.mod_0_l.
Qed.

Lemma epoch_sizes_short (n size : nat) :
  (0 < n < size)%nat → epoch_sizes n size = [n].
Proof.
  intros Hn. unfold epoch_sizes.
  rewrite Nat.div_small, Nat.mod_small by lia.
  assert (Hnz : (n =? 0)%nat = false) by (apply Nat.eqb_neq; lia).
  by rewrite Hnz.
Qed.

Lemma epoch_sizes_full (n size : nat) :
  (0 < size ≤ n)%nat →
  epoch_sizes n size = size :: epoch_sizes (n - size) size.
Proof.
  intros Hn. unfold epoch_sizes.
  assert (Hd : (n / size = S ((n - size) / size))%nat).
  { replace n with ((n - size) + 1 * size)%nat at 1 by lia.
    rewrite Nat.div_add by lia. lia. }
  assert (Hm : (n mod size = (n - size) mod size)%nat).
  { replace n with ((n - size) + 1 * size)%nat at 1 by lia.
    by rewrite Nat.Div0.mod_add. }
  rewrite Hd, Hm. reflexivity.
Qed.

Lemma epoch_sizes_nonempty (n size : nat) :
  (0 < n)%nat → (0 < size)%nat → epoch_sizes n size ≠ [].
Proof.
  intros Hn Hsize. destruct (decide (size ≤ n)%nat).
  - by rewrite epoch_sizes_full by lia.
  - by rewrite epoch_sizes_short by lia.
Qed.

Section GeneratorEdges.
Context {voxel affine : Type} `{!Arith voxel} `{!Externals voxel affine}.
Variable a : generator_args (voxel := voxel) (affine := affine).
Implicit Types (h : heap voxel) (w : list index) (g : @generator voxel).

Lemma pull_prefix fuel k : ∀ m g rs g'',
  pull a fuel (k + m) g = Some (rs, g'') →
  ∃ g', pull a fuel k g = Some (take k rs, g').
Proof.
  induction k as [|k IH]; intros m g rs g'' Hpull.
  - exists g. done.
  - cbn [Nat.add pull] in Hpull |- *.
    destruct (next a fuel g) as [[g1 r]|]; [|done].
    destruct (pull a fuel (k + m) g1) as [[rs1 g2]|] eqn:Hrest; [|done].
    injection Hpull as <- <-.
    destruct (IH _ _ _ _ Hrest) as (g' & Hk). rewrite Hk.
    exists g'. done.
Qed.

(** X18: a generator with a patch shape fails on its first [next]: the
    body reads the name [data_file], which neither the function nor the
    module defines, and [NameError] is raised before any index is
    expanded or any sample read; the generator is then closed, and the
    next call raises [StopIteration]. *)
Theorem data_generator_patch_name_error (s : sys) (fuel : nat) :
  truthy (patch_shape a) = true →
  pull a (S fuel) 2 (data_generator a s)
  = Some ([Raise (NameError "data_file"); Raise StopIteration],
          mk_gen Closed (orig_index_list a)
                 (mk_heap s (mk_x [] []) (mk_y [] [] []))).
Proof.
  intros Hpatch. cbn [pull]. unfold next at 1.
  cbn [data_generator position_of index_list heap_of run]. rewrite Hpatch.
  reflexivity.
Qed.

(** A blank sample under [skip_blank] leaves the accumulators alone. *)
Lemma add_data_blank index h :
  augment a = false → permute a = false → skip_blank a = true →
  blank_at a index →
  add_data (data_file0 a) (data_file1 a) index (augment a) (augment_flip a)
           (augment_distortion_factor a) (patch_shape a) (skip_blank a)
           (permute a) h
  = (mk_heap (process h) (x_list h) (y_list h), Ok tt).
Proof.
  intros Haug Hperm Hskip
         (data0 & truth0 & data1 & truth1 & label & s & Hr0 & Hr1 & Hzero).
  pose proof (get_data_from_file_Ok_pure _ _ _ _ _ _ Hr0 (process h)) as Hp0.
  pose proof (get_data_from_file_Ok_pure _ _ _ _ _ _ Hr1 (process h)) as Hp1.
  rewrite Haug, Hperm, Hskip.
  rewrite (add_data_after_reads _ _ _ _ _ _ _ _ _ _ _ _ _ _ _ Hp0 Hp1).
  assert (any_nonzero truth0 = false) as ->
    by (apply any_nonzero_false; auto).
  assert (any_nonzero truth1 = false) as ->
    by (apply any_nonzero_false; auto).
  reflexivity.
Qed.

Lemma run_blank fuel :
  truthy (patch_shape a) = false →
  augment a = false → permute a = false → skip_blank a = true →
  batch_size a ≠ 0 →
  Forall (blank_at a) (orig_index_list a) →
  ∀ pt w h,
    pt = OuterLoop
      ∨ (pt = InnerLoop ∧ Forall (blank_at a) w ∧ y_0 (y_list h) = []) →
    run a fuel pt w h = None.
Proof.
  intros Hpatch Haug Hperm Hskip Hbatch Hall.
  induction fuel as [|fuel IH]; intros pt w h Hpt; [done|].
  cbn [run]. destruct Hpt as [->|(-> & Hw & Hy)].
  - rewrite Hpatch. destruct (shuffle_index_list a).
    + unfold in_sys, zoom.
      destruct (shuffle_spec (orig_index_list a) (process (reset_lists h)))
        as (w1 & s1 & Hsh & Hp & _).
      rewrite Hsh. apply IH. right. split; [done|]. split; [|done].
      by rewrite Hp.
    + apply IH. right. done.
  - destruct w as [|index w' _] using rev_ind.
    + cbn [length Nat.ltb Nat.leb]. apply IH. by left.
    + assert (Hpos : (0 <? length (w' ++ [index]))%nat = true).
      { apply Nat.ltb_lt. rewrite length_app. simpl. lia. }
      rewrite Hpos, pop_snoc.
      apply Forall_app in Hw as [Hw' Hindex]. apply Forall_inv in Hindex.
      rewrite (add_data_blank index h Haug Hperm Hskip Hindex).
      cbn [y_list]. rewrite Hy. cbn [length].
      assert (Hne : (Z.of_nat 0 =? batch_size a) = false)
        by (apply Z.eqb_neq; change (Z.of_nat 0) with 0; lia).
      rewrite Hne. cbn [Z.of_nat Z.ltb Z.compare andb orb].
      rewrite andb_false_r. apply IH. right. done.
Qed.

(** X19: a generator with nothing to yield never returns from [next].
    If the index list is empty, or if [skip_blank] is on and every sample
    of the list is blank, the body goes round its loops for ever: no
    amount of fuel brings a batch or an exception.  (Whole volumes, no
    augmentation or permutation, a batch size other than zero.) *)
Theorem data_generator_hangs (s : sys) (fuel : nat) :
  truthy (patch_shape a) = false →
  augment a = false → permute a = false → skip_blank a = true →
  batch_size a ≠ 0 →
  Forall (blank_at a) (orig_index_list a) →
  next a fuel (data_generator a s) = None.
Proof.
  intros Hpatch Haug Hperm Hskip Hbatch Hall. unfold next.
  cbn [data_generator position_of index_list heap_of].
  apply run_blank; auto.
Qed.

(** *** Any list in batches of any size *)

Variables sd0 sd1 st0 st1 : list nat.
Variable size : nat.
Hypothesis no_patch : truthy (patch_shape a) = false.
Hypothesis no_augment : augment a = false.
Hypothesis no_permute : permute a = false.
Hypothesis one_label : n_labels a ≤ 1.
Hypothesis size_positive : (0 < size)%nat.
Hypothesis batch_of_size : batch_size a = Z.of_nat size.
Hypothesis all_survive :
  Forall (survives a sd0 sd1 st0 st1) (orig_index_list a).
Hypothesis some_index : orig_index_list a ≠ [].

(** From the [yield], the rest of an epoch. *)
Lemma pull_rest fuel : (size < fuel)%nat → ∀ n w h,
  length w = n → Forall (survives a sd0 sd1 st0 st1) w →
  ∃ bs g',
    pull a fuel (length (epoch_sizes n size)) (mk_gen Suspended w h)
      = Some (map Ok bs, g')
    ∧ map leading_dims bs
      = map (λ k, replicate 5 (Some k)) (epoch_sizes n size)
    ∧ position_of g' = Suspended ∧ index_list g' = []
    ∧ stdout (process (heap_of g')) = stdout (process h).
Proof.
  intros Hfuel n. induction n as [n IH] using lt_wf_ind. intros w h Hlen Hall.
  destruct fuel as [|fuel]; [lia|].
  destruct (decide (n = 0)%nat) as [->|Hpos].
  - exists [], (mk_gen Suspended w h). rewrite epoch_sizes_none.
    destruct w; [|done]. done.
  - destruct (decide (size ≤ n)%nat) as [Hfull|Hshort].
    + rewrite epoch_sizes_full by lia.
      destruct (run_inner_full a sd0 sd1 st0 st1 no_augment no_permute
                  one_label w (reset_lists h) fuel size (filled_reset _ _ _ _ h)
                  Hall batch_of_size)
        as (h1 & b & Hrun & Hdims & Hproc); [lia..|].
      destruct (IH (n - size)%nat ltac:(lia) (take (length w - size) w) h1)
        as (bs & g' & Hpull & Hds & Hpos' & Hnil & Hout).
      { rewrite length_take. lia. }
      { by apply Forall_take. }
      exists (b :: bs), g'. cbn [length pull]. unfold next at 1.
      cbn [position_of index_list heap_of run]. rewrite Hrun, Hpull.
      split; [done|]. split; [cbn [map]; by rewrite Hdims, Hds|].
      split; [done|]. split; [done|]. by rewrite Hout, Hproc.
    + rewrite epoch_sizes_short by lia.
      destruct (run_inner_short a sd0 sd1 st0 st1 no_augment no_permute
                  one_label w (reset_lists h) fuel (filled_reset _ _ _ _ h)
                  Hall)
        as (h1 & b & Hrun & Hdims & Hproc).
      { intros ->. simpl in Hlen. lia. }
      { rewrite batch_of_size. lia. }
      { lia. }
      exists [b], (mk_gen Suspended [] h1). cbn [length pull]. unfold next at 1.
      cbn [position_of index_list heap_of run]. rewrite Hrun.
      split; [done|]. split; [cbn [map]; by rewrite Hdims, Hlen|].
      split; [done|]. split; [done|]. by rewrite Hproc.
Qed.

(** From the top of the outer loop, the first batch of an epoch. *)
Lemma run_first fuel w0 h0 : (size < fuel)%nat →
  let n := length (orig_index_list a) in
  ∃ w h' b,
    run a fuel OuterLoop w0 h0 = Some (mk_gen Suspended w h', Ok b)
    ∧ leading_dims b = replicate 5 (Some (n `min` size)%nat)
    ∧ length w = (n - n `min` size)%nat
    ∧ Forall (survives a sd0 sd1 st0 st1) w
    ∧ stdout (process h') = stdout (process h0).
Proof.
  intros Hfuel n. destruct fuel as [|fuel]; [lia|].
  assert (Hn : (0 < n)%nat).
  { unfold n. destruct (orig_index_list a); [done|simpl; lia]. }
  cbn [run]. rewrite no_patch.
  assert (Hgo : ∀ w h, w ≡ₚ orig_index_list a →
            filled 0 sd0 sd1 st0 st1 h →
            ∃ w' h' b,
              run a fuel InnerLoop w h = Some (mk_gen Suspended w' h', Ok b)
              ∧ leading_dims b = replicate 5 (Some (n `min` size)%nat)
              ∧ length w' = (n - n `min` size)%nat
              ∧ Forall (survives a sd0 sd1 st0 st1) w'
              ∧ process h' = process h).
  { intros w h Hperm Hfilled.
    assert (Hlen : length w = n) by (by rewrite (Permutation_length Hperm)).
    assert (Hall : Forall (survives a sd0 sd1 st0 st1) w)
      by (by rewrite Hperm).
    destruct (decide (size ≤ n)%nat) as [Hfull|Hshort].
    - destruct (run_inner_full a sd0 sd1 st0 st1 no_augment no_permute
                  one_label w h fuel size Hfilled Hall batch_of_size)
        as (h' & b & Hrun & Hdims & Hproc); [lia..|].
      exists (take (length w - size) w), h', b.
      rewrite Nat.min_r by lia. split; [done|]. split; [done|].
      split; [rewrite length_take; lia|]. split; [by apply Forall_take|done].
    - destruct (run_inner_short a sd0 sd1 st0 st1 no_augment no_permute
                  one_label w h fuel Hfilled Hall)
        as (h' & b & Hrun & Hdims & Hproc).
      { intros ->. simpl in Hlen. lia. }
      { rewrite batch_of_size. lia. }
      { lia. }
      exists [], h', b. rewrite Nat.min_l by lia.
      split; [done|]. split; [by rewrite <- Hlen|].
      split; [cbn; lia|]. split; [constructor|done]. }
  destruct (shuffle_index_list a).
  - unfold in_sys, zoom.
    destruct (shuffle_spec (orig_index_list a) (process (reset_lists h0)))
      as (w & s' & Hsh & Hperm & Hout & _).
    rewrite Hsh.
    destruct (Hgo w (mk_heap s' (x_list (reset_lists h0))
                             (y_list (reset_lists h0))) Hperm)
      as (w' & h' & b & Hrun & Hdims & Hlen & Hall & Hproc).
    { apply (filled_reset _ _ _ _ (mk_heap s' (x_list h0) (y_list h0))). }
    exists w', h', b. rewrite Hproc. cbn [process]. rewrite Hout. done.
  - destruct (Hgo (orig_index_list a) (reset_lists h0)
                (reflexivity _) (filled_reset _ _ _ _ h0))
      as (w' & h' & b & Hrun & Hdims & Hlen & Hall & Hproc).
    exists w', h', b. rewrite Hproc. done.
Qed.

Lemma epoch_sizes_first (n : nat) :
  (0 < n)%nat →
  epoch_sizes n size
  = (n `min` size)%nat :: epoch_sizes (n - n `min` size) size.
Proof.
  intros Hn. destruct (decide (size ≤ n)%nat).
  - rewrite Nat.min_r by lia. apply epoch_sizes_full. lia.
  - rewrite Nat.min_l by lia. rewrite epoch_sizes_short by lia.
    by rewrite Nat.sub_diag, epoch_sizes_none.
Qed.

(** One epoch from its boundary. *)
Lemma pull_one_epoch fuel g : (size + 2 < fuel)%nat →
  position_of g = NotStarted
    ∨ (position_of g = Suspended ∧ index_list g = []) →
  let sizes := epoch_sizes (length (orig_index_list a)) size in
  ∃ bs g',
    pull a fuel (length sizes) g = Some (map Ok bs, g')
    ∧ map leading_dims bs = map (λ k, replicate 5 (Some k)) sizes
    ∧ position_of g' = Suspended ∧ index_list g' = []
    ∧ stdout (process (heap_of g')) = stdout (process (heap_of g)).
Proof.
  intros Hfuel Hboundary sizes.
  set (n := length (orig_index_list a)) in *.
  assert (Hn : (0 < n)%nat).
  { unfold n. destruct (orig_index_list a); [done|simpl; lia]. }
  assert (Hfirst : ∃ w h1 b1,
            next a fuel g = Some (mk_gen Suspended w h1, Ok b1)
            ∧ leading_dims b1 = replicate 5 (Some (n `min` size)%nat)
            ∧ length w = (n - n `min` size)%nat
            ∧ Forall (survives a sd0 sd1 st0 st1) w
            ∧ stdout (process h1) = stdout (process (heap_of g))).
  { unfold next. destruct Hboundary as [->|[-> Hnil]].
    - apply run_first. lia.
    - rewrite Hnil.
      destruct fuel as [|[|fuel]]; [lia..|]. cbn [run length Nat.ltb Nat.leb].
      destruct (run_first fuel [] (reset_lists (heap_of g)) ltac:(lia))
        as (w & h1 & b1 & Hrun & Hrest).
      exists w, h1, b1. done. }
  destruct Hfirst as (w1 & h1 & b1 & Hn1 & Hd1 & Hl1 & Ha1 & Ho1).
  destruct (pull_rest fuel ltac:(lia) _ w1 h1 Hl1 Ha1)
    as (bs & g' & Hpull & Hds & Hpos & Hnil & Hout).
  exists (b1 :: bs), g'. unfold sizes. rewrite (epoch_sizes_first n Hn).
  cbn [length pull map]. rewrite Hn1, Hpull, Hd1, Hds.
  split; [done|]. split; [done|]. split; [done|]. split; [done|].
  by rewrite Hout, Ho1.
Qed.

(** Any number of epochs. *)
Lemma pull_many_epochs fuel (epochs : nat) (s : sys) :
  (size + 2 < fuel)%nat →
  let sizes := epoch_sizes (length (orig_index_list a)) size in
  ∃ bs g',
    pull a fuel (epochs * length sizes) (data_generator a s)
      = Some (map Ok bs, g')
    ∧ map leading_dims bs
      = map (λ k, replicate 5 (Some k)) (mjoin (replicate epochs sizes))
    ∧ stdout (process (heap_of g')) = stdout s.
Proof.
  intros Hfuel sizes. subst sizes.
  set (sizes := epoch_sizes (length (orig_index_list a)) size).
  assert (Hgen : ∀ g,
    position_of g = NotStarted
      ∨ (position_of g = Suspended ∧ index_list g = []) →
    ∃ bs g',
      pull a fuel (epochs * length sizes) g = Some (map Ok bs, g')
      ∧ map leading_dims bs
        = map (λ k, replicate 5 (Some k)) (mjoin (replicate epochs sizes))
      ∧ (position_of g' = NotStarted
           ∨ (position_of g' = Suspended ∧ index_list g' = []))
      ∧ stdout (process (heap_of g')) = stdout (process (heap_of g))).
  { induction epochs as [|epochs IH]; intros g Hg.
    - exists [], g. done.
    - destruct (pull_one_epoch fuel g Hfuel Hg)
        as (bs1 & g1 & Hp1 & Hd1 & Hpos1 & Hnil1 & Ho1).
      fold sizes in Hp1, Hd1.
      destruct (IH g1 (or_intror (conj Hpos1 Hnil1)))
        as (bs & g' & Hp & Hd & Hb & Ho).
      exists (bs1 ++ bs), g'.
      change (S epochs * length sizes)%nat
        with (length sizes + epochs * length sizes)%nat.
      change (mjoin (replicate (S epochs) sizes))
        with (sizes ++ mjoin (replicate epochs sizes)).
      rewrite map_app, (pull_app a fuel _ _ g _ g1 _ g' Hp1 Hp).
      split; [done|]. split; [|split; [done|by rewrite Ho, Ho1]].
      by rewrite !map_app, Hd, Hd1. }
  destruct (Hgen (data_generator a s) (or_introl eq_refl))
    as (bs & g' & Hp & Hd & _ & Ho).
  exists bs, g'. done.
Qed.

End GeneratorEdges.

Lemma data_generator_patch_name_error_witness :
  let a := mk_args seven_subjects seven_subjects
             (map Plain [0; 1; 2; 3; 4; 5; 6]) 3 1 None false true
             (Some (1 # 4)%Q) (PatchShape [1; 1; 1]%nat) 0 None false true
             false in
  pull (Arith0 := Arith_Q) (Externals0 := Externals_id) a 1 2
       (data_generator a quiet)
  = Some ([Raise (NameError "data_file"); Raise StopIteration],
          mk_gen Closed (orig_index_list a)
                 (mk_heap quiet (mk_x [] []) (mk_y [] [] []))).
Proof.
  intros a.
  exact (data_generator_patch_name_error (Arith0 := Arith_Q)
           (Externals0 := Externals_id) a quiet 0 eq_refl).
Defined.

Lemma blank_subjects_blank :
  Forall (blank_at (Externals0 := Externals_id) blank_args)
         (orig_index_list blank_args).
Proof.
  repeat (constructor;
    [eexists _, _, _, _, _, quiet;
     split; [vm_compute; reflexivity|];
     split; [vm_compute; reflexivity|];
     intros v [Hv|Hv]; apply list_elem_of_In in Hv; vm_compute in Hv;
     intuition congruence|]).
  constructor.
Qed.

Lemma data_generator_hangs_witness :
  next (Arith0 := Arith_Q) (Externals0 := Externals_id) blank_args 1000
       (data_generator blank_args quiet) = None.
Proof.
  apply (data_generator_hangs (Arith0 := Arith_Q)
           (Externals0 := Externals_id) blank_args quiet 1000
           eq_refl eq_refl eq_refl eq_refl ltac:(done) blank_subjects_blank).
Defined.

(** X20: a generator over whole volumes never ends and never fails.  With
    no augmentation or permutation, at most one label, a batch size
    [size ≥ 1] and a non-empty index list of [n] samples that all pass
    the blank filter and have equal shapes, every number [k] of calls of
    [next] returns [k] batches, and their sizes are the first [k] of the
    sequence that repeats, epoch after epoch, [n / size] batches of
    [size] samples followed, when [size] does not divide [n], by one
    batch of the [n mod size] samples left; all five arrays of a batch
    have that many entries. *)
Theorem data_generator_epochs {voxel affine : Type} `{!Arith voxel}
    `{!Externals voxel affine}
    (a : generator_args (voxel := voxel) (affine := affine))
    (sd0 sd1 st0 st1 : list nat) (size k fuel : nat) (s : sys) :
  truthy (patch_shape a) = false →
  augment a = false → permute a = false → n_labels a ≤ 1 →
  (0 < size)%nat → batch_size a = Z.of_nat size →
  Forall (survives a sd0 sd1 st0 st1) (orig_index_list a) →
  orig_index_list a ≠ [] →
  (size + 2 < fuel)%nat →
  ∃ bs g',
    pull a fuel k (data_generator a s) = Some (map Ok bs, g')
    ∧ length bs = k
    ∧ map leading_dims bs
      = map (λ m, replicate 5 (Some m))
          (take k (mjoin (replicate k
             (epoch_sizes (length (orig_index_list a)) size)))).
Proof.
  intros Hpatch Haug Hperm Hlabel Hsize Hbatch Hall Hsome Hfuel.
  set (sizes := epoch_sizes (length (orig_index_list a)) size).
  assert (Hlen : (0 < length sizes)%nat).
  { pose proof (epoch_sizes_nonempty (length (orig_index_list a)) size) as Hne.
    fold sizes in Hne. destruct sizes; [|simpl; lia].
    exfalso. apply Hne; [|done|done].
    destruct (orig_index_list a); [done|simpl; lia]. }
  destruct (pull_many_epochs a sd0 sd1 st0 st1 size Hpatch Haug Hperm
              Hlabel Hsize Hbatch Hall Hsome fuel k s Hfuel)
    as (bs & g' & Hpull & Hdims & _).
  fold sizes in Hpull, Hdims.
  assert (Hsplit : ∃ m, (k * length sizes = k + m)%nat).
  { exists (k * (length sizes - 1))%nat. nia. }
  destruct Hsplit as (m & Hm). rewrite Hm in Hpull.
  destruct (pull_prefix a fuel k m _ _ _ Hpull) as (g1 & Hk).
  exists (take k bs), g1. rewrite firstn_map in Hk.
  split; [done|]. split.
  - assert (Hl : length bs = (k + m)%nat).
    { apply (f_equal (@length _)) in Hdims.
      rewrite !length_map in Hdims. rewrite Hdims, <- Hm.
      clear. induction k as [|k IH]; [done|].
      change (mjoin (replicate (S k) sizes))
        with (sizes ++ mjoin (replicate k sizes)).
      rewrite length_app, IH. lia. }
    rewrite length_take. lia.
  - by rewrite <- !firstn_map, Hdims.
Qed.

Lemma data_generator_epochs_witness :
  ∃ bs g',
    pull (Arith0 := Arith_Q) (Externals0 := Externals_id) (seven_args 1) 6 4
         (data_generator (seven_args 1) quiet) = Some (map Ok bs, g')
    ∧ length bs = 4%nat
    ∧ map leading_dims bs
      = map (λ m, replicate 5 (Some m))
          (take 4 (mjoin (replicate 4 (epoch_sizes 7 3)))).
Proof.
  exact (data_generator_epochs (Arith0 := Arith_Q)
           (Externals0 := Externals_id) (seven_args 1)
           [2; 2; 2]%nat [2; 2; 2]%nat [2; 2; 2]%nat [2; 2; 2]%nat 3 4 6 quiet
           eq_refl eq_refl eq_refl ltac:(simpl; lia) ltac:(lia) eq_refl
           (seven_survive 1) ltac:(done) ltac:(lia)).
Defined.

(** ** Assembling a batch: the encoders *)

(** The entries of an encoded array are 0 or 1. *)
Lemma get_multi_class_labels_binary (data : ndarray Z) (n c : nat)
    (spatial : list nat) (n_labels : Z) (labels : option (list Z))
    (y : ndarray Z) :
  shape data = n :: S c :: spatial →
  0 < n_labels →
  (∀ k, (k < Z.to_nat n_labels)%nat → ∃ t, target_label labels k = Ok t) →
  get_multi_class_labels (PyArray data) n_labels labels = Ok y →
  Forall (λ v, v = 0 ∨ v = 1) (elems y).
Proof.
  intros Hshape Hpos Htargets.
  set (L := Z.to_nat n_labels) in *. set (size := product spatial).
  unfold get_multi_class_labels. rewrite getitem_first, Hshape.
  assert (H1 : (n_labels <? 0) = false) by (apply Z.ltb_ge; lia).
  assert (H2 : (0 <? n_labels) = true) by (apply Z.ltb_lt; lia).
  rewrite H1, H2. change (drop 2 (n :: S c :: spatial)) with spatial.
  fold L size.
  destruct (label_loop_spec data labels L (S c) size L 0
              (zeros (n :: L :: spatial)))
    as (y' & Hrun & _ & Hlen & Hval).
  { intros k Hk. apply Htargets. lia. }
  rewrite Hrun. intros [= <-]. apply Forall_lookup. intros p v Hp.
  assert (Hzero : elems (zeros (n :: L :: spatial)) !! p = Some 0).
  { pose proof (lookup_lt_Some _ _ _ Hp) as Hlt. rewrite Hlen in Hlt.
    cbn [zeros elems] in Hlt |- *. rewrite length_replicate in Hlt.
    by apply lookup_replicate_2. }
  rewrite (Hval p 0 Hzero) in Hp. cbv zeta in Hp. injection Hp as <-.
  repeat case_match; auto.
Qed.

Lemma target_label_given (l : list Z) (k : nat) (t : Z) :
  l !! k = Some t → target_label (Some l) k = Ok t.
Proof. apply getitem_nat. Qed.

Lemma label_loop_short (l : list Z) (n_labels c size : nat)
    (data : ndarray Z) (todo : nat) : ∀ (label_index : nat) (y : ndarray Z),
  (label_index ≤ length l < label_index + todo)%nat →
  label_loop todo label_index (Some l) n_labels c size data y
  = Raise IndexError.
Proof.
  induction todo as [|todo IH]; intros label_index y Hl; [lia|].
  cbn [label_loop]. destruct (decide (label_index = length l)) as [->|Hne].
  - cbn [target_label]. unfold getitem.
    assert (H1 : (Z.of_nat (length l) <? 0) = false)
      by (apply Z.ltb_ge; lia).
    rewrite H1. cbv zeta. rewrite H1, Z.leb_refl. done.
  - destruct (lookup_lt_is_Some_2 l label_index ltac:(lia)) as [t Ht].
    rewrite (target_label_given _ _ _ Ht). apply IH. lia.
Qed.

(** X21: the encoder with a list of label values.  Given an array of
    shape (n, c, ...) with at least one channel and a list [labels] of at
    least [n_labels] values, [get_multi_class_labels] returns an array of
    shape (n, n_labels, ...) of zeros and ones whose channel [k] is 1
    exactly where channel 0 of the input equals [labels[k]]; the other
    channels of the input and the values of [labels] past [n_labels] are
    not read. *)
Theorem get_multi_class_labels_encodes (data : ndarray Z) (n c : nat)
    (spatial : list nat) (n_labels : Z) (l : list Z) :
  shape data = n :: S c :: spatial →
  length (elems data) = product (shape data) →
  0 < n_labels →
  (Z.to_nat n_labels ≤ length l)%nat →
  ∃ y,
    get_multi_class_labels (PyArray data) n_labels (Some l) = Ok y
    ∧ shape y = n :: Z.to_nat n_labels :: spatial
    ∧ length (elems y) = product (shape y)
    ∧ Forall (λ v, v = 0 ∨ v = 1) (elems y)
    ∧ ∀ sample k j,
        (sample < n)%nat → (k < Z.to_nat n_labels)%nat →
        (j < product spatial)%nat →
        ∃ d t,
          elems data !! (sample * (S c * product spatial) + j)%nat = Some d
          ∧ l !! k = Some t
          ∧ elems y !! ((sample * Z.to_nat n_labels + k) * product spatial
                        + j)%nat
            = Some (if decide (d = t) then 1 else 0).
Proof.
  intros Hshape Hwf Hpos Hl.
  assert (Htargets : ∀ k, (k < Z.to_nat n_labels)%nat →
                       ∃ t, target_label (Some l) k = Ok t).
  { intros k Hk. destruct (lookup_lt_is_Some_2 l k ltac:(lia)) as [t Ht].
    exists t. by apply target_label_given. }
  destruct (get_multi_class_labels_spec data n c spatial n_labels (Some l)
              Hshape Hwf Hpos Htargets) as (y & Hrun & Hsh & Hlen & Hval).
  exists y. split; [done|]. split; [done|]. split; [done|].
  split.
  { by apply (get_multi_class_labels_binary data n c spatial n_labels
                (Some l) y Hshape Hpos Htargets). }
  intros sample k j Hsample Hk Hj.
  destruct (lookup_lt_is_Some_2 l k ltac:(lia)) as [t Ht].
  destruct (Hval sample k j t Hsample Hk Hj (target_label_given _ _ _ Ht))
    as (d & Hd & Hy).
  exists d, t. done.
Qed.

Lemma get_multi_class_labels_encodes_witness :
  ∃ y,
    get_multi_class_labels
      (PyArray (mk_ndarray [1; 1; 2; 2; 2]%nat [0; 7; 1; 0; 0; 4; 0; 4]))
      2 (Some [4; 7; 9]) = Ok y
    ∧ shape y = [1; 2; 2; 2; 2]%nat
    ∧ length (elems y) = product (shape y)
    ∧ Forall (λ v, v = 0 ∨ v = 1) (elems y)
    ∧ ∀ sample k j,
        (sample < 1)%nat → (k < 2)%nat → (j < 8)%nat →
        ∃ d t,
          [0; 7; 1; 0; 0; 4; 0; 4] !! (sample * (1 * 8) + j)%nat = Some d
          ∧ [4; 7; 9] !! k = Some t
          ∧ elems y !! ((sample * 2 + k) * 8 + j)%nat
            = Some (if decide (d = t) then 1 else 0).
Proof.
  exact (get_multi_class_labels_encodes
           (mk_ndarray [1; 1; 2; 2; 2]%nat [0; 7; 1; 0; 0; 4; 0; 4])
           1 0 [2; 2; 2]%nat 2 [4; 7; 9]
           eq_refl eq_refl eq_refl ltac:(simpl; lia)).
Defined.

(** X22: the encoder without a list of labels is one-hot.  Channel [k]
    stands for the value [k + 1]: a voxel of channel 0 of the input with a
    value [d] between 1 and [n_labels] sets channel [d - 1] of the result
    and no other; a voxel with any other value (the background 0, a
    negative value, a value above [n_labels]) sets none. *)
Theorem get_multi_class_labels_default (data : ndarray Z) (n c : nat)
    (spatial : list nat) (n_labels : Z) :
  shape data = n :: S c :: spatial →
  length (elems data) = product (shape data) →
  0 < n_labels →
  ∃ y,
    get_multi_class_labels (PyArray data) n_labels None = Ok y
    ∧ shape y = n :: Z.to_nat n_labels :: spatial
    ∧ ∀ sample j,
        (sample < n)%nat → (j < product spatial)%nat →
        ∃ d,
          elems data !! (sample * (S c * product spatial) + j)%nat = Some d
          ∧ ∀ k, (k < Z.to_nat n_labels)%nat →
              elems y !! ((sample * Z.to_nat n_labels + k) * product spatial
                          + j)%nat
              = Some (if decide (d = Z.of_nat k + 1) then 1 else 0).
Proof.
  intros Hshape Hwf Hpos.
  assert (Htargets : ∀ k, (k < Z.to_nat n_labels)%nat →
                       ∃ t, target_label None k = Ok t).
  { intros k _. by eexists. }
  destruct (get_multi_class_labels_spec data n c spatial n_labels None
              Hshape Hwf Hpos Htargets) as (y & Hrun & Hsh & Hlen & Hval).
  exists y. split; [done|]. split; [done|].
  intros sample j Hsample Hj.
  assert (Hd : is_Some (elems data !! (sample * (S c * product spatial)
                                       + j)%nat)).
  { apply lookup_lt_is_Some. rewrite Hwf, Hshape, !product_cons. nia. }
  destruct Hd as [d Hd]. exists d. split; [done|]. intros k Hk.
  destruct (Hval sample k j (Z.of_nat k + 1) Hsample Hk Hj eq_refl)
    as (d' & Hd' & Hy).
  rewrite Hd in Hd'. injection Hd' as <-. done.
Qed.

Lemma get_multi_class_labels_default_witness :
  ∃ y,
    get_multi_class_labels
      (PyArray (mk_ndarray [1; 1; 2; 2; 2]%nat [0; 1; 2; 3; -1; 2; 0; 1]))
      2 None = Ok y
    ∧ shape y = [1; 2; 2; 2; 2]%nat
    ∧ ∀ sample j,
        (sample < 1)%nat → (j < 8)%nat →
        ∃ d,
          [0; 1; 2; 3; -1; 2; 0; 1] !! (sample * (1 * 8) + j)%nat = Some d
          ∧ ∀ k, (k < 2)%nat →
              elems y !! ((sample * 2 + k) * 8 + j)%nat
              = Some (if decide (d = Z.of_nat k + 1) then 1 else 0).
Proof.
  exact (get_multi_class_labels_default
           (mk_ndarray [1; 1; 2; 2; 2]%nat [0; 1; 2; 3; -1; 2; 0; 1])
           1 0 [2; 2; 2]%nat 2 eq_refl eq_refl eq_refl).
Defined.

(** X23: a list of labels shorter than [n_labels] makes the encoder raise
    [IndexError], whatever the array holds: the loop reaches the channel
    for which [labels] has no value. *)
Theorem get_multi_class_labels_short_labels (data : ndarray Z) (n c : nat)
    (spatial : list nat) (n_labels : Z) (l : list Z) :
  shape data = n :: S c :: spatial →
  (length l < Z.to_nat n_labels)%nat →
  get_multi_class_labels (PyArray data) n_labels (Some l) = Raise IndexError.
Proof.
  intros Hshape Hl.
  unfold get_multi_class_labels. rewrite getitem_first, Hshape.
  assert (H1 : (n_labels <? 0) = false) by (apply Z.ltb_ge; lia).
  assert (H2 : (0 <? n_labels) = true) by (apply Z.ltb_lt; lia).
  rewrite H1, H2. apply label_loop_short. lia.
Qed.

Lemma get_multi_class_labels_short_labels_witness :
  get_multi_class_labels
    (PyArray (mk_ndarray [1; 1; 2; 2; 2]%nat [0; 1; 2; 3; -1; 2; 0; 1]))
    3 (Some [1; 2]) = Raise IndexError.
Proof.
  exact (get_multi_class_labels_short_labels
           (mk_ndarray [1; 1; 2; 2; 2]%nat [0; 1; 2; 3; -1; 2; 0; 1])
           1 0 [2; 2; 2]%nat 3 [1; 2] eq_refl ltac:(simpl; lia)).
Defined.

(** X24: with one label, [convert_data] stacks and binarises.  For
    accumulators that are not empty and hold arrays of one shape each, the
    two image arrays of the batch are the accumulated volumes stacked
    along a new first axis, unchanged; the labels become a 1-D array; and
    each truth array is the stacked truth volumes with every positive
    entry set to 1 and every other entry (zero or negative) kept, so that
    no entry exceeds 1.  [labels] is not read. *)
Theorem convert_data_binary {voxel : Type} (xs : x_lists voxel)
    (ys : y_lists) (labels : option (list Z)) (sd0 sd1 st1 st2 : list nat) :
  x_0 xs ≠ [] → Forall (λ a, shape a = sd0) (x_0 xs) →
  x_1 xs ≠ [] → Forall (λ a, shape a = sd1) (x_1 xs) →
  y_1 ys ≠ [] → Forall (λ a, shape a = st1) (y_1 ys) →
  y_2 ys ≠ [] → Forall (λ a, shape a = st2) (y_2 ys) →
  ∃ t1 t2,
    convert_data xs ys 1 labels
    = Ok ([mk_ndarray (length (x_0 xs) :: sd0) (concat (map elems (x_0 xs)));
           mk_ndarray (length (x_1 xs) :: sd1) (concat (map elems (x_1 xs)))],
          PyList [mk_ndarray [length (y_0 ys)] (y_0 ys); t1; t2])
    ∧ shape t1 = length (y_1 ys) :: st1
    ∧ shape t2 = length (y_2 ys) :: st2
    ∧ elems t1 = map (λ v, if decide (0 < v) then 1 else v)
                     (concat (map elems (y_1 ys)))
    ∧ elems t2 = map (λ v, if decide (0 < v) then 1 else v)
                     (concat (map elems (y_2 ys)))
    ∧ Forall (λ v, v ≤ 1) (elems t1) ∧ Forall (λ v, v ≤ 1) (elems t2).
Proof.
  intros Hx0 Hs0 Hx1 Hs1 Hy1 Ht1 Hy2 Ht2.
  assert (Hmap : ∀ l : list Z,
            map (λ v, if 0 <? v then 1 else v) l
            = map (λ v, if decide (0 < v) then 1 else v) l).
  { intros l. apply map_ext. intros v. destruct (decide (0 < v)) as [Hv|Hv].
    - apply Z.ltb_lt in Hv. by rewrite Hv.
    - apply Z.ltb_nlt in Hv. by rewrite Hv. }
  assert (Hle : ∀ l : list Z,
            Forall (λ v, v ≤ 1)
                   (map (λ v, if decide (0 < v) then 1 else v) l)).
  { intros l. apply Forall_forall. intros v Hv.
    apply list_elem_of_In, in_map_iff in Hv as (u & <- & _).
    destruct (decide (0 < u)); lia. }
  eexists _, _.
  rewrite (convert_data_one_label xs ys labels _ _ _ _
             (asarray_uniform _ _ Hx0 Hs0) (asarray_uniform _ _ Hx1 Hs1)
             (asarray_uniform _ _ Hy1 Ht1) (asarray_uniform _ _ Hy2 Ht2)).
  split; [reflexivity|]. cbn [binarise shape elems].
  split; [done|]. split; [done|]. rewrite !Hmap.
  split; [done|]. split; [done|]. split; apply Hle.
Qed.

Lemma convert_data_binary_witness :
  ∃ t1 t2,
    convert_data (mk_x [ramp] [ramp])
                 (mk_y [1] [newaxis lesion] [newaxis lesion]) 1 None
    = Ok ([mk_ndarray [1; 2; 2; 2]%nat (concat (map elems [ramp]));
           mk_ndarray [1; 2; 2; 2]%nat (concat (map elems [ramp]))],
          PyList [mk_ndarray [1%nat] [1]; t1; t2])
    ∧ shape t1 = [1; 1; 2; 2; 2]%nat
    ∧ shape t2 = [1; 1; 2; 2; 2]%nat
    ∧ elems t1 = map (λ v, if decide (0 < v) then 1 else v)
                     (concat (map elems [newaxis lesion]))
    ∧ elems t2 = map (λ v, if decide (0 < v) then 1 else v)
                     (concat (map elems [newaxis lesion]))
    ∧ Forall (λ v, v ≤ 1) (elems t1) ∧ Forall (λ v, v ≤ 1) (elems t2).
Proof.
  exact (convert_data_binary (mk_x [ramp] [ramp])
           (mk_y [1] [newaxis lesion] [newaxis lesion]) None
           [2; 2; 2]%nat [2; 2; 2]%nat [1; 2; 2; 2]%nat [1; 2; 2; 2]%nat
           ltac:(done) ltac:(by repeat constructor)
           ltac:(done) ltac:(by repeat constructor)
           ltac:(done) ltac:(by repeat constructor)
           ltac:(done) ltac:(by repeat constructor)).
Defined.
